(** * I2C master driver (cpu/stm32l4/periph/i2c.c): model and properties

    The driver is embedded as a program in a small state monad.  The
    controller is an abstract device reached through volatile register
    accesses; the calling thread's accesses are recorded in a trace so
    that ordering properties can be stated.  Polling loops that the
    source leaves unbounded take a fuel argument and report [Hang] when
    it runs out. *)

From Stdlib Require Import ZArith List Bool Lia String.
Import ListNotations.
Open Scope Z_scope.

(** ** Machine integers *)

Definition uint32 (z : Z) : Z := z mod 2 ^ 32.
Definition uint16 (z : Z) : Z := z mod 2 ^ 16.
Definition uint8 (z : Z) : Z := z mod 2 ^ 8.

(** [int] arithmetic, two's complement on 32 bits. *)
Definition int32 (z : Z) : Z := (z + 2 ^ 31) mod 2 ^ 32 - 2 ^ 31.

(** [~m] on a 32-bit operand. *)
Definition not32 (m : Z) : Z := uint32 (Z.lnot m).

(** ** Registers of one controller block ([I2C_TypeDef]) *)

Inductive reg : Type :=
| CR1 | CR2 | OAR1 | TIMINGR | CCR | SR1 | SR2 | DR | TXDR | ISR.

Definition reg_eqb (a b : reg) : bool :=
  match a, b with
  | CR1, CR1 | CR2, CR2 | OAR1, OAR1 | TIMINGR, TIMINGR | CCR, CCR
  | SR1, SR1 | SR2, SR2 | DR, DR | TXDR, TXDR | ISR, ISR => true
  | _, _ => false
  end.

(** [i2c_t]: a bus index; [i2c_config[dev].dev] is identified with it. *)
Definition i2c_t : Type := Z.

(** The seven conditions the error handler tells apart. *)
Inductive fault : Type :=
| OVR | NACKF | ARLO | BERR | PECERR | TIMEOUT | ALERT.

(** Modelled from the spec: the speed classes of [i2c_speed_t], declared in
    periph/i2c.h.  The driver's switch names [I2C_SPEED_NORMAL] and
    [I2C_SPEED_FAST]; every other enumerator takes the default branch. *)
Inductive i2c_speed_t : Type :=
| I2C_SPEED_NORMAL
| I2C_SPEED_FAST
| I2C_SPEED_other.

(** ** Board and header constants

    The bit masks come from the vendor header and the bus count and
    peripheral clock from periph_conf.h; the driver only names them. *)

Class PeriphConf : Type := {
  I2C_NUMOF : Z;
  I2C_APBCLK : Z;
  I2C_FLAG_READ : Z;
  I2C_FLAG_WRITE : Z;
  I2C_CR1_PE : Z;
  I2C_CR1_ANFOFF : Z;
  I2C_CR1_NOSTRETCH : Z;
  I2C_CR1_SWRST : Z;
  I2C_CR1_START : Z;
  I2C_CR1_STOP : Z;
  I2C_CR1_ACK : Z;
  I2C_CR1_POS : Z;
  I2C_CR2_STOP : Z;
  I2C_SR1_SB : Z;
  I2C_SR1_ADDR : Z;
  I2C_SR1_BTF : Z;
  I2C_SR1_RXNE : Z;
  I2C_SR2_BUSY : Z;
  I2C_ISR_TXE : Z;
  I2C_ISR_TC : Z;
  I2C_ISR_OVR : Z;
  I2C_ISR_NACKF : Z;
  I2C_ISR_ARLO : Z;
  I2C_ISR_BERR : Z;
  I2C_ISR_PECERR : Z;
  I2C_ISR_TIMEOUT : Z;
  I2C_ISR_ALERT : Z
}.

(** ** The hardware seen from the driver

    Reading a register returns a value and lets the device move on;
    [hw_irq] tells whether the error line of some bus is raised at this
    instant. *)

Class Hardware : Type := {
  hw : Type;
  hw_read : i2c_t -> reg -> hw -> Z * hw;
  hw_write : i2c_t -> reg -> Z -> hw -> hw;
  hw_now : hw -> Z * hw;
  hw_irq : hw -> option (i2c_t * hw)
}.

(** Calls into the rest of the system, recorded by name. *)
Inductive extcall : Type :=
| periph_clk_en (dev : Z)
| periph_clk_dis (dev : Z)
| NVIC_SetPriority (dev : Z)
| NVIC_EnableIRQ (dev : Z)
| gpio_init_scl (dev : Z)
| gpio_init_af_scl (dev : Z)
| gpio_init_sda (dev : Z)
| gpio_init_af_sda (dev : Z).

(** What the calling thread does, in program order. *)
Inductive event : Type :=
| EvRead (i2c : i2c_t) (r : reg) (v : Z)
| EvWrite (i2c : i2c_t) (r : reg) (v : Z)
| EvUpdate (i2c : i2c_t) (r : reg) (old new : Z)
| EvNow (t : Z)
| EvStore (i : Z) (b : Z)
| EvReset (i2c : i2c_t)
| EvExt (c : extcall).

(** ** Reading a trace *)

(** Values stored by plain writes to register [r] of bus [i2c]. *)
Definition writes_to (i2c : i2c_t) (r : reg) (tr : list event) : list Z :=
  flat_map (fun e => match e with
                     | EvWrite j q v => if (j =? i2c) && reg_eqb q r then [v] else []
                     | _ => []
                     end) tr.

(** Values returned by plain reads of register [r] of bus [i2c]. *)
Definition reads_of (i2c : i2c_t) (r : reg) (tr : list event) : list Z :=
  flat_map (fun e => match e with
                     | EvRead j q v => if (j =? i2c) && reg_eqb q r then [v] else []
                     | _ => []
                     end) tr.

(** Any access (read, write or update) to register [r] of bus [i2c]. *)
Definition touches (i2c : i2c_t) (r : reg) (e : event) : bool :=
  match e with
  | EvRead j q _ | EvWrite j q _ | EvUpdate j q _ _ => (j =? i2c) && reg_eqb q r
  | _ => false
  end.

(** The event turns on some bit of [m] in register [r]: a plain write
    carrying the bit, or an update under which the bit goes from 0 to 1. *)
Definition asserts (i2c : i2c_t) (r : reg) (m : Z) (e : event) : bool :=
  match e with
  | EvWrite j q v => (j =? i2c) && reg_eqb q r && negb (Z.land v m =? 0)
  | EvUpdate j q old new =>
      (j =? i2c) && reg_eqb q r
      && negb (Z.land (Z.land new (Z.lnot old)) m =? 0)
  | _ => false
  end.

(** An access that writes nothing: a register read or a reading of the
    timer. *)
Definition passive (e : event) : bool :=
  match e with
  | EvRead _ _ _ | EvNow _ => true
  | _ => false
  end.

(** Bytes put into the caller's buffer, with their positions. *)
Definition stores (tr : list event) : list (Z * Z) :=
  flat_map (fun e => match e with EvStore i b => [(i, b)] | _ => [] end) tr.

(** The buffer after a sequence of stores. *)
Definition apply_stores (l : list (Z * Z)) (m : Z -> Z) : Z -> Z :=
  fold_left (fun m ib => fun j => if j =? fst ib then snd ib else m j) l m.

(** The positions [i], [i+1], ..., [i+k-1]. *)
Definition zseq (i : Z) (k : nat) : list Z :=
  map (fun j => i + Z.of_nat j) (seq 0 k).

(** Number of bus resets. *)
Definition resets (tr : list event) : nat :=
  List.length (filter (fun e => match e with EvReset _ => true | _ => false end) tr).

(** Number of timer readings later than 100 ms after [t0]. *)
Definition late_polls (t0 : Z) (tr : list event) : nat :=
  List.length (filter (fun e => match e with
                                | EvNow t => 100000 <? uint32 (t - t0)
                                | _ => false
                                end) tr).

Section Machine.

Context {HW : Hardware}.

(** ** Machine state *)

Record State : Type := mkState {
  st_hw : hw;
  i2c_bus_error : Z;
  i2c_bus_result : Z;
  irq_enabled : bool;
  my_data : Z -> Z;
  trace : list event;
  fault_log : list Z
}.

Definition with_hw (h : hw) (s : State) : State :=
  mkState h (i2c_bus_error s) (i2c_bus_result s) (irq_enabled s) (my_data s)
          (trace s) (fault_log s).

Definition with_bus_error (e : Z) (s : State) : State :=
  mkState (st_hw s) e (i2c_bus_result s) (irq_enabled s) (my_data s)
          (trace s) (fault_log s).

Definition with_bus_result (e : Z) (s : State) : State :=
  mkState (st_hw s) (i2c_bus_error s) e (irq_enabled s) (my_data s)
          (trace s) (fault_log s).

Definition with_irq (b : bool) (s : State) : State :=
  mkState (st_hw s) (i2c_bus_error s) (i2c_bus_result s) b (my_data s)
          (trace s) (fault_log s).

Definition with_data (m : Z -> Z) (s : State) : State :=
  mkState (st_hw s) (i2c_bus_error s) (i2c_bus_result s) (irq_enabled s) m
          (trace s) (fault_log s).

Definition emit (e : event) (s : State) : State :=
  mkState (st_hw s) (i2c_bus_error s) (i2c_bus_result s) (irq_enabled s) (my_data s)
          (trace s ++ [e]) (fault_log s).

(** An assignment to [i2c_bus_error] made by the interrupt handler; the
    values assigned are kept, in order, in [fault_log]. *)
Definition record_fault (e : Z) (s : State) : State :=
  mkState (st_hw s) e (i2c_bus_result s) (irq_enabled s) (my_data s)
          (trace s) (fault_log s ++ [e]).

(** ** The monad *)

Inductive Res (A : Type) : Type :=
| Ret (a : A) (s : State)
| Hang (s : State).

Arguments Ret {A} a s.
Arguments Hang {A} s.

Definition M (A : Type) : Type := State -> Res A.

Definition ret {A} (a : A) : M A := fun s => Ret a s.

Definition bind {A B} (m : M A) (k : A -> M B) : M B :=
  fun s => match m s with
           | Ret a s' => k a s'
           | Hang s' => Hang s'
           end.

Definition hang {A} : M A := fun s => Hang s.

Definition lift (f : State -> State) : M unit := fun s => Ret tt (f s).

End Machine.

Arguments Ret {HW A} a s.
Arguments Hang {HW A} s.

Declare Scope drv_scope.
Delimit Scope drv_scope with drv.
Notation "x <- m ;; k" := (bind m (fun x => k))
  (at level 61, m at next level, right associativity) : drv_scope.
Notation "m ;; k" := (bind m (fun _ => k))
  (at level 61, right associativity) : drv_scope.

Section Driver.

Context {conf : PeriphConf} {HW : Hardware}.

Local Open Scope drv_scope.

(** ** Register accesses *)

(** A 32-bit volatile load or store, as the bus sees it. *)
Definition raw_read (i2c : i2c_t) (r : reg) (s : State) : Z * State :=
  let (v, h) := hw_read i2c r (st_hw s) in (uint32 v, with_hw h s).

Definition raw_write (i2c : i2c_t) (r : reg) (v : Z) (s : State) : State :=
  with_hw (hw_write i2c r v (st_hw s)) s.

(** ** Error interrupt *)

(** [i2c->ISR &= ~m] inside the handler. *)
Definition isr_clear (i2c : i2c_t) (m : Z) (s : State) : State :=
  let (v, s1) := raw_read i2c ISR s in
  raw_write i2c ISR (Z.land v (not32 m)) s1.

(** [if (state & mask) { ... }] *)
Definition on_flag (state mask : Z) (body : State -> State) (s : State) : State :=
  if Z.land state mask =? 0 then s else body s.

Definition _i2c_irq (i2c : i2c_t) (s : State) : State :=
  let (state, s) := raw_read i2c ISR s in
  let s := on_flag state I2C_ISR_OVR (record_fault (-1)) s in
  let s := on_flag state I2C_ISR_NACKF
             (fun s => isr_clear i2c I2C_ISR_NACKF (record_fault (-2) s)) s in
  let s := on_flag state I2C_ISR_ARLO
             (fun s => isr_clear i2c I2C_ISR_ARLO (record_fault (-3) s)) s in
  let s := on_flag state I2C_ISR_BERR (record_fault (-4)) s in
  let s := on_flag state I2C_ISR_PECERR (record_fault (-5)) s in
  let s := on_flag state I2C_ISR_TIMEOUT (record_fault (-6)) s in
  let s := on_flag state I2C_ISR_ALERT (record_fault (-7)) s in
  s.

(** [I2C_0_ERR_ISR] serves the first controller, [I2C_1_ERR_ISR] the second. *)
Definition I2C_0_ERR_ISR (s : State) : State := _i2c_irq 0 s.
Definition I2C_1_ERR_ISR (s : State) : State := _i2c_irq 1 s.

Definition err_isr (bus : i2c_t) (s : State) : State :=
  if bus =? 0 then I2C_0_ERR_ISR s
  else if bus =? 1 then I2C_1_ERR_ISR s
  else s.

(** Between two accesses of the thread the error line may be served,
    unless interrupts are masked. *)
Definition irq_point (s : State) : State :=
  if irq_enabled s then
    match hw_irq (st_hw s) with
    | Some (bus, h) => err_isr bus (with_hw h s)
    | None => s
    end
  else s.

(** ** Accesses of the calling thread *)

Definition rd (i2c : i2c_t) (r : reg) : M Z := fun s =>
  let (v, s1) := raw_read i2c r (irq_point s) in
  Ret v (emit (EvRead i2c r v) s1).

Definition wr (i2c : i2c_t) (r : reg) (v : Z) : M unit := fun s =>
  Ret tt (emit (EvWrite i2c r v) (raw_write i2c r v (irq_point s))).

(** A read-modify-write statement such as [i2c->CR1 |= m]. *)
Definition update (i2c : i2c_t) (r : reg) (f : Z -> Z) : M unit := fun s =>
  let (old, s1) := raw_read i2c r (irq_point s) in
  Ret tt (emit (EvUpdate i2c r old (f old)) (raw_write i2c r (f old) (irq_point s1))).

Definition set_bits (i2c : i2c_t) (r : reg) (m : Z) : M unit :=
  update i2c r (fun v => Z.lor v m).

Definition clear_bits (i2c : i2c_t) (r : reg) (m : Z) : M unit :=
  update i2c r (fun v => Z.land v (not32 m)).

Definition xtimer_now_usec : M Z := fun s =>
  let s0 := irq_point s in
  let (t, h) := hw_now (st_hw s0) in
  Ret (uint32 t) (emit (EvNow (uint32 t)) (with_hw h s0)).

(** The volatile fault variable. *)
Definition get_bus_error : M Z := fun s =>
  let s0 := irq_point s in Ret (i2c_bus_error s0) s0.

Definition set_bus_error (e : Z) : M unit := fun s =>
  Ret tt (with_bus_error e (irq_point s)).

Definition set_bus_result (e : Z) : M unit := lift (with_bus_result e).

Definition irq_disable : M bool := fun s =>
  Ret (irq_enabled s) (with_irq false s).

Definition irq_restore (state : bool) : M unit := lift (with_irq state).

(** [my_data[i] = v] with [my_data] a [uint8_t *]. *)
Definition store (i : Z) (v : Z) : M unit := fun s =>
  Ret tt (emit (EvStore i (uint8 v))
               (with_data (fun j => if j =? i then uint8 v else my_data s j) s)).

Definition ext (c : extcall) : M unit := lift (emit (EvExt c)).

(** [while (!p(i2c->r)) {}] *)
Fixpoint poll (fuel : nat) (i2c : i2c_t) (r : reg) (p : Z -> bool) : M unit :=
  match fuel with
  | O => hang
  | S f => v <- rd i2c r ;; if p v then ret tt else poll f i2c r p
  end.

(** [while (!(i2c->r & m)) {}] *)
Definition wait_set (fuel : nat) (i2c : i2c_t) (r : reg) (m : Z) : M unit :=
  poll fuel i2c r (fun v => negb (Z.land v m =? 0)).

(** [while (i2c->r & m) {}] *)
Definition wait_clear (fuel : nat) (i2c : i2c_t) (r : reg) (m : Z) : M unit :=
  poll fuel i2c r (fun v => Z.land v m =? 0).

(** ** Bus initializer *)

Definition i2c_poweron (dev : i2c_t) : M unit :=
  if uint32 dev <? I2C_NUMOF then ext (periph_clk_en dev) else ret tt.

Definition i2c_poweroff (fuel : nat) (dev : i2c_t) : M unit :=
  if uint32 dev <? I2C_NUMOF then
    wait_clear fuel dev SR2 I2C_SR2_BUSY ;; ext (periph_clk_dis dev)
  else ret tt.

Definition _i2c_init (i2c : i2c_t) (timing : Z) : M unit :=
  clear_bits i2c CR1 I2C_CR1_PE ;;
  set_bits i2c CR1 (not32 I2C_CR1_ANFOFF) ;;
  wr i2c TIMINGR timing ;;
  clear_bits i2c CR1 I2C_CR1_NOSTRETCH ;;
  wr i2c OAR1 0 ;;
  set_bits i2c CR1 I2C_CR1_PE.

(** Minimum high, low, hold and setup times in nanoseconds. *)
Definition speed_times (speed : i2c_speed_t) : option (Z * Z * Z * Z) :=
  match speed with
  | I2C_SPEED_NORMAL => Some (4000, 4700, 500, 1250)
  | I2C_SPEED_FAST => Some (600, 1300, 375, 500)
  | I2C_SPEED_other => None
  end.

Definition NSEC_PER_SEC : Z := 1000 * 1000 * 1000.

(** The tick counts of one candidate prescaler: sclh, scll, sdadel, scldel.
    Unsigned division; a zero divisor yields zero, as the core's UDIV does. *)
Definition ticks (i2c_clk presc : Z) (times : Z * Z * Z * Z) : Z * Z * Z * Z :=
  let '(i2c_h_min_time, i2c_l_min_time, i2c_hold_time_min, i2c_setup_time_min) := times in
  let t_presc := i2c_clk / presc in
  let ns_presc := NSEC_PER_SEC / t_presc in
  (i2c_h_min_time / ns_presc, i2c_l_min_time / ns_presc,
   i2c_hold_time_min / ns_presc, i2c_setup_time_min / ns_presc).

(** The test that rejects a candidate. *)
Definition out_of_range (t : Z * Z * Z * Z) : bool :=
  let '(sclh, scll, sdadel, scldel) := t in
  (255 <? uint32 (sclh - 1)) || (255 <? uint32 (scll - 1)) ||
  (15 <? sdadel) || (15 <? uint32 (scldel - 1)).

Definition timing_value (presc : Z) (t : Z * Z * Z * Z) : Z :=
  let '(sclh, scll, sdadel, scldel) := t in
  uint32 (Z.lor (Z.lor (Z.lor (Z.lor (Z.shiftl (presc - 1) 28)
                                     (Z.shiftl (scldel - 1) 20))
                              (Z.shiftl sdadel 16))
                       (Z.shiftl (sclh - 1) 8))
                (scll - 1)).

(** The do-while loop of the initializer, returning the final [presc]
    and [timing].  [timing] is a local without initial value; it keeps
    the value passed in when no candidate is accepted. *)
Fixpoint presc_loop (fuel : nat) (i2c_clk : Z) (times : Z * Z * Z * Z)
         (presc timing : Z) : Z * Z :=
  match fuel with
  | O => (presc, timing)
  | S f =>
      let t := ticks i2c_clk presc times in
      if out_of_range t then
        let presc := presc + 1 in
        if presc <? 16 then presc_loop f i2c_clk times presc timing
        else (presc, timing)
      else (presc, timing_value presc t)
  end.

Definition i2c_init_master (dev : i2c_t) (speed : i2c_speed_t) : M Z :=
  if I2C_NUMOF <=? uint32 dev then ret (-1) else
  let i2c := dev in
  i2c_poweron dev ;;
  clear_bits i2c CR1 I2C_CR1_PE ;;
  ext (NVIC_SetPriority dev) ;;
  ext (NVIC_EnableIRQ dev) ;;
  ext (gpio_init_scl dev) ;;
  ext (gpio_init_af_scl dev) ;;
  ext (gpio_init_sda dev) ;;
  ext (gpio_init_af_sda dev) ;;
  let i2c_clk := uint32 I2C_APBCLK in
  match speed_times speed with
  | None => ret (-2)
  | Some times =>
      let (presc, timing) := presc_loop 16 i2c_clk times 1 0 in
      if 16 <=? presc then ret 2
      else _i2c_init i2c timing ;; ret 0
  end.

(** ** Error recovery *)

Definition _i2c_reset (i2c : i2c_t) : M unit :=
  lift (emit (EvReset i2c)) ;;
  v <- rd i2c CCR ;;
  let ccr := uint16 v in
  set_bits i2c CR1 I2C_CR1_SWRST ;;
  clear_bits i2c CR1 I2C_CR1_SWRST ;;
  _i2c_init i2c ccr.

(** ** Transaction engine *)

(** The bus-busy wait of [_start]. *)
Fixpoint wait_ready (fuel : nat) (i2c : i2c_t) (time_now : Z) : M unit :=
  match fuel with
  | O => hang
  | S f =>
      sr2 <- rd i2c SR2 ;;
      if Z.land sr2 I2C_SR2_BUSY =? 0 then ret tt
      else
        t <- xtimer_now_usec ;;
        (if 100000 <? uint32 (t - time_now) then _i2c_reset i2c else ret tt) ;;
        wait_ready f i2c time_now
  end.

(** The address-acknowledgment wait of [_start]. *)
Fixpoint wait_addr (fuel : nat) (i2c : i2c_t) : M Z :=
  match fuel with
  | O => hang
  | S f =>
      sr1 <- rd i2c SR1 ;;
      if Z.land sr1 I2C_SR1_ADDR =? 0 then
        e <- get_bus_error ;;
        if e =? 0 then wait_addr f i2c
        else _i2c_reset i2c ;; ret (-1)
      else ret 0
  end.

(** [_start] up to and including the write of the address byte. *)
Definition start_send (fuel : nat) (i2c : i2c_t) (address rw_flag : Z) : M unit :=
  time_now <- xtimer_now_usec ;;
  wait_ready fuel i2c time_now ;;
  set_bits i2c CR1 I2C_CR1_START ;;
  wait_set fuel i2c SR1 I2C_SR1_SB ;;
  set_bus_error 0 ;;
  wr i2c DR (Z.lor (Z.shiftl address 1) rw_flag).

Definition _start (fuel : nat) (i2c : i2c_t) (address rw_flag : Z) : M Z :=
  start_send fuel i2c address rw_flag ;;
  wait_addr fuel i2c.

Definition _clear_addr (i2c : i2c_t) : M unit :=
  rd i2c SR1 ;; rd i2c SR2 ;; ret tt.

(** [for (int i = 0; i < length; i++)] of [_write], from index [i]. *)
Fixpoint write_loop (fuel n : nat) (i2c : i2c_t) (data : Z -> Z) (length i : Z)
  : M unit :=
  if i <? length then
    match n with
    | O => hang
    | S n' =>
        wr i2c TXDR (data i) ;;
        wait_set fuel i2c ISR I2C_ISR_TXE ;;
        write_loop fuel n' i2c data length (i + 1)
    end
  else ret tt.

Definition _write (fuel : nat) (i2c : i2c_t) (data : Z -> Z) (length : Z) : M unit :=
  write_loop fuel fuel i2c data length 0.

Definition _stop (fuel : nat) (i2c : i2c_t) : M unit :=
  wait_set fuel i2c ISR I2C_ISR_TC ;;
  set_bits i2c CR2 I2C_CR2_STOP.

(** [while (i < (length - 3))] of the N-byte read, returning the final [i]. *)
Fixpoint read_stream (fuel n : nat) (i2c : i2c_t) (length i : Z) : M Z :=
  if i <? int32 (length - 3) then
    match n with
    | O => hang
    | S n' =>
        wait_set fuel i2c SR1 I2C_SR1_RXNE ;;
        v <- rd i2c DR ;;
        store i v ;;
        read_stream fuel n' i2c length (i + 1)
    end
  else ret i.

Definition i2c_read_bytes (fuel : nat) (dev : i2c_t) (address : Z) (length : Z) : M Z :=
  if I2C_NUMOF <=? uint32 dev then ret (-1) else
  let i2c := dev in
  if length =? 1 then
    r <- _start fuel i2c address I2C_FLAG_READ ;;
    set_bus_result r ;;
    if r <? 0 then ret r else
    clear_bits i2c CR1 I2C_CR1_ACK ;;
    state <- irq_disable ;;
    _clear_addr i2c ;;
    set_bits i2c CR1 I2C_CR1_STOP ;;
    irq_restore state ;;
    wait_set fuel i2c SR1 I2C_SR1_RXNE ;;
    v <- rd i2c DR ;;
    store 0 v ;;
    wait_clear fuel i2c CR1 I2C_CR1_STOP ;;
    set_bits i2c CR1 I2C_CR1_ACK ;;
    ret length
  else if length =? 2 then
    r <- _start fuel i2c address I2C_FLAG_READ ;;
    set_bus_result r ;;
    if r <? 0 then ret r else
    set_bits i2c CR1 (Z.lor I2C_CR1_POS I2C_CR1_ACK) ;;
    state <- irq_disable ;;
    _clear_addr i2c ;;
    clear_bits i2c CR1 I2C_CR1_ACK ;;
    irq_restore state ;;
    wait_set fuel i2c SR1 I2C_SR1_BTF ;;
    state <- irq_disable ;;
    set_bits i2c CR1 I2C_CR1_STOP ;;
    v <- rd i2c DR ;;
    store 0 v ;;
    irq_restore state ;;
    v <- rd i2c DR ;;
    store 1 v ;;
    wait_clear fuel i2c CR1 I2C_CR1_STOP ;;
    clear_bits i2c CR1 I2C_CR1_POS ;;
    set_bits i2c CR1 I2C_CR1_ACK ;;
    ret length
  else
    r <- _start fuel i2c address I2C_FLAG_READ ;;
    set_bus_result r ;;
    if r <? 0 then ret r else
    _clear_addr i2c ;;
    i <- read_stream fuel fuel i2c length 0 ;;
    wait_set fuel i2c SR1 I2C_SR1_BTF ;;
    clear_bits i2c CR1 I2C_CR1_ACK ;;
    state <- irq_disable ;;
    v <- rd i2c DR ;;
    store i v ;;
    set_bits i2c CR1 I2C_CR1_STOP ;;
    irq_restore state ;;
    v <- rd i2c DR ;;
    store (i + 1) v ;;
    wait_set fuel i2c SR1 I2C_SR1_RXNE ;;
    v <- rd i2c DR ;;
    store (i + 2) v ;;
    wait_clear fuel i2c CR1 I2C_CR1_STOP ;;
    clear_bits i2c CR1 I2C_CR1_POS ;;
    set_bits i2c CR1 I2C_CR1_ACK ;;
    ret length.

Definition i2c_read_byte (fuel : nat) (dev : i2c_t) (address : Z) : M Z :=
  i2c_read_bytes fuel dev address 1.

Definition i2c_write_bytes (fuel : nat) (dev : i2c_t) (address : Z)
           (data : Z -> Z) (length : Z) : M Z :=
  if I2C_NUMOF <=? uint32 dev then ret (-1) else
  let i2c := dev in
  r <- _start fuel i2c address I2C_FLAG_WRITE ;;
  set_bus_result r ;;
  if r <? 0 then ret r else
  _clear_addr i2c ;;
  _write fuel i2c data length ;;
  _stop fuel i2c ;;
  ret length.

Definition i2c_write_byte (fuel : nat) (dev : i2c_t) (address data : Z) : M Z :=
  i2c_write_bytes fuel dev address (fun _ => data) 1.

(** Register-addressed variants. *)

Definition i2c_read_regs (fuel : nat) (dev : i2c_t) (address reg : Z)
           (length : Z) : M Z :=
  if I2C_NUMOF <=? uint32 dev then ret (-1) else
  let i2c := dev in
  r <- _start fuel i2c address I2C_FLAG_WRITE ;;
  set_bus_result r ;;
  if r <? 0 then ret r else
  _clear_addr i2c ;;
  wr i2c DR reg ;;
  _stop fuel i2c ;;
  i2c_read_bytes fuel dev address length.

Definition i2c_read_reg (fuel : nat) (dev : i2c_t) (address reg : Z) : M Z :=
  i2c_read_regs fuel dev address reg 1.

Definition i2c_write_regs (fuel : nat) (dev : i2c_t) (address reg : Z)
           (data : Z -> Z) (length : Z) : M Z :=
  if I2C_NUMOF <=? uint32 dev then ret (-1) else
  let i2c := dev in
  r <- _start fuel i2c address I2C_FLAG_WRITE ;;
  set_bus_result r ;;
  if r <? 0 then ret r else
  _clear_addr i2c ;;
  _write fuel i2c (fun _ => reg) 1 ;;
  _write fuel i2c data length ;;
  _stop fuel i2c ;;
  ret length.

Definition i2c_write_reg (fuel : nat) (dev : i2c_t) (address reg data : Z) : M Z :=
  i2c_write_regs fuel dev address reg (fun _ => data) 1.

End Driver.

(** ** The prescaler search in the specification's words

    A second description of what the initializer looks for, written from
    the specification and compared below with the loop of the source: the
    tick counts of a candidate are the minimum times divided by the period
    of the prescaled clock, and a candidate is valid when every count
    fits the field of the timing register that receives it. *)

(** The period, in whole nanoseconds, of the peripheral clock divided by
    [presc]; there is none when the divided clock is below 1 Hz or above
    1 GHz. *)
Definition spec_period_ns (clk presc : Z) : option Z :=
  let f := clk / presc in
  if f <=? 0 then None
  else
    let ns := NSEC_PER_SEC / f in
    if ns <=? 0 then None else Some ns.

(** The high, low, hold and setup counts of a candidate. *)
Definition spec_tick_counts (clk presc : Z) (times : Z * Z * Z * Z)
  : option (Z * Z * Z * Z) :=
  match spec_period_ns clk presc with
  | None => None
  | Some ns =>
      let '(high, low, hold, setup) := times in
      Some (high / ns, low / ns, hold / ns, setup / ns)
  end.

(** The field-width bounds.  The high and low counts go, less one, into
    fields of 8 bits; the hold count and the setup count less one into
    fields of 4 bits. *)
Definition spec_within_field_widths (t : Z * Z * Z * Z) : bool :=
  let '(sclh, scll, sdadel, scldel) := t in
  (0 <=? sclh - 1) && (sclh - 1 <=? 255) &&
  (0 <=? scll - 1) && (scll - 1 <=? 255) &&
  (0 <=? sdadel) && (sdadel <=? 15) &&
  (0 <=? scldel - 1) && (scldel - 1 <=? 15).

Definition spec_valid_prescaler (clk : Z) (times : Z * Z * Z * Z) (presc : Z) : bool :=
  match spec_tick_counts clk presc times with
  | Some t => spec_within_field_widths t
  | None => false
  end.

(** ** Outcomes *)

(** The status bit of a fault and the code the specification gives it. *)
Definition fault_bit {conf : PeriphConf} (k : fault) : Z :=
  match k with
  | OVR => I2C_ISR_OVR
  | NACKF => I2C_ISR_NACKF
  | ARLO => I2C_ISR_ARLO
  | BERR => I2C_ISR_BERR
  | PECERR => I2C_ISR_PECERR
  | TIMEOUT => I2C_ISR_TIMEOUT
  | ALERT => I2C_ISR_ALERT
  end.

Definition fault_code (k : fault) : Z :=
  match k with
  | OVR => -1
  | NACKF => -2
  | ARLO => -3
  | BERR => -4
  | PECERR => -5
  | TIMEOUT => -6
  | ALERT => -7
  end.

(** The faults the handler tests after [k]. *)
Definition later_faults (k : fault) : list fault :=
  match k with
  | OVR => [NACKF; ARLO; BERR; PECERR; TIMEOUT; ALERT]
  | NACKF => [ARLO; BERR; PECERR; TIMEOUT; ALERT]
  | ARLO => [BERR; PECERR; TIMEOUT; ALERT]
  | BERR => [PECERR; TIMEOUT; ALERT]
  | PECERR => [TIMEOUT; ALERT]
  | TIMEOUT => [ALERT]
  | ALERT => []
  end.

Section Outcomes.

Context {conf : PeriphConf} {HW : Hardware}.

(** What [_i2c_init] does on the bus; [a], [b], [c], [d] are the values
    the control register showed at each update. *)
Definition init_trace (i2c : i2c_t) (timing a b c d : Z) : list event :=
  [EvUpdate i2c CR1 a (Z.land a (not32 I2C_CR1_PE));
   EvUpdate i2c CR1 b (Z.lor b (not32 I2C_CR1_ANFOFF));
   EvWrite i2c TIMINGR timing;
   EvUpdate i2c CR1 c (Z.land c (not32 I2C_CR1_NOSTRETCH));
   EvWrite i2c OAR1 0;
   EvUpdate i2c CR1 d (Z.lor d I2C_CR1_PE)].

(** What [_i2c_reset] does on the bus when [CCR] reads [v]. *)
Definition reset_trace (i2c : i2c_t) (v a b c d e f : Z) : list event :=
  [EvReset i2c;
   EvRead i2c CCR v;
   EvUpdate i2c CR1 a (Z.lor a I2C_CR1_SWRST);
   EvUpdate i2c CR1 b (Z.land b (not32 I2C_CR1_SWRST))]
  ++ init_trace i2c (uint16 v) c d e f.

(** Total correctness: the computation returns, and its result and final
    state satisfy [Q]. *)
Definition wp {A} (m : M A) (Q : A -> State -> Prop) (s : State) : Prop :=
  match m s with
  | Ret a s' => Q a s'
  | Hang _ => False
  end.

(** The same with a condition [H] on the state in which fuel ran out. *)
Definition wpr {A} (m : M A) (Q : A -> State -> Prop) (H : State -> Prop)
           (s : State) : Prop :=
  match m s with
  | Ret a s' => Q a s'
  | Hang s' => H s'
  end.

(** The state in which a computation stopped. *)
Definition final_state {A} (r : Res A) : State :=
  match r with
  | Ret _ s => s
  | Hang s => s
  end.

(** What an access of the thread leaves alone: it appends [tr] to the
    trace and keeps the caller's buffer; an interrupt served on the way
    may have recorded a fault. *)
Definition frame (s s' : State) (tr : list event) : Prop :=
  trace s' = trace s ++ tr /\
  my_data s' = my_data s /\
  (i2c_bus_error s' = i2c_bus_error s \/ -7 <= i2c_bus_error s' <= -1).

(** The same for a piece of program that fills the buffer: the buffer is
    the old one with the stores of [tr] applied. *)
Definition dframe (s s' : State) (tr : list event) : Prop :=
  trace s' = trace s ++ tr /\
  my_data s' = apply_stores (stores tr) (my_data s).

(** For every large enough fuel the computation returns [a] in state [s']. *)
Definition converges {A} (m : nat -> M A) (s : State) (a : A) (s' : State) : Prop :=
  exists n0 : nat, forall n : nat, (n0 <= n)%nat -> m n s = Ret a s'.

(** Returning is stable under more fuel. *)
Definition mono {A} (m : nat -> M A) : Prop :=
  forall (n n' : nat) s a s', m n s = Ret a s' -> (n <= n')%nat -> m n' s = Ret a s'.

(** Total correctness for a computation indexed by its fuel. *)
Definition cwp {A} (m : nat -> M A) (Q : A -> State -> Prop) (s : State) : Prop :=
  exists a s', converges m s a s' /\ Q a s'.

(** The device ends every wait for [p] on register [r]: whatever the
    state in which the polling starts, some read satisfies [p]. *)
Definition answers (i2c : i2c_t) (r : reg) (p : Z -> bool) : Prop :=
  forall s, exists (n : nat) s', poll n i2c r p s = Ret tt s'.

(** The trace of a completed wait: reads of [r] that fail [p], then one
    that satisfies it. *)
Definition poll_trace (i2c : i2c_t) (r : reg) (p : Z -> bool)
           (tr : list event) : Prop :=
  exists pre v,
    tr = pre ++ [EvRead i2c r v] /\ p v = true /\
    Forall (fun e => exists u, e = EvRead i2c r u /\ p u = false) pre.

Definition is_set (m : Z) (v : Z) : bool := negb (Z.land v m =? 0).
Definition is_clear (m : Z) (v : Z) : bool := Z.land v m =? 0.

(** The faults whose bit is set in a status word, in the order the handler
    tests them. *)
Definition faults_in (status : Z) : list fault :=
  filter (fun k => negb (Z.land status (fault_bit k) =? 0))
         [OVR; NACKF; ARLO; BERR; PECERR; TIMEOUT; ALERT].

(** The error handler cannot run: the caller has masked interrupts, or
    the device never raises the error line. *)
Definition calm (s : State) : Prop :=
  irq_enabled s = false \/ (forall h, hw_irq h = None).

(** Register [r] returns the bits [m] as last written: a read by the
    thread that follows one of its writes, nothing but the error handler
    having run in between, shows them as they were written. *)
Definition retains (i2c : i2c_t) (r : reg) (m : Z) : Prop :=
  forall s v ev,
    Z.land (fst (raw_read i2c r (irq_point (emit ev (raw_write i2c r v s))))) m
    = Z.land (uint32 v) m.

(** One turn of the address wait of [_start] in which neither the address
    flag nor a fault is seen: the read of status register 1, then the test
    of the fault variable.  The state the turn leaves, when it is of that
    kind. *)
Definition idle_turn (i2c : i2c_t) (s : State) : option State :=
  match rd i2c SR1 s with
  | Ret sr1 s1 =>
      if Z.land sr1 I2C_SR1_ADDR =? 0 then
        match get_bus_error s1 with
        | Ret e s2 => if e =? 0 then Some s2 else None
        | Hang _ => None
        end
      else None
  | Hang _ => None
  end.

(** [j] such turns in a row. *)
Fixpoint idle_turns (j : nat) (i2c : i2c_t) (s : State) : option State :=
  match j with
  | O => Some s
  | S j' =>
      match idle_turn i2c s with
      | Some s' => idle_turns j' i2c s'
      | None => None
      end
  end.

End Outcomes.

(** * Concrete boards and devices used to exercise the model *)

(** Bit positions as in the vendor headers the driver's names come from. *)
Definition stm32_conf (numof apbclk : Z) : PeriphConf := {|
  I2C_NUMOF := numof;
  I2C_APBCLK := apbclk;
  I2C_FLAG_READ := 1;
  I2C_FLAG_WRITE := 0;
  I2C_CR1_PE := 0x0001;
  I2C_CR1_ANFOFF := 0x1000;
  I2C_CR1_NOSTRETCH := 0x20000;
  I2C_CR1_SWRST := 0x8000;
  I2C_CR1_START := 0x0100;
  I2C_CR1_STOP := 0x0200;
  I2C_CR1_ACK := 0x0400;
  I2C_CR1_POS := 0x0800;
  I2C_CR2_STOP := 0x4000;
  I2C_SR1_SB := 0x0001;
  I2C_SR1_ADDR := 0x0002;
  I2C_SR1_BTF := 0x0004;
  I2C_SR1_RXNE := 0x0040;
  I2C_SR2_BUSY := 0x0002;
  I2C_ISR_TXE := 0x0001;
  I2C_ISR_TC := 0x0040;
  I2C_ISR_OVR := 0x0400;
  I2C_ISR_NACKF := 0x0010;
  I2C_ISR_ARLO := 0x0200;
  I2C_ISR_BERR := 0x0100;
  I2C_ISR_PECERR := 0x0800;
  I2C_ISR_TIMEOUT := 0x1000;
  I2C_ISR_ALERT := 0x2000
|}.

(** A controller that is only a register file: a read returns what was
    last written, nothing changes by itself, no interrupt is raised. *)
Definition regfile : Hardware := {|
  hw := i2c_t -> reg -> Z;
  hw_read := fun i2c r h => (h i2c r, h);
  hw_write := fun i2c r v h =>
    fun j q => if (j =? i2c) && reg_eqb q r then v else h j q;
  hw_now := fun h => (0, h);
  hw_irq := fun _ => None
|}.

Definition regfile_state (h : i2c_t -> reg -> Z) : @State regfile :=
  @mkState regfile h 0 0 true (fun _ => 0) [] [].

(** A bus that stays busy: every status read has all bits set, and the
    microsecond timer advances by 50 ms each time it is read. *)
Definition stuck_bus : Hardware := {|
  hw := Z;
  hw_read := fun _ _ t => (0xFFFFFFFF, t);
  hw_write := fun _ _ _ t => t;
  hw_now := fun t => (t, t + 50000);
  hw_irq := fun _ => None
|}.

Definition stuck_state : @State stuck_bus :=
  @mkState stuck_bus 0 0 0 true (fun _ => 0) [] [].

(** A peer that does not acknowledge its address: the start bit is
    reported, the address flag never is, and once the address byte has
    been written the error line of bus 0 is raised once, with [status] in
    the status register. *)
Definition faulty (status : Z) : Hardware := {|
  hw := bool;
  hw_read := fun _ r pending =>
    (match r with SR1 => 0x0001 | ISR => status | _ => 0 end, pending);
  hw_write := fun _ r _ pending => match r with DR => true | _ => pending end;
  hw_now := fun pending => (0, pending);
  hw_irq := fun pending => if pending then Some (0, false) else None
|}.

Definition faulty_state (status : Z) : @State (faulty status) :=
  @mkState (faulty status) false 0 0 true (fun _ => 0) [] [].

Definition board_8MHz : PeriphConf := stm32_conf 2 8000000.
Definition board_100kHz : PeriphConf := stm32_conf 2 100000.
Definition board_80MHz : PeriphConf := stm32_conf 2 80000000.

(** After a successful initialization at 8 MHz the register file holds
    the timing value 0x00941F24. *)
Definition initialized_regs : i2c_t -> reg -> Z :=
  Eval vm_compute in
  st_hw (final_state (@i2c_init_master board_8MHz regfile 0 I2C_SPEED_NORMAL
                        (regfile_state (fun _ _ => 0)))).


(** The state in which [_start] gives up on the unacknowledging peer. *)
Definition nack_failed_state : @State (faulty 0x0010) :=
  Eval vm_compute in
  final_state (@_start board_8MHz (faulty 0x0010) 1 0 0x1D 1 (faulty_state 0x0010)).

(** A peer that answers: the status and control registers read all ones
    and all zeros in turn, and the data register delivers 0, 1, 2, ... *)
Definition responder : Hardware := {|
  hw := bool * Z;
  hw_read := fun _ r h =>
    match r with
    | DR => (snd h, (fst h, snd h + 1))
    | _ => ((if fst h then 0xFFFFFFFF else 0), (negb (fst h), snd h))
    end;
  hw_write := fun _ _ _ h => h;
  hw_now := fun h => (0, h);
  hw_irq := fun _ => None
|}.

Definition responder_state : @State responder :=
  @mkState responder (false, 0) 0 0 true (fun _ => 0) [] [].

(** The state in which the start phase of a read ends on the responder. *)
Definition responder_started : @State responder :=
  Eval vm_compute in
  final_state (@_start board_8MHz responder 2 0 0x1D 1 responder_state).

(** The state in which the start phase of a write ends on the responder. *)
Definition responder_started_write : @State responder :=
  Eval vm_compute in
  final_state (@_start board_8MHz responder 2 0 0x1D 0 responder_state).

(** The state in which the start phase of a write gives up on the
    unacknowledging peer. *)
Definition nack_failed_write : @State (faulty 0x0010) :=
  Eval vm_compute in
  final_state (@_start board_8MHz (faulty 0x0010) 1 0 0x1D 0 (faulty_state 0x0010)).

(** Three bytes to send. *)
Definition sample_data (i : Z) : Z := 0xA0 + i.

(** The state in which the address byte has just been sent to the
    responder, and the one in which its address wait ends. *)
Definition responder_sent : @State responder :=
  Eval vm_compute in
  final_state (@start_send board_8MHz responder 2 0 0x1D 1 responder_state).

(** A peer whose acknowledgment races with a fault.  The start bit is
    always reported, the address flag always or never according to
    [acked]; once the address byte has been written, the error line of
    bus 0 is raised after [delay] further reads of status register 1,
    with [status] in the status register. *)
Definition racing (status : Z) (acked : bool) (delay : nat) : Hardware := {|
  hw := option nat;
  hw_read := fun _ r h =>
    (match r with
     | SR1 => if acked then 0x0003 else 0x0001
     | ISR => status
     | _ => 0
     end,
     match r, h with
     | SR1, Some (S n) => Some n
     | _, _ => h
     end);
  hw_write := fun _ r _ h => match r with DR => Some delay | _ => h end;
  hw_now := fun h => (0, h);
  hw_irq := fun h => match h with Some O => Some (0, None) | _ => None end
|}.

Definition racing_state (status : Z) (acked : bool) (delay : nat)
  : @State (racing status acked delay) :=
  @mkState (racing status acked delay) None 0 0 true (fun _ => 0) [] [].

(** The NACK flag raised after the second poll of the address wait: the
    state in which the address byte has been sent, the one after the first
    turn of the wait, and the one after the status read of the second. *)
Definition late_sent : @State (racing 0x0010 false 2) :=
  Eval vm_compute in
  final_state (@start_send board_8MHz (racing 0x0010 false 2) 1 0 0x1D 1
                 (racing_state 0x0010 false 2)).

Definition late_turn : @State (racing 0x0010 false 2) :=
  Eval vm_compute in
  match @idle_turns board_8MHz (racing 0x0010 false 2) 1 0 late_sent with
  | Some st => st
  | None => late_sent
  end.

Definition late_polled : @State (racing 0x0010 false 2) :=
  Eval vm_compute in
  final_state (@rd board_8MHz (racing 0x0010 false 2) 0 SR1 late_turn).

(** The NACK flag raised as soon as the address byte is sent, the address
    flag being reported all the same. *)
Definition early_sent : @State (racing 0x0010 true 0) :=
  Eval vm_compute in
  final_state (@start_send board_8MHz (racing 0x0010 true 0) 1 0 0x1D 1
                 (racing_state 0x0010 true 0)).

(** A controller with a peer on a bus that other masters use.  The control
    register keeps what is written to it, START and STOP excepted, which
    the hardware takes back at once.  Writing START raises the start bit,
    writing the address byte raises the address flag, and reading status
    register 2 while the address flag is up replaces it by the
    byte-transfer-complete and receive-not-empty flags.  Status register 2
    shows the bus busy for the first [p_busy] reads.  The data register
    delivers [p_next], [p_next + 1], ...; the microsecond timer advances by
    60 ms each time it is read. *)
Record peer_hw : Type := mkPeer {
  p_cr1 : Z;
  p_sr1 : Z;
  p_busy : nat;
  p_now : Z;
  p_next : Z
}.

Definition peer : Hardware := {|
  hw := peer_hw;
  hw_read := fun _ r h =>
    match r with
    | CR1 => (p_cr1 h, h)
    | SR1 => (p_sr1 h, h)
    | SR2 =>
        match p_busy h with
        | S n => (0x0002, mkPeer (p_cr1 h) (p_sr1 h) n (p_now h) (p_next h))
        | O =>
            (0, mkPeer (p_cr1 h)
                       (if Z.land (p_sr1 h) 0x0002 =? 0 then p_sr1 h else 0x0044)
                       O (p_now h) (p_next h))
        end
    | DR => (p_next h, mkPeer (p_cr1 h) (p_sr1 h) (p_busy h) (p_now h) (p_next h + 1))
    | _ => (0, h)
    end;
  hw_write := fun _ r v h =>
    match r with
    | CR1 =>
        mkPeer (Z.land v (Z.lnot 0x0300))
               (if Z.land v 0x0100 =? 0 then p_sr1 h else 0x0001)
               (p_busy h) (p_now h) (p_next h)
    | DR => mkPeer (p_cr1 h) 0x0002 (p_busy h) (p_now h) (p_next h)
    | _ => h
    end;
  hw_now := fun h =>
    (p_now h, mkPeer (p_cr1 h) (p_sr1 h) (p_busy h) (p_now h + 60000) (p_next h));
  hw_irq := fun _ => None
|}.

(** The bus is busy for the first [busy] reads of status register 2. *)
Definition peer_state (busy : nat) : @State peer :=
  @mkState peer (mkPeer 0 0 busy 0 0x50) 0 0 true (fun _ => 0) [] [].


(** The state in which the address byte has been sent, the bus having been
    busy for three polls (180 ms), and for one poll (60 ms). *)
Definition peer_sent_late : @State peer :=
  Eval vm_compute in
  final_state (@start_send board_8MHz peer 4 0 0x1D 1 (peer_state 3)).

Definition peer_sent_soon : @State peer :=
  Eval vm_compute in
  final_state (@start_send board_8MHz peer 4 0 0x1D 1 (peer_state 1)).

(** The answering peer with a control register that keeps what is written
    to it: STOP alone is taken back by the hardware, once it has been read.
    The status registers read all zeros and all ones in turn, and the data
    register delivers 0x50, 0x51, ... *)
Definition retentive : Hardware := {|
  hw := Z * (bool * Z);
  hw_read := fun _ r h =>
    match r with
    | CR1 => (fst h, (Z.land (fst h) (Z.lnot 0x0200), snd h))
    | DR => (snd (snd h), (fst h, (fst (snd h), snd (snd h) + 1)))
    | _ => ((if fst (snd h) then 0xFFFFFFFF else 0),
            (fst h, (negb (fst (snd h)), snd (snd h))))
    end;
  hw_write := fun _ r v h => match r with CR1 => (v, snd h) | _ => h end;
  hw_now := fun h => (0, h);
  hw_irq := fun _ => None
|}.

Definition retentive_state : @State retentive :=
  @mkState retentive (0, (false, 0x50)) 0 0 true (fun _ => 0) [] [].

(** The state in which the start phase of a read ends on it. *)
Definition retentive_started : @State retentive :=
  Eval vm_compute in
  final_state (@_start board_8MHz retentive 2 0 0x1D 1 retentive_state).

(** * Properties *)

Section Proofs.

Context {conf : PeriphConf} {HW : Hardware}.

Local Open Scope drv_scope.

(** ** Machine integers *)

Lemma uint32_range z : 0 <= uint32 z < 2 ^ 32.
Proof. unfold uint32. apply Z.mod_pos_bound. lia. Qed.

Lemma uint32_small z : 0 <= z < 2 ^ 32 -> uint32 z = z.
Proof. intros. unfold uint32. apply Z.mod_small. assumption. Qed.

Lemma uint8_range z : 0 <= uint8 z < 256.
Proof. unfold uint8. apply Z.mod_pos_bound. lia. Qed.

Lemma int32_small z : - 2 ^ 31 <= z < 2 ^ 31 -> int32 z = z.
Proof. intros. unfold int32. rewrite Z.mod_small; lia. Qed.

(** ** Traces *)

Lemma writes_to_app i2c r t1 t2 :
  writes_to i2c r (t1 ++ t2) = writes_to i2c r t1 ++ writes_to i2c r t2.
Proof. unfold writes_to. apply flat_map_app. Qed.

Lemma reads_of_app i2c r t1 t2 :
  reads_of i2c r (t1 ++ t2) = reads_of i2c r t1 ++ reads_of i2c r t2.
Proof. unfold reads_of. apply flat_map_app. Qed.

Lemma resets_app t1 t2 : resets (t1 ++ t2) = (resets t1 + resets t2)%nat.
Proof. unfold resets. rewrite filter_app, length_app. reflexivity. Qed.

Lemma late_polls_app t0 t1 t2 :
  late_polls t0 (t1 ++ t2) = (late_polls t0 t1 + late_polls t0 t2)%nat.
Proof. unfold late_polls. rewrite filter_app, length_app. reflexivity. Qed.

Lemma reg_eqb_refl r : reg_eqb r r = true.
Proof. destruct r; reflexivity. Qed.

(** ** The monad *)

Lemma wp_ret {A} (a : A) Q s : Q a s -> wp (ret a) Q s.
Proof. intro H. exact H. Qed.

Lemma wp_bind {A B} (m : M A) (k : A -> M B) Q s :
  wp m (fun a s' => wp (k a) Q s') s -> wp (bind m k) Q s.
Proof. unfold wp, bind. destruct (m s); auto. Qed.

Lemma wp_mono {A} (m : M A) (Q Q' : A -> State -> Prop) s :
  wp m Q s -> (forall a s', Q a s' -> Q' a s') -> wp m Q' s.
Proof. unfold wp. destruct (m s); auto. Qed.

Lemma wp_returns {A} (m : M A) Q s :
  wp m Q s <-> exists a s', m s = Ret a s' /\ Q a s'.
Proof.
  unfold wp. split.
  - destruct (m s) as [a s'|s']; [eauto | tauto].
  - intros (a & s' & E & H). rewrite E. exact H.
Qed.

Lemma wp_lift f Q s : Q tt (f s) -> wp (lift f) Q s.
Proof. intro H. exact H. Qed.

(** ** Frames *)

Lemma frame_refl s : frame s s [].
Proof. unfold frame. rewrite app_nil_r. auto. Qed.

Lemma frame_trans s1 s2 s3 t1 t2 :
  frame s1 s2 t1 -> frame s2 s3 t2 -> frame s1 s3 (t1 ++ t2).
Proof.
  unfold frame. intros (T1 & D1 & E1) (T2 & D2 & E2).
  rewrite T2, T1, D2, D1, app_assoc.
  repeat split; try reflexivity.
  destruct E2 as [E2|E2]; [rewrite E2; exact E1 | right; exact E2].
Qed.

Lemma with_hw_frame h s : frame s (with_hw h s) [].
Proof. unfold frame. simpl. rewrite app_nil_r. auto. Qed.

Lemma raw_read_frame i2c r s :
  frame s (snd (raw_read i2c r s)) [] /\ 0 <= fst (raw_read i2c r s) < 2 ^ 32.
Proof.
  unfold raw_read. destruct (hw_read i2c r (st_hw s)) as [v h]. simpl.
  split; [apply with_hw_frame | apply uint32_range].
Qed.

Lemma record_fault_frame e s : -7 <= e <= -1 -> frame s (record_fault e s) [].
Proof. intro H. unfold frame. simpl. rewrite app_nil_r. auto. Qed.

Lemma isr_clear_frame i2c m s : frame s (isr_clear i2c m s) [].
Proof.
  unfold frame, isr_clear, raw_read, raw_write.
  destruct (hw_read i2c ISR (st_hw s)) as [v h]. simpl. rewrite app_nil_r. auto.
Qed.

Lemma on_flag_frame state mask body s0 s :
  (forall x, frame x (body x) []) ->
  frame s0 s [] -> frame s0 (on_flag state mask body s) [].
Proof.
  intros Hb H. unfold on_flag. destruct (Z.land state mask =? 0); [exact H|].
  change (@nil event) with (@nil event ++ []).
  eapply frame_trans; [exact H | apply Hb].
Qed.

Lemma record_clear_frame i2c m e x :
  -7 <= e <= -1 -> frame x (isr_clear i2c m (record_fault e x)) [].
Proof.
  intro H. change (@nil event) with (@nil event ++ []).
  eapply frame_trans; [apply record_fault_frame, H | apply isr_clear_frame].
Qed.

Lemma irq_handler_frame i2c s : frame s (_i2c_irq i2c s) [].
Proof.
  unfold _i2c_irq.
  pose proof (raw_read_frame i2c ISR s) as [F _].
  destruct (raw_read i2c ISR s) as [state s1]. simpl in F. cbv zeta.
  repeat apply on_flag_frame; try exact F; intro x;
    first [ apply record_fault_frame; lia | apply record_clear_frame; lia ].
Qed.

Lemma irq_point_frame s : frame s (irq_point s) [].
Proof.
  unfold irq_point.
  destruct (irq_enabled s); [|apply frame_refl].
  destruct (hw_irq (st_hw s)) as [[bus h]|]; [|apply frame_refl].
  unfold err_isr, I2C_0_ERR_ISR, I2C_1_ERR_ISR.
  change (@nil event) with (@nil event ++ []).
  apply frame_trans with (with_hw h s); [apply with_hw_frame|].
  destruct (bus =? 0); [|destruct (bus =? 1)];
    auto using irq_handler_frame, frame_refl.
Qed.

Lemma irq_point_masked s : irq_enabled s = false -> irq_point s = s.
Proof. unfold irq_point. intros ->. reflexivity. Qed.

Lemma emit_frame e s : frame s (emit e s) [e].
Proof. unfold frame. simpl. auto. Qed.

(** ** Accesses *)

Lemma wp_rd i2c r (Q : Z -> State -> Prop) s :
  (forall v s', 0 <= v < 2 ^ 32 -> frame s s' [EvRead i2c r v] -> Q v s') ->
  wp (rd i2c r) Q s.
Proof.
  intro H. unfold wp, rd.
  pose proof (raw_read_frame i2c r (irq_point s)) as [F B].
  destruct (raw_read i2c r (irq_point s)) as [v s1]. simpl in F, B.
  apply H; [exact B|].
  change [EvRead i2c r v] with ([] ++ [] ++ [EvRead i2c r v]).
  eapply frame_trans; [apply irq_point_frame|].
  eapply frame_trans; [exact F | apply emit_frame].
Qed.

Lemma wp_wr i2c r v (Q : unit -> State -> Prop) s :
  (forall s', frame s s' [EvWrite i2c r v] -> Q tt s') ->
  wp (wr i2c r v) Q s.
Proof.
  intro H. unfold wp, wr. apply H.
  change [EvWrite i2c r v] with ([] ++ [] ++ [EvWrite i2c r v]).
  eapply frame_trans; [apply irq_point_frame|].
  eapply frame_trans; [apply with_hw_frame | apply emit_frame].
Qed.

Lemma wp_update i2c r f (Q : unit -> State -> Prop) s :
  (forall old s', 0 <= old < 2 ^ 32 ->
                  frame s s' [EvUpdate i2c r old (f old)] -> Q tt s') ->
  wp (update i2c r f) Q s.
Proof.
  intro H. unfold wp, update.
  pose proof (raw_read_frame i2c r (irq_point s)) as [F B].
  destruct (raw_read i2c r (irq_point s)) as [v s1]. simpl in F, B.
  apply (H v); [exact B|].
  change [EvUpdate i2c r v (f v)] with ([] ++ [] ++ [] ++ [] ++ [EvUpdate i2c r v (f v)]).
  eapply frame_trans; [apply irq_point_frame|].
  eapply frame_trans; [exact F|].
  eapply frame_trans; [apply irq_point_frame|].
  eapply frame_trans; [apply with_hw_frame | apply emit_frame].
Qed.

Lemma wp_now (Q : Z -> State -> Prop) s :
  (forall t s', 0 <= t < 2 ^ 32 -> frame s s' [EvNow t] -> Q t s') ->
  wp xtimer_now_usec Q s.
Proof.
  intro H. unfold wp, xtimer_now_usec.
  destruct (hw_now (st_hw (irq_point s))) as [t h].
  apply H; [apply uint32_range|].
  change [EvNow (uint32 t)] with ([] ++ [] ++ [EvNow (uint32 t)]).
  eapply frame_trans; [apply irq_point_frame|].
  eapply frame_trans; [apply with_hw_frame | apply emit_frame].
Qed.

Lemma wp_get_bus_error (Q : Z -> State -> Prop) s :
  (forall s', frame s s' [] -> Q (i2c_bus_error s') s') ->
  wp get_bus_error Q s.
Proof. intro H. unfold wp, get_bus_error. apply H, irq_point_frame. Qed.

Lemma wp_set_bus_error e (Q : unit -> State -> Prop) s :
  (forall s', trace s' = trace s -> my_data s' = my_data s ->
              i2c_bus_error s' = e -> Q tt s') ->
  wp (set_bus_error e) Q s.
Proof.
  intro H. unfold wp, set_bus_error.
  destruct (irq_point_frame s) as (T & D & _). rewrite app_nil_r in T.
  apply H; simpl; auto.
Qed.

Lemma wp_set_bus_result e (Q : unit -> State -> Prop) s :
  (forall s', frame s s' [] -> Q tt s') -> wp (set_bus_result e) Q s.
Proof.
  intro H. apply wp_lift, H. unfold frame. simpl. rewrite app_nil_r. auto.
Qed.

Lemma wp_irq_disable (Q : bool -> State -> Prop) s :
  (forall b s', frame s s' [] -> irq_enabled s' = false -> Q b s') ->
  wp irq_disable Q s.
Proof.
  intro H. unfold wp, irq_disable. apply H; [|reflexivity].
  unfold frame. simpl. rewrite app_nil_r. auto.
Qed.

Lemma wp_irq_restore b (Q : unit -> State -> Prop) s :
  (forall s', frame s s' [] -> Q tt s') -> wp (irq_restore b) Q s.
Proof.
  intro H. apply wp_lift, H. unfold frame. simpl. rewrite app_nil_r. auto.
Qed.

Lemma wp_ext c (Q : unit -> State -> Prop) s :
  (forall s', frame s s' [EvExt c] -> Q tt s') -> wp (ext c) Q s.
Proof. intro H. apply wp_lift, H, emit_frame. Qed.

Lemma wp_store i v (Q : unit -> State -> Prop) s :
  (forall s', trace s' = trace s ++ [EvStore i (uint8 v)] ->
              my_data s' = (fun j => if j =? i then uint8 v else my_data s j) ->
              i2c_bus_error s' = i2c_bus_error s -> Q tt s') ->
  wp (store i v) Q s.
Proof. intro H. unfold wp, store. apply H; reflexivity. Qed.

Lemma wp_set_bits i2c r m (Q : unit -> State -> Prop) s :
  (forall old s', 0 <= old < 2 ^ 32 ->
                  frame s s' [EvUpdate i2c r old (Z.lor old m)] -> Q tt s') ->
  wp (set_bits i2c r m) Q s.
Proof. intro H. unfold set_bits. apply wp_update. exact H. Qed.

Lemma wp_clear_bits i2c r m (Q : unit -> State -> Prop) s :
  (forall old s', 0 <= old < 2 ^ 32 ->
                  frame s s' [EvUpdate i2c r old (Z.land old (not32 m))] -> Q tt s') ->
  wp (clear_bits i2c r m) Q s.
Proof. intro H. unfold clear_bits. apply wp_update. exact H. Qed.

(** One step of symbolic execution. *)
Ltac wp_prim :=
  first
    [ apply wp_rd; intros ? ? ? ?
    | apply wp_wr; intros ? ?
    | apply wp_set_bits; intros ? ? ? ?
    | apply wp_clear_bits; intros ? ? ? ?
    | apply wp_now; intros ? ? ? ?
    | apply wp_get_bus_error; intros ? ?
    | apply wp_set_bus_result; intros ? ?
    | apply wp_irq_disable; intros ? ? ? ?
    | apply wp_irq_restore; intros ? ?
    | apply wp_ext; intros ? ?
    | apply wp_ret ].

Ltac wp_step := apply wp_bind; wp_prim.

(** Collapse a chain of frames from [s] into one. *)
Ltac frame_chain :=
  repeat match goal with
         | F1 : frame ?a ?b ?t1, F2 : frame ?b ?c ?t2 |- _ =>
             pose proof (frame_trans _ _ _ _ _ F1 F2); clear F1 F2
         end.

(** ** Bus initializer *)

Lemma wp_i2c_init i2c timing (Q : unit -> State -> Prop) s :
  (forall a b c d s', frame s s' (init_trace i2c timing a b c d) -> Q tt s') ->
  wp (_i2c_init i2c timing) Q s.
Proof.
  intro H. unfold _i2c_init.
  do 5 wp_step. wp_prim.
  frame_chain. eapply H. unfold init_trace. simpl in *. eassumption.
Qed.

Lemma presc_loop_accept i2c_clk times p :
  p < 16 ->
  out_of_range (ticks i2c_clk p times) = false ->
  forall fuel presc timing,
    presc <= p ->
    (Z.to_nat (p - presc) < fuel)%nat ->
    (forall q, presc <= q < p -> out_of_range (ticks i2c_clk q times) = true) ->
    presc_loop fuel i2c_clk times presc timing
    = (p, timing_value p (ticks i2c_clk p times)).
Proof.
  intros Hp Hok. induction fuel as [|f IH]; intros presc timing Hle Hf Hbad; [lia|].
  simpl. destruct (Z.eq_dec presc p) as [->|Hne].
  - rewrite Hok. reflexivity.
  - rewrite Hbad by lia.
    destruct (Z.ltb_spec (presc + 1) 16); [|lia].
    apply IH; [lia | lia | intros; apply Hbad; lia].
Qed.

Lemma presc_loop_reject i2c_clk times :
  forall fuel presc timing,
    presc <= 15 ->
    (Z.to_nat (15 - presc) < fuel)%nat ->
    (forall q, presc <= q <= 15 -> out_of_range (ticks i2c_clk q times) = true) ->
    presc_loop fuel i2c_clk times presc timing = (16, timing).
Proof.
  induction fuel as [|f IH]; intros presc timing Hle Hf Hbad; [lia|].
  simpl. rewrite Hbad by lia.
  destruct (Z.ltb_spec (presc + 1) 16).
  - apply IH; [lia | lia | intros; apply Hbad; lia].
  - f_equal. lia.
Qed.

(** The part of the initializer that runs before the speed is looked at. *)
Lemma wp_init_prologue dev (k : M Z) (Q : Z -> State -> Prop) s :
  uint32 dev < I2C_NUMOF ->
  (forall a s',
      frame s s' [EvExt (periph_clk_en dev);
                  EvUpdate dev CR1 a (Z.land a (not32 I2C_CR1_PE));
                  EvExt (NVIC_SetPriority dev);
                  EvExt (NVIC_EnableIRQ dev);
                  EvExt (gpio_init_scl dev);
                  EvExt (gpio_init_af_scl dev);
                  EvExt (gpio_init_sda dev);
                  EvExt (gpio_init_af_sda dev)] -> wp k Q s') ->
  wp (i2c_poweron dev ;;
      clear_bits dev CR1 I2C_CR1_PE ;;
      ext (NVIC_SetPriority dev) ;;
      ext (NVIC_EnableIRQ dev) ;;
      ext (gpio_init_scl dev) ;;
      ext (gpio_init_af_scl dev) ;;
      ext (gpio_init_sda dev) ;;
      ext (gpio_init_af_sda dev) ;; k) Q s.
Proof.
  intros Hdev H. unfold i2c_poweron.
  destruct (Z.ltb_spec (uint32 dev) I2C_NUMOF); [|lia].
  do 8 wp_step. frame_chain. eapply H. simpl in *. eassumption.
Qed.

(** ** The range test and the field widths *)

Lemma uint32_pred x : 0 <= x < 2 ^ 32 ->
  uint32 (x - 1) = if x =? 0 then 4294967295 else x - 1.
Proof.
  intro H. destruct (Z.eqb_spec x 0) as [->|N]; [reflexivity|].
  apply uint32_small. lia.
Qed.

(** On counts that fit 32 bits, the test of the source rejects exactly
    the candidates that do not fit the field widths. *)
Lemma out_of_range_widths sclh scll sdadel scldel :
  0 <= sclh < 2 ^ 32 -> 0 <= scll < 2 ^ 32 ->
  0 <= sdadel < 2 ^ 32 -> 0 <= scldel < 2 ^ 32 ->
  out_of_range (sclh, scll, sdadel, scldel)
  = negb (spec_within_field_widths (sclh, scll, sdadel, scldel)).
Proof.
  intros Hh Hl Hd Hs. unfold out_of_range, spec_within_field_widths.
  rewrite !uint32_pred by assumption.
  destruct (Z.eqb_spec sclh 0), (Z.eqb_spec scll 0), (Z.eqb_spec scldel 0);
    repeat match goal with
           | |- context [?a <? ?b] => destruct (Z.ltb_spec a b)
           | |- context [?a <=? ?b] => destruct (Z.leb_spec a b)
           end; simpl; try reflexivity; lia.
Qed.

Lemma div_bounds X ns : 0 <= X < 2 ^ 32 -> 0 < ns -> 0 <= X / ns < 2 ^ 32.
Proof.
  intros HX Hns. split; [apply Z.div_pos; lia|].
  apply Z.div_lt_upper_bound; nia.
Qed.

(** The same for the counts the source computes.  A divided clock of 0 Hz
    or above 1 GHz, for which the specification has no period, gives zero
    counts in the source, and these are rejected. *)
Lemma out_of_range_spec speed times clk presc :
  speed_times speed = Some times ->
  0 <= clk -> 1 <= presc ->
  out_of_range (ticks clk presc times) = negb (spec_valid_prescaler clk times presc).
Proof.
  intros Hsp Hclk Hpresc.
  assert (B : exists h l d t, times = (h, l, d, t) /\
                0 <= h < 2 ^ 32 /\ 0 <= l < 2 ^ 32 /\
                0 <= d < 2 ^ 32 /\ 0 <= t < 2 ^ 32).
  { destruct speed; simpl in Hsp; inversion Hsp; do 4 eexists;
      (split; [reflexivity|]); lia. }
  destruct B as (h & l & d & t & -> & Bh & Bl & Bd & Bt).
  assert (F0 : 0 <= clk / presc) by (apply Z.div_pos; lia).
  unfold spec_valid_prescaler, spec_tick_counts, spec_period_ns, ticks. cbv zeta.
  destruct (Z.leb_spec (clk / presc) 0) as [F|F].
  - replace (clk / presc) with 0 by lia.
    rewrite !Z.div_0_r. reflexivity.
  - assert (N0 : 0 <= NSEC_PER_SEC / (clk / presc)).
    { apply Z.div_pos; [unfold NSEC_PER_SEC|]; lia. }
    destruct (Z.leb_spec (NSEC_PER_SEC / (clk / presc)) 0) as [N|N].
    + replace (NSEC_PER_SEC / (clk / presc)) with 0 by lia.
      rewrite !Z.div_0_r. reflexivity.
    + apply out_of_range_widths; apply div_bounds; assumption.
Qed.

Lemma widths_bounds sclh scll sdadel scldel :
  spec_within_field_widths (sclh, scll, sdadel, scldel) = true ->
  0 <= sclh - 1 <= 255 /\ 0 <= scll - 1 <= 255 /\
  0 <= sdadel <= 15 /\ 0 <= scldel - 1 <= 15.
Proof.
  intro Hw. unfold spec_within_field_widths in Hw.
  repeat (apply andb_prop in Hw; destruct Hw as [Hw ?]).
  repeat match goal with H : (_ <=? _) = true |- _ => apply Z.leb_le in H end.
  lia.
Qed.

Lemma spec_ticks_are_ticks clk p times t :
  spec_tick_counts clk p times = Some t -> ticks clk p times = t.
Proof.
  unfold spec_tick_counts, spec_period_ns, ticks. cbv zeta.
  destruct times as [[[h l] hd] st].
  destruct (clk / p <=? 0); [discriminate|].
  destruct (NSEC_PER_SEC / (clk / p) <=? 0); [discriminate|].
  intro E. injection E as <-. reflexivity.
Qed.

Lemma lor_aligned a b n :
  0 <= n -> 0 <= a -> a mod 2 ^ n = 0 -> 0 <= b < 2 ^ n ->
  Z.lor a b = a + b.
Proof.
  intros Hn Ha Hmod Hb.
  assert (L : Z.land a b = 0); [|pose proof (Z.add_lor_land a b); lia].
  apply Z.bits_inj'. intros i Hi. rewrite Z.land_spec, Z.bits_0.
  destruct (Z.ltb_spec i n).
  - assert (E : a = 2 ^ n * (a / 2 ^ n)).
    { pose proof (Z.div_mod a (2 ^ n)). 
      assert (2 ^ n <> 0) by (apply Z.pow_nonzero; lia). lia. }
    rewrite E, Z.mul_comm, Z.mul_pow2_bits_low by lia. reflexivity.
  - replace (Z.testbit b i) with false; [apply andb_false_r|].
    symmetry. rewrite <- (Z.mod_small b (2 ^ n)) by lia.
    apply Z.mod_pow2_bits_high. lia.
Qed.

(** Within the field widths the five fields of the timing value do not
    overlap, so that the bitwise packing is a sum. *)
Lemma timing_value_sum presc sclh scll sdadel scldel :
  1 <= presc <= 15 ->
  0 <= sclh - 1 <= 255 -> 0 <= scll - 1 <= 255 ->
  0 <= sdadel <= 15 -> 0 <= scldel - 1 <= 15 ->
  timing_value presc (sclh, scll, sdadel, scldel)
  = (presc - 1) * 2 ^ 28 + (scldel - 1) * 2 ^ 20 + sdadel * 2 ^ 16
    + (sclh - 1) * 2 ^ 8 + (scll - 1).
Proof.
  intros Hp Bh Bl Bd Bs.
  unfold timing_value. rewrite !Z.shiftl_mul_pow2 by lia.
  rewrite (lor_aligned ((presc - 1) * 2 ^ 28) _ 28); try lia;
    [|apply Z_mod_mult].
  rewrite (lor_aligned _ (sdadel * 2 ^ 16) 20); try lia;
    [|replace ((presc - 1) * 2 ^ 28 + (scldel - 1) * 2 ^ 20)
        with (((presc - 1) * 2 ^ 8 + (scldel - 1)) * 2 ^ 20) by ring;
      apply Z_mod_mult].
  rewrite (lor_aligned _ ((sclh - 1) * 2 ^ 8) 16); try lia;
    [|replace ((presc - 1) * 2 ^ 28 + (scldel - 1) * 2 ^ 20 + sdadel * 2 ^ 16)
        with (((presc - 1) * 2 ^ 12 + (scldel - 1) * 2 ^ 4 + sdadel) * 2 ^ 16)
        by ring;
      apply Z_mod_mult].
  rewrite (lor_aligned _ (scll - 1) 8); try lia;
    [|replace ((presc - 1) * 2 ^ 28 + (scldel - 1) * 2 ^ 20 + sdadel * 2 ^ 16
               + (sclh - 1) * 2 ^ 8)
        with (((presc - 1) * 2 ^ 20 + (scldel - 1) * 2 ^ 12 + sdadel * 2 ^ 8
               + (sclh - 1)) * 2 ^ 8) by ring;
      apply Z_mod_mult].
  apply uint32_small. lia.
Qed.

(** C4: when some prescaler in 1..15 gives tick counts that all fit
    their fields (the high and low counts less one in 8 bits, the hold
    count and the setup count less one in 4 bits), the initializer stops
    at the smallest such prescaler [p] and returns 0; the timing register
    receives, once, the word made of [p - 1] and of the counts of [p].
    At 8 MHz and normal speed [p] is 1 and the word is 0x00941F24. *)
Theorem init_master_accepts_smallest dev speed times p s :
  uint32 dev < I2C_NUMOF ->
  speed_times speed = Some times ->
  1 <= p <= 15 ->
  spec_valid_prescaler (uint32 I2C_APBCLK) times p = true ->
  (forall q, 1 <= q < p -> spec_valid_prescaler (uint32 I2C_APBCLK) times q = false) ->
  exists s' timing sclh scll sdadel scldel,
    spec_tick_counts (uint32 I2C_APBCLK) p times = Some (sclh, scll, sdadel, scldel) /\
    (0 <= sclh - 1 <= 255 /\ 0 <= scll - 1 <= 255 /\
     0 <= sdadel <= 15 /\ 0 <= scldel - 1 <= 15) /\
    i2c_init_master dev speed s = Ret 0 s' /\
    presc_loop 16 (uint32 I2C_APBCLK) times 1 0 = (p, timing) /\
    writes_to dev TIMINGR (trace s') = writes_to dev TIMINGR (trace s) ++ [timing] /\
    timing = (p - 1) * 2 ^ 28 + (scldel - 1) * 2 ^ 20 + sdadel * 2 ^ 16
             + (sclh - 1) * 2 ^ 8 + (scll - 1) /\
    (uint32 I2C_APBCLK = 8000000 -> speed = I2C_SPEED_NORMAL ->
     p = 1 /\ timing = 0x00941F24).
Proof.
  intros Hdev Hsp Hp Hok Hmin.
  pose proof (uint32_range I2C_APBCLK) as [Hclk _].
  set (clk := uint32 I2C_APBCLK) in *.
  assert (Hok' : out_of_range (ticks clk p times) = false).
  { rewrite (out_of_range_spec speed) by (assumption || lia). rewrite Hok. reflexivity. }
  assert (Hmin' : forall q, 1 <= q < p -> out_of_range (ticks clk q times) = true).
  { intros q Hq. rewrite (out_of_range_spec speed) by (assumption || lia).
    rewrite Hmin by assumption. reflexivity. }
  assert (Hloop : presc_loop 16 clk times 1 0 = (p, timing_value p (ticks clk p times))).
  { apply presc_loop_accept; try assumption; lia. }
  unfold spec_valid_prescaler in Hok.
  destruct (spec_tick_counts clk p times) as [[[[sclh scll] sdadel] scldel]|] eqn:Et;
    [|discriminate].
  pose proof (spec_ticks_are_ticks _ _ _ _ Et) as Etk.
  pose proof (widths_bounds _ _ _ _ Hok) as (Bh & Bl & Bd & Bs).
  assert (W : wp (i2c_init_master dev speed)
                (fun r s' => r = 0 /\
                   writes_to dev TIMINGR (trace s')
                   = writes_to dev TIMINGR (trace s)
                       ++ [timing_value p (ticks clk p times)]) s).
  { unfold i2c_init_master.
    destruct (Z.leb_spec I2C_NUMOF (uint32 dev)); [lia|].
    apply wp_init_prologue; [assumption|]. intros a s1 F1.
    fold clk. rewrite Hsp, Hloop.
    destruct (Z.leb_spec 16 p); [lia|].
    apply wp_bind, wp_i2c_init. intros b c d e s2 F2. apply wp_ret.
    split; [reflexivity|].
    destruct (frame_trans _ _ _ _ _ F1 F2) as (T & _).
    rewrite T, writes_to_app. unfold init_trace. simpl.
    rewrite Z.eqb_refl. reflexivity. }
  apply wp_returns in W. destruct W as (r & s' & E & -> & W).
  pose proof (timing_value_sum p sclh scll sdadel scldel Hp Bh Bl Bd Bs) as V.
  exists s', (timing_value p (ticks clk p times)), sclh, scll, sdadel, scldel.
  rewrite Etk in *.
  split; [reflexivity|]. split; [tauto|].
  split; [exact E|]. split; [exact Hloop|]. split; [exact W|]. split; [exact V|].
  intros Hclk8 ->. injection Hsp as <-.
  assert (P1 : p = 1).
  { destruct (Z.eq_dec p 1) as [|Hne]; [assumption|].
    assert (B : spec_valid_prescaler clk (4000, 4700, 500, 1250) 1 = false)
      by (apply Hmin; lia).
    rewrite Hclk8 in B. vm_compute in B. discriminate B. }
  split; [exact P1|]. subst p. rewrite Hclk8 in Et.
  rewrite V. vm_compute in Et. injection Et as <- <- <- <-. reflexivity.
Qed.

(** C3: when every prescaler in 1..15 is rejected, the initializer
    returns 2 (a positive value) and the timing register is not written. *)
Theorem init_master_exhausted_returns_2 dev speed times s :
  uint32 dev < I2C_NUMOF ->
  speed_times speed = Some times ->
  (forall q, 1 <= q <= 15 -> out_of_range (ticks (uint32 I2C_APBCLK) q times) = true) ->
  exists s',
    i2c_init_master dev speed s = Ret 2 s' /\
    writes_to dev TIMINGR (trace s') = writes_to dev TIMINGR (trace s).
Proof.
  intros Hdev Hsp Hbad.
  assert (W : wp (i2c_init_master dev speed)
                (fun r s' => r = 2 /\
                   writes_to dev TIMINGR (trace s') = writes_to dev TIMINGR (trace s)) s).
  { unfold i2c_init_master.
    destruct (Z.leb_spec I2C_NUMOF (uint32 dev)); [lia|].
    apply wp_init_prologue; [assumption|]. intros a s1 F1.
    rewrite Hsp, presc_loop_reject by (auto; simpl; lia).
    simpl. apply wp_ret. split; [reflexivity|].
    destruct F1 as (T & _). rewrite T, writes_to_app. simpl.
    apply app_nil_r. }
  apply wp_returns in W. destruct W as (r & s' & E & -> & W).
  exists s'. auto.
Qed.

(** ** Bus reset *)

Lemma wp_i2c_reset i2c (Q : unit -> State -> Prop) s :
  (forall v a b c d e f s',
      0 <= v < 2 ^ 32 ->
      frame s s' (reset_trace i2c v a b c d e f) -> Q tt s') ->
  wp (_i2c_reset i2c) Q s.
Proof.
  intro H. unfold _i2c_reset.
  apply wp_bind, wp_lift.
  wp_step. wp_step. wp_step.
  apply wp_i2c_init. intros c d e f s5 F5.
  pose proof (emit_frame (EvReset i2c) s) as F0.
  frame_chain. eapply H; cycle 1.
  - unfold reset_trace. simpl in *. eassumption.
  - assumption.
Qed.

Lemma resets_reset_trace i2c v a b c d e f :
  resets (reset_trace i2c v a b c d e f) = 1%nat.
Proof. reflexivity. Qed.

Lemma late_polls_reset_trace t0 i2c v a b c d e f :
  late_polls t0 (reset_trace i2c v a b c d e f) = 0%nat.
Proof. reflexivity. Qed.

(** The reset programs the timing register with the low half of what
    [CCR] read, and never reads the timing register. *)
Lemma reset_writes_ccr i2c s :
  exists v tr s',
    _i2c_reset i2c s = Ret tt s' /\
    trace s' = trace s ++ tr /\
    reads_of i2c CCR tr = [v] /\
    writes_to i2c TIMINGR tr = [uint16 v] /\
    reads_of i2c TIMINGR tr = [] /\
    resets tr = 1%nat.
Proof.
  assert (W : wp (_i2c_reset i2c)
                (fun _ s' => exists v tr,
                     trace s' = trace s ++ tr /\
                     reads_of i2c CCR tr = [v] /\
                     writes_to i2c TIMINGR tr = [uint16 v] /\
                     reads_of i2c TIMINGR tr = [] /\
                     resets tr = 1%nat) s).
  { apply wp_i2c_reset. intros v a b c d e f s' _ (T & _).
    exists v, (reset_trace i2c v a b c d e f).
    split; [exact T|].
    unfold reset_trace, init_trace. simpl.
    rewrite Z.eqb_refl. simpl. auto. }
  apply wp_returns in W. destruct W as ([] & s' & E & v & tr & W).
  exists v, tr, s'. auto.
Qed.

(** ** Outcomes that may run out of fuel *)

Lemma wpr_bind {A B} (m : M A) (k : A -> M B) Q H s :
  wpr m (fun a s' => wpr (k a) Q H s') H s -> wpr (bind m k) Q H s.
Proof. unfold wpr, bind. destruct (m s); auto. Qed.

Lemma wp_wpr {A} (m : M A) Q H s : wp m Q s -> wpr m Q H s.
Proof. unfold wp, wpr. destruct (m s); tauto. Qed.

Lemma wpr_hangs {A} (m : M A) H s :
  wpr m (fun _ _ => False) H s -> exists s', m s = Hang s' /\ H s'.
Proof. unfold wpr. destruct (m s) as [a s'|s']; [tauto | eauto]. Qed.

(** The value a read returns is one the device produced. *)
Lemma wp_rd_hw i2c r (Q : Z -> State -> Prop) s :
  (forall v s', (exists h, v = uint32 (fst (hw_read i2c r h))) ->
                frame s s' [EvRead i2c r v] -> Q v s') ->
  wp (rd i2c r) Q s.
Proof.
  intro H. unfold wp. destruct (rd i2c r s) as [v s'|s'] eqn:E.
  - apply H.
    + unfold rd, raw_read in E.
      destruct (hw_read i2c r (st_hw (irq_point s))) as [v0 h0] eqn:E0.
      injection E as <- _. exists (st_hw (irq_point s)). rewrite E0. reflexivity.
    + pose proof (wp_rd i2c r (fun v s' => frame s s' [EvRead i2c r v]) s) as W.
      unfold wp in W. rewrite E in W. apply W. auto.
  - unfold rd in E. destruct (raw_read i2c r (irq_point s)). discriminate.
Qed.

(** ** Start condition on a bus that stays busy *)

Section StuckBus.

Variable i2c : i2c_t.
Hypothesis busy_forever :
  forall h, Z.land (uint32 (fst (hw_read i2c SR2 h))) I2C_SR2_BUSY <> 0.

Lemma wait_ready_stuck time_now fuel : forall s,
  wpr (wait_ready fuel i2c time_now) (fun _ _ => False)
      (fun s' => exists tr, trace s' = trace s ++ tr /\
                            resets tr = late_polls time_now tr) s.
Proof.
  induction fuel as [|f IH]; intro s.
  - simpl. exists []. rewrite app_nil_r. auto.
  - simpl. apply wpr_bind, wp_wpr, wp_rd_hw. intros v s1 (h & ->) F1.
    destruct (Z.eqb_spec (Z.land (uint32 (fst (hw_read i2c SR2 h))) I2C_SR2_BUSY) 0)
      as [E|_]; [elim (busy_forever h E)|].
    apply wpr_bind, wp_wpr, wp_now. intros t s2 Ht F2.
    apply wpr_bind.
    destruct (100000 <? uint32 (t - time_now)) eqn:Late.
    + apply wp_wpr, wp_i2c_reset. intros v0 a b c d e g s3 _ F3.
      specialize (IH s3). unfold wpr in *.
      destruct (wait_ready f i2c time_now s3) as [|s4]; [exact IH|].
      destruct IH as (tr & T & R).
      destruct F1 as (T1 & _), F2 as (T2 & _), F3 as (T3 & _).
      eexists. split.
      * rewrite T, T3, T2, T1. repeat rewrite <- app_assoc. reflexivity.
      * simpl app. unfold late_polls, resets in *. simpl. rewrite Late. simpl.
        rewrite R. reflexivity.
    + apply wp_wpr, wp_ret.
      specialize (IH s2). unfold wpr in *.
      destruct (wait_ready f i2c time_now s2) as [|s4]; [exact IH|].
      destruct IH as (tr & T & R).
      destruct F1 as (T1 & _), F2 as (T2 & _).
      eexists. split.
      * rewrite T, T2, T1. repeat rewrite <- app_assoc. reflexivity.
      * simpl app. unfold late_polls, resets in *. simpl. rewrite Late. exact R.
Qed.

Lemma start_send_stuck address rw_flag fuel s :
  exists s' t0 tr,
    start_send fuel i2c address rw_flag s = Hang s' /\
    trace s' = trace s ++ EvNow t0 :: tr /\
    resets tr = late_polls t0 tr.
Proof.
  assert (W : wpr (start_send fuel i2c address rw_flag) (fun _ _ => False)
                  (fun s' => exists t0 tr,
                       trace s' = trace s ++ EvNow t0 :: tr /\
                       resets tr = late_polls t0 tr) s).
  { unfold start_send. apply wpr_bind, wp_wpr, wp_now. intros t0 s1 _ (T1 & _).
    apply wpr_bind.
    pose proof (wait_ready_stuck t0 fuel s1) as W. unfold wpr in *.
    destruct (wait_ready fuel i2c t0 s1) as [|s2]; [elim W|].
    destruct W as (tr & T & R). exists t0, tr.
    rewrite T, T1, <- app_assoc. auto. }
  apply wpr_hangs in W. destruct W as (s' & E & t0 & tr & W).
  exists s', t0, tr. auto.
Qed.

(** C1 (as the code has it): while the bus-busy flag never clears,
    [_start] does not return to its caller, whatever the number of polls;
    the bus reset is invoked at each poll that finds more than 100 ms
    elapsed since the first timer reading [t0]. *)
Theorem start_busy_never_returns address rw_flag fuel s :
  exists s' t0 tr,
    _start fuel i2c address rw_flag s = Hang s' /\
    trace s' = trace s ++ EvNow t0 :: tr /\
    resets tr = late_polls t0 tr.
Proof.
  destruct (start_send_stuck address rw_flag fuel s) as (s' & t0 & tr & E & W).
  exists s', t0, tr. split; [|exact W].
  unfold _start, bind. rewrite E. reflexivity.
Qed.

End StuckBus.

(** ** Fuel *)

Lemma mono_const {A} (m : M A) : mono (fun _ => m).
Proof. intros n n' s a s' E _. exact E. Qed.

Lemma mono_bind {A B} (m : nat -> M A) (k : nat -> A -> M B) :
  mono m -> (forall a, mono (fun n => k n a)) ->
  mono (fun n => bind (m n) (k n)).
Proof.
  intros Hm Hk n n' s b s' E Hle. unfold bind in *.
  destruct (m n s) as [a s1|s1] eqn:E1; [|discriminate].
  rewrite (Hm n n' s a s1 E1 Hle). exact (Hk a n n' s1 b s' E Hle).
Qed.

Lemma mono_poll i2c r p : mono (fun n => poll n i2c r p).
Proof.
  intros n. induction n as [|n IH]; intros n' s a s' E Hle; [discriminate|].
  destruct n' as [|n']; [lia|]. simpl in *. unfold bind in *.
  destruct (rd i2c r s) as [v s1|s1]; [|discriminate].
  destruct (p v); [exact E|]. apply (IH n' s1 a s' E). lia.
Qed.

Lemma mono_wait_ready i2c t0 : mono (fun n => wait_ready n i2c t0).
Proof.
  intros n. induction n as [|n IH]; intros n' s a s' E Hle; [discriminate|].
  destruct n' as [|n']; [lia|]. simpl in *. unfold bind in *.
  destruct (rd i2c SR2 s) as [v s1|s1]; [|discriminate].
  destruct (Z.land v I2C_SR2_BUSY =? 0); [exact E|].
  destruct (xtimer_now_usec s1) as [t s2|s2]; [|discriminate].
  destruct ((if 100000 <? uint32 (t - t0) then _i2c_reset i2c else ret tt) s2)
    as [u s3|s3]; [|discriminate].
  apply (IH n' s3 a s' E). lia.
Qed.

Lemma mono_wait_addr i2c : mono (fun n => wait_addr n i2c).
Proof.
  intros n. induction n as [|n IH]; intros n' s a s' E Hle; [discriminate|].
  destruct n' as [|n']; [lia|]. simpl in *. unfold bind in *.
  destruct (rd i2c SR1 s) as [v s1|s1]; [|discriminate].
  destruct (Z.land v I2C_SR1_ADDR =? 0); [|exact E].
  destruct (get_bus_error s1) as [e s2|s2]; [|discriminate].
  destruct (e =? 0); [|exact E].
  apply (IH n' s2 a s' E). lia.
Qed.

Lemma mono_start i2c address rw_flag : mono (fun n => _start n i2c address rw_flag).
Proof.
  unfold _start, start_send.
  repeat first
    [ apply mono_wait_addr
    | apply mono_wait_ready
    | apply (mono_poll _ _ _)
    | refine (mono_bind (fun _ => _) (fun _ _ => _) _ _); [apply mono_const|intro]
    | refine (mono_bind _ (fun _ _ => _) _ _); [|intro]
    | apply mono_const ].
Qed.

Lemma converges_of_mono {A} (m : nat -> M A) n s a s' :
  mono m -> m n s = Ret a s' -> converges m s a s'.
Proof. intros Hm E. exists n. intros n' Hle. exact (Hm n n' s a s' E Hle). Qed.

Lemma cwp_const {A} (m : M A) Q s : wp m Q s -> cwp (fun _ => m) Q s.
Proof.
  intro W. apply wp_returns in W. destruct W as (a & s' & E & W).
  exists a, s'. split; [|exact W]. exists 0%nat. intros; exact E.
Qed.

Lemma cwp_bind {A B} (m : nat -> M A) (k : nat -> A -> M B) Q s :
  cwp m (fun a s' => cwp (fun n => k n a) Q s') s ->
  cwp (fun n => bind (m n) (k n)) Q s.
Proof.
  intros (a & s1 & (n1 & C1) & b & s2 & (n2 & C2) & W).
  exists b, s2. split; [|exact W].
  exists (Nat.max n1 n2). intros n Hle. unfold bind.
  rewrite C1 by lia. apply C2. lia.
Qed.

Lemma cwp_run {A} (m : nat -> M A) Q s :
  cwp m Q s -> exists fuel a s', m fuel s = Ret a s' /\ Q a s'.
Proof.
  intros (a & s' & (n & C) & W). exists n, a, s'. split; [apply C; lia | exact W].
Qed.

(** ** Polling *)

Lemma poll_frame i2c r p : forall n s s',
  poll n i2c r p s = Ret tt s' ->
  exists tr, poll_trace i2c r p tr /\ frame s s' tr.
Proof.
  induction n as [|n IH]; intros s s' E; [discriminate|].
  simpl in E.
  pose proof (wp_rd i2c r (fun v s1 => frame s s1 [EvRead i2c r v]) s
                (fun v s1 _ F => F)) as W.
  unfold bind in E. unfold wp in W.
  destruct (rd i2c r s) as [v s1|s1]; [|discriminate].
  destruct (p v) eqn:Pv.
  - injection E as <-. exists [EvRead i2c r v]. split; [|exact W].
    exists [], v. auto.
  - destruct (IH s1 s' E) as (tr & (pre & u & -> & Pu & Hpre) & F).
    exists (EvRead i2c r v :: pre ++ [EvRead i2c r u]). split.
    + exists (EvRead i2c r v :: pre), u. repeat split; auto.
      constructor; [eauto | exact Hpre].
    + exact (frame_trans _ _ _ _ _ W F).
Qed.

Lemma cwp_poll i2c r p (Q : unit -> State -> Prop) s :
  answers i2c r p ->
  (forall tr s', poll_trace i2c r p tr -> frame s s' tr -> Q tt s') ->
  cwp (fun n => poll n i2c r p) Q s.
Proof.
  intros Ha H. destruct (Ha s) as (n & s' & E).
  exists tt, s'. split.
  - exact (converges_of_mono _ n s tt s' (mono_poll i2c r p) E).
  - destruct (poll_frame i2c r p n s s' E) as (tr & P & F). exact (H tr s' P F).
Qed.

Lemma cwp_wait_set i2c r m (Q : unit -> State -> Prop) s :
  answers i2c r (is_set m) ->
  (forall tr s', poll_trace i2c r (is_set m) tr -> frame s s' tr -> Q tt s') ->
  cwp (fun n => wait_set n i2c r m) Q s.
Proof. apply cwp_poll. Qed.

Lemma cwp_wait_clear i2c r m (Q : unit -> State -> Prop) s :
  answers i2c r (is_clear m) ->
  (forall tr s', poll_trace i2c r (is_clear m) tr -> frame s s' tr -> Q tt s') ->
  cwp (fun n => wait_clear n i2c r m) Q s.
Proof. apply cwp_poll. Qed.

(** ** The error handler *)

Lemma on_flag_record status m c (body : State -> State) s :
  (forall x, fault_log (body x) = fault_log x ++ [c] /\ i2c_bus_error (body x) = c) ->
  fault_log (on_flag status m body s)
  = fault_log s ++ (if Z.land status m =? 0 then [] else [c]) /\
  i2c_bus_error (on_flag status m body s)
  = (if Z.land status m =? 0 then i2c_bus_error s else c).
Proof.
  intro Hb. unfold on_flag. destruct (Z.land status m =? 0).
  - rewrite app_nil_r. auto.
  - apply Hb.
Qed.

Lemma record_fault_log c x :
  fault_log (record_fault c x) = fault_log x ++ [c] /\
  i2c_bus_error (record_fault c x) = c.
Proof. split; reflexivity. Qed.

Lemma record_clear_log i2c m c x :
  fault_log (isr_clear i2c m (record_fault c x)) = fault_log x ++ [c] /\
  i2c_bus_error (isr_clear i2c m (record_fault c x)) = c.
Proof.
  unfold isr_clear, raw_read, raw_write.
  destruct (hw_read i2c ISR (st_hw (record_fault c x))). split; reflexivity.
Qed.

(** The handler assigns the code of every fault present, in program
    order; the last assignment is the value that remains. *)
Lemma irq_handler_log i2c s :
  fault_log (_i2c_irq i2c s)
  = fault_log s ++ map fault_code (faults_in (fst (raw_read i2c ISR s))) /\
  i2c_bus_error (_i2c_irq i2c s)
  = last (map fault_code (faults_in (fst (raw_read i2c ISR s)))) (i2c_bus_error s).
Proof.
  unfold _i2c_irq.
  assert (L0 : fault_log (snd (raw_read i2c ISR s)) = fault_log s /\
               i2c_bus_error (snd (raw_read i2c ISR s)) = i2c_bus_error s).
  { unfold raw_read. destruct (hw_read i2c ISR (st_hw s)). split; reflexivity. }
  destruct (raw_read i2c ISR s) as [status s1]. simpl fst. simpl snd in L0.
  destruct L0 as [L0 E0]. cbv zeta.
  repeat match goal with
         | |- context [on_flag status ?m (record_fault ?c) ?x] =>
             destruct (on_flag_record status m c (record_fault c) x
                         (record_fault_log c)) as [-> ->]
         | |- context [on_flag status ?m
                               (fun s => isr_clear ?i ?n (record_fault ?c s)) ?x] =>
             destruct (on_flag_record status m c
                         (fun s => isr_clear i n (record_fault c s)) x
                         (record_clear_log i n c)) as [-> ->]
         end.
  rewrite L0, E0. unfold faults_in, fault_bit. simpl filter.
  destruct (Z.land status I2C_ISR_OVR =? 0);
  destruct (Z.land status I2C_ISR_NACKF =? 0);
  destruct (Z.land status I2C_ISR_ARLO =? 0);
  destruct (Z.land status I2C_ISR_BERR =? 0);
  destruct (Z.land status I2C_ISR_PECERR =? 0);
  destruct (Z.land status I2C_ISR_TIMEOUT =? 0);
  destruct (Z.land status I2C_ISR_ALERT =? 0);
  simpl; repeat rewrite <- app_assoc; simpl; rewrite ?app_nil_r; split; reflexivity.
Qed.

Lemma faults_in_present status k :
  Z.land status (fault_bit k) <> 0 -> In k (faults_in status).
Proof.
  intro H. unfold faults_in. apply filter_In. split.
  - destruct k; simpl; tauto.
  - destruct (Z.eqb_spec (Z.land status (fault_bit k)) 0); [contradiction | reflexivity].
Qed.

Lemma fault_code_range k : -7 <= fault_code k <= -1.
Proof. destruct k; simpl; lia. Qed.

Lemma last_codes_range l d : l <> [] -> -7 <= last (map fault_code l) d <= -1.
Proof.
  induction l as [|k l IH]; intro H; [congruence|].
  destruct l as [|k' l]; [apply fault_code_range|].
  change (last (map fault_code (k :: k' :: l)) d)
    with (last (map fault_code (k' :: l)) d).
  apply IH. discriminate.
Qed.

Lemma faults_in_last status k d :
  Z.land status (fault_bit k) <> 0 ->
  (forall j, In j (later_faults k) -> Z.land status (fault_bit j) = 0) ->
  last (map fault_code (faults_in status)) d = fault_code k.
Proof.
  intros Hk Hlater. unfold faults_in. cbn [filter].
  assert (T : forall j, In j (later_faults k) ->
                        negb (Z.land status (fault_bit j) =? 0) = false).
  { intros j Hj. rewrite (Hlater j Hj). reflexivity. }
  assert (K : negb (Z.land status (fault_bit k) =? 0) = true).
  { destruct (Z.eqb_spec (Z.land status (fault_bit k)) 0); [contradiction|reflexivity]. }
  destruct k; simpl in T;
    rewrite ?K, ?(T OVR), ?(T NACKF), ?(T ARLO), ?(T BERR), ?(T PECERR),
            ?(T TIMEOUT), ?(T ALERT) by tauto;
    repeat match goal with
           | |- context [negb (Z.land status (fault_bit ?j) =? 0)] =>
               destruct (negb (Z.land status (fault_bit j) =? 0))
           end; reflexivity.
Qed.

(** ** The start phase, whether or not it returns *)

Lemma wpr_any {A} (m : M A) (Q : A -> State -> Prop) (H : State -> Prop) s :
  (forall a s', Q a s') -> (forall s', H s') -> wpr m Q H s.
Proof. intros HQ HH. unfold wpr. destruct (m s); auto. Qed.

Lemma frame_err_range s s' tr :
  frame s s' tr -> -7 <= i2c_bus_error s <= 0 -> -7 <= i2c_bus_error s' <= 0.
Proof. intros (_ & _ & [E|E]) H; lia. Qed.

Lemma frame_err_neg s s' tr :
  frame s s' tr -> -7 <= i2c_bus_error s <= -1 -> -7 <= i2c_bus_error s' <= -1.
Proof. intros (_ & _ & [E|E]) H; lia. Qed.

Definition start_post (r : Z) (s' : State) : Prop :=
  r = 0 \/ (r = -1 /\ -7 <= i2c_bus_error s' <= -1).

Lemma wait_addr_partial i2c fuel : forall s,
  -7 <= i2c_bus_error s <= 0 ->
  wpr (wait_addr fuel i2c) start_post (fun _ => True) s.
Proof.
  induction fuel as [|f IH]; intros s Hs; [exact I|].
  simpl. apply wpr_bind, wp_wpr, wp_rd. intros v s1 _ F1.
  pose proof (frame_err_range _ _ _ F1 Hs) as H1.
  destruct (Z.land v I2C_SR1_ADDR =? 0).
  - apply wpr_bind, wp_wpr, wp_get_bus_error. intros s2 F2.
    pose proof (frame_err_range _ _ _ F2 H1) as H2.
    destruct (Z.eqb_spec (i2c_bus_error s2) 0) as [E|E].
    + apply IH. exact H2.
    + apply wpr_bind, wp_wpr, wp_i2c_reset. intros ? ? ? ? ? ? ? s3 _ F3.
      apply wp_wpr, wp_ret. right. split; [reflexivity|].
      apply (frame_err_neg _ _ _ F3). lia.
  - apply wp_wpr, wp_ret. left. reflexivity.
Qed.

Lemma start_partial i2c address rw_flag fuel s :
  wpr (_start fuel i2c address rw_flag) start_post (fun _ => True) s.
Proof.
  unfold _start, start_send.
  apply wpr_bind, wpr_bind, wp_wpr, wp_now. intros t0 s1 _ _.
  apply wpr_bind, wpr_any; [|auto]. intros _ s2.
  apply wpr_bind, wp_wpr, wp_set_bits. intros a s3 _ _.
  apply wpr_bind, wpr_any; [|auto]. intros _ s4.
  apply wpr_bind, wp_wpr, wp_set_bus_error. intros s5 _ _ E5.
  apply wp_wpr, wp_wr. intros s6 F6.
  apply wait_addr_partial. apply (frame_err_range _ _ _ F6). lia.
Qed.

Lemma start_returns i2c address rw_flag fuel s r s1 :
  _start fuel i2c address rw_flag s = Ret r s1 ->
  r = 0 \/ (r = -1 /\ -7 <= i2c_bus_error s1 <= -1).
Proof.
  intro E. pose proof (start_partial i2c address rw_flag fuel s) as W.
  unfold wpr in W. rewrite E in W. exact W.
Qed.

Lemma read_bytes_start_fail dev address length fuel s r s1 :
  uint32 dev < I2C_NUMOF ->
  _start fuel dev address I2C_FLAG_READ s = Ret r s1 -> r < 0 ->
  i2c_read_bytes fuel dev address length s = Ret r (with_bus_result r s1).
Proof.
  intros Hdev E Hr. unfold i2c_read_bytes.
  destruct (Z.leb_spec I2C_NUMOF (uint32 dev)); [lia|].
  destruct (length =? 1); [|destruct (length =? 2)];
    unfold bind; rewrite E; simpl;
    (destruct (Z.ltb_spec r 0); [reflexivity | lia]).
Qed.

Lemma write_bytes_start_fail dev address data length fuel s r s1 :
  uint32 dev < I2C_NUMOF ->
  _start fuel dev address I2C_FLAG_WRITE s = Ret r s1 -> r < 0 ->
  i2c_write_bytes fuel dev address data length s = Ret r (with_bus_result r s1).
Proof.
  intros Hdev E Hr. unfold i2c_write_bytes.
  destruct (Z.leb_spec I2C_NUMOF (uint32 dev)); [lia|].
  unfold bind; rewrite E; simpl.
  destruct (Z.ltb_spec r 0); [reflexivity | lia].
Qed.

(** C10: when the start phase of a read or of a write reports a fault,
    the operation returns exactly -1; the code the handler recorded, one
    of -7..-1, stays in the fault variable. *)
Theorem start_fault_returns_minus_one dev address rw_flag fuel s r s1 :
  uint32 dev < I2C_NUMOF ->
  _start fuel dev address rw_flag s = Ret r s1 ->
  r < 0 ->
  (rw_flag = I2C_FLAG_READ ->
   forall length,
     i2c_read_bytes fuel dev address length s = Ret (-1) (with_bus_result (-1) s1)) /\
  (rw_flag = I2C_FLAG_WRITE ->
   forall data length,
     i2c_write_bytes fuel dev address data length s
     = Ret (-1) (with_bus_result (-1) s1)) /\
  -7 <= i2c_bus_error (with_bus_result (-1) s1) <= -1.
Proof.
  intros Hdev E Hr.
  destruct (start_returns _ _ _ _ _ _ _ E) as [->|(-> & Herr)]; [lia|].
  repeat split; try (simpl; lia).
  - intros -> length. apply read_bytes_start_fail; assumption.
  - intros -> data length. apply write_bytes_start_fail; assumption.
Qed.

(** ** A fault raised during the address wait *)

Lemma last_default {A} (l : list A) d d' : l <> [] -> last l d = last l d'.
Proof.
  induction l as [|a l IH]; intro H; [congruence|].
  destruct l as [|b l]; [reflexivity|]. apply IH. discriminate.
Qed.

(** The address wait, one turn at a time. *)
Lemma wait_addr_unfold i2c f s :
  wait_addr (S f) i2c s
  = bind (rd i2c SR1)
         (fun sr1 => if Z.land sr1 I2C_SR1_ADDR =? 0
                     then bind get_bus_error
                            (fun e => if e =? 0 then wait_addr f i2c
                                      else bind (_i2c_reset i2c) (fun _ => ret (-1)))
                     else ret 0) s.
Proof. reflexivity. Qed.

(** Turns that see nothing leave the wait where it was, with less fuel. *)
Lemma wait_addr_idle_turns i2c n : forall j sa x,
  idle_turns j i2c sa = Some x ->
  wait_addr (j + n) i2c sa = wait_addr n i2c x.
Proof.
  induction j as [|j IH]; intros sa x H.
  - injection H as ->. reflexivity.
  - simpl in H. destruct (idle_turn i2c sa) as [s2|] eqn:E; [|discriminate].
    rewrite <- (IH _ _ H). change (S j + n)%nat with (S (j + n)).
    rewrite wait_addr_unfold. unfold idle_turn in E. unfold bind at 1.
    destruct (rd i2c SR1 sa) as [sr1 s1|]; [|discriminate].
    destruct (Z.land sr1 I2C_SR1_ADDR =? 0); [|discriminate].
    unfold bind at 1. destruct (get_bus_error s1) as [e s2'|]; [|discriminate].
    destruct (e =? 0); [|discriminate]. injection E as ->. reflexivity.
Qed.

(** The test of the fault variable when a fault is on record: the bus is
    reset and the wait gives up. *)
Lemma addr_check_fault i2c f x :
  -7 <= i2c_bus_error (irq_point x) <= -1 ->
  exists s' v a b c d e g,
    bind get_bus_error
         (fun e0 => if e0 =? 0 then wait_addr f i2c
                    else bind (_i2c_reset i2c) (fun _ => ret (-1))) x = Ret (-1) s' /\
    trace s' = trace x ++ reset_trace i2c v a b c d e g /\
    -7 <= i2c_bus_error s' <= -1.
Proof.
  intro Hx. unfold bind at 1, get_bus_error.
  destruct (Z.eqb_spec (i2c_bus_error (irq_point x)) 0); [lia|].
  assert (W : wp (bind (_i2c_reset i2c) (fun _ => ret (-1)))
                 (fun r s' => r = -1 /\ exists v a b c d e g,
                      trace s' = trace x ++ reset_trace i2c v a b c d e g /\
                      -7 <= i2c_bus_error s' <= -1) (irq_point x)).
  { apply wp_bind, wp_i2c_reset. intros v a b c d e g s3 _ F3. apply wp_ret.
    split; [reflexivity|]. exists v, a, b, c, d, e, g. split.
    - destruct F3 as (T3 & _). destruct (irq_point_frame x) as (T0 & _).
      rewrite T3, T0, app_nil_r. reflexivity.
    - apply (frame_err_neg _ _ _ F3 Hx). }
  apply wp_returns in W.
  destruct W as (r & s' & E & -> & v & a & b & c & d & e & g & T & R).
  exists s', v, a, b, c, d, e, g. auto.
Qed.

(** A turn that begins with a fault on record and finds the address flag
    clear. *)
Lemma addr_turn_fault i2c f x :
  -7 <= i2c_bus_error (irq_point x) <= -1 ->
  Z.land (fst (raw_read i2c SR1 (irq_point x))) I2C_SR1_ADDR = 0 ->
  exists s' v a b c d e g,
    wait_addr (S f) i2c x = Ret (-1) s' /\
    trace s' = trace x ++ EvRead i2c SR1 (fst (raw_read i2c SR1 (irq_point x)))
                       :: reset_trace i2c v a b c d e g /\
    -7 <= i2c_bus_error s' <= -1.
Proof.
  intros Hx Hno. rewrite wait_addr_unfold. unfold bind at 1, rd.
  pose proof (raw_read_frame i2c SR1 (irq_point x)) as [F1 _].
  destruct (raw_read i2c SR1 (irq_point x)) as [sr1 s1]. simpl in Hno, F1 |- *.
  rewrite Hno. simpl.
  pose proof (emit_frame (EvRead i2c SR1 sr1) s1) as Fe.
  pose proof (frame_trans _ _ _ _ _ (irq_point_frame x) (frame_trans _ _ _ _ _ F1 Fe)) as F.
  simpl in F.
  assert (Hy : -7 <= i2c_bus_error (irq_point (emit (EvRead i2c SR1 sr1) s1)) <= -1).
  { apply (frame_err_neg _ _ _ (irq_point_frame _)).
    apply (frame_err_neg _ _ _ (frame_trans _ _ _ _ _ F1 Fe) Hx). }
  destruct (addr_check_fault i2c f _ Hy) as (s' & v & a & b & c & d & e & g & E & T & R).
  exists s', v, a, b, c, d, e, g. split; [exact E|]. split; [|exact R].
  rewrite T. destruct F as (T' & _). rewrite T', <- app_assoc. reflexivity.
Qed.

(** A turn that finds the address flag set: the fault variable is not
    looked at. *)
Lemma addr_turn_acked i2c f x :
  Z.land (fst (raw_read i2c SR1 (irq_point x))) I2C_SR1_ADDR <> 0 ->
  exists s',
    wait_addr (S f) i2c x = Ret 0 s' /\
    trace s' = trace x ++ [EvRead i2c SR1 (fst (raw_read i2c SR1 (irq_point x)))] /\
    i2c_bus_error s' = i2c_bus_error (irq_point x).
Proof.
  intro Hack. rewrite wait_addr_unfold. unfold bind at 1, rd.
  assert (K : i2c_bus_error (snd (raw_read i2c SR1 (irq_point x)))
              = i2c_bus_error (irq_point x) /\
              trace (snd (raw_read i2c SR1 (irq_point x))) = trace (irq_point x)).
  { unfold raw_read. destruct (hw_read i2c SR1 (st_hw (irq_point x))). split; reflexivity. }
  destruct (raw_read i2c SR1 (irq_point x)) as [sr1 s1]. simpl in Hack, K |- *.
  destruct (Z.eqb_spec (Z.land sr1 I2C_SR1_ADDR) 0); [contradiction|].
  eexists. split; [reflexivity|]. simpl. destruct K as [K1 K2].
  destruct (irq_point_frame x) as (T0 & _). rewrite app_nil_r in T0.
  rewrite K2, T0. auto.
Qed.

(** C8 (amended): the error handler runs at an access of the address
    wait, at any turn of it, with the status bit of fault [k] set.  The
    handler assigns the code of every fault present, that of [k] among
    them, and the last assignment remains (it is the code of [k] when no
    fault tested after [k] is present).  What [_start] then does depends
    on the address flag.  When the handler ran before the status read of
    a turn and that read shows the flag clear, or when it ran between a
    status read that showed the flag clear and the test of the fault
    variable, the bus is reset once, as the last thing done, and [_start]
    returns -1.  When the handler ran before a status read that shows the
    flag set, [_start] returns 0 without a reset, and the code stays in
    the fault variable. *)
Theorem fault_during_address_wait (k : fault) i2c bus h1 x :
  irq_enabled x = true ->
  hw_irq (st_hw x) = Some (bus, h1) ->
  bus = 0 \/ bus = 1 ->
  Z.land (fst (raw_read bus ISR (with_hw h1 x))) (fault_bit k) <> 0 ->
  let status := fst (raw_read bus ISR (with_hw h1 x)) in
  let code := last (map fault_code (faults_in status)) 0 in
  (fault_log (irq_point x) = fault_log x ++ map fault_code (faults_in status) /\
   In (fault_code k) (map fault_code (faults_in status)) /\
   i2c_bus_error (irq_point x) = code /\
   -7 <= code <= -1 /\
   ((forall j, In j (later_faults k) -> Z.land status (fault_bit j) = 0) ->
    code = fault_code k)) /\
  forall fuel address rw_flag s0 sa j,
    start_send fuel i2c address rw_flag s0 = Ret tt sa ->
    (j < fuel)%nat ->
    (idle_turns j i2c sa = Some x ->
     let sr1 := fst (raw_read i2c SR1 (irq_point x)) in
     (Z.land sr1 I2C_SR1_ADDR = 0 ->
      exists s' v a b c d e f,
        _start fuel i2c address rw_flag s0 = Ret (-1) s' /\
        trace s' = trace x ++ EvRead i2c SR1 sr1 :: reset_trace i2c v a b c d e f /\
        -7 <= i2c_bus_error s' <= -1) /\
     (Z.land sr1 I2C_SR1_ADDR <> 0 ->
      exists s',
        _start fuel i2c address rw_flag s0 = Ret 0 s' /\
        trace s' = trace x ++ [EvRead i2c SR1 sr1] /\
        i2c_bus_error s' = code)) /\
    (forall st sr1,
        idle_turns j i2c sa = Some st ->
        rd i2c SR1 st = Ret sr1 x ->
        Z.land sr1 I2C_SR1_ADDR = 0 ->
        exists s' v a b c d e f,
          _start fuel i2c address rw_flag s0 = Ret (-1) s' /\
          trace s' = trace x ++ reset_trace i2c v a b c d e f /\
          -7 <= i2c_bus_error s' <= -1).
Proof.
  intros Hen Hirq Hbus Hbit status code.
  assert (Hpt : irq_point x = _i2c_irq bus (with_hw h1 x)).
  { unfold irq_point. rewrite Hen, Hirq.
    unfold err_isr, I2C_0_ERR_ISR, I2C_1_ERR_ISR.
    destruct Hbus as [-> | ->]; reflexivity. }
  destruct (irq_handler_log bus (with_hw h1 x)) as [L E].
  fold status in L, E. simpl in L, E.
  pose proof (faults_in_present status k Hbit) as Hin.
  assert (Hne : map fault_code (faults_in status) <> []).
  { destruct (faults_in status); [contradiction | discriminate]. }
  assert (Hcode : i2c_bus_error (irq_point x) = code).
  { rewrite Hpt, E. apply last_default. exact Hne. }
  assert (Hrange : -7 <= code <= -1).
  { unfold code. destruct (faults_in status) eqn:Ef; [contradiction|].
    apply last_codes_range. discriminate. }
  split.
  { split; [rewrite Hpt; exact L|].
    split; [apply in_map; exact Hin|].
    split; [exact Hcode|]. split; [exact Hrange|].
    intro Hlater. apply faults_in_last; assumption. }
  intros fuel address rw_flag s0 sa j Hsend Hj.
  assert (Hrun : forall st n, idle_turns j i2c sa = Some st ->
                   fuel = (j + n)%nat ->
                   _start fuel i2c address rw_flag s0 = wait_addr n i2c st).
  { intros st n Hst ->. unfold _start, bind. rewrite Hsend.
    apply wait_addr_idle_turns. exact Hst. }
  destruct (Nat.lt_exists_pred j fuel Hj) as (m & Hm & _).
  assert (Hf : fuel = (j + S (m - j))%nat) by lia.
  split.
  - intros Hx sr1. rewrite (Hrun x _ Hx Hf). split.
    + intro Hno. apply addr_turn_fault; [rewrite Hcode; exact Hrange | exact Hno].
    + intro Hack. destruct (addr_turn_acked i2c (m - j) x Hack) as (s' & E1 & T & B).
      exists s'. rewrite <- Hcode. auto.
  - intros st sr1 Hst Hrd Hno. rewrite (Hrun st _ Hst Hf).
    rewrite wait_addr_unfold. unfold bind at 1. rewrite Hrd.
    destruct (Z.eqb_spec (Z.land sr1 I2C_SR1_ADDR) 0); [|contradiction].
    apply addr_check_fault. rewrite Hcode. exact Hrange.
Qed.

(** ** Reads *)

Lemma cwp_start i2c address rw_flag n0 s r s1 (Q : Z -> State -> Prop) :
  _start n0 i2c address rw_flag s = Ret r s1 ->
  Q r s1 ->
  cwp (fun n => _start n i2c address rw_flag) Q s.
Proof.
  intros E H. exists r, s1. split; [|exact H].
  exact (converges_of_mono _ n0 s r s1 (mono_start i2c address rw_flag) E).
Qed.

Ltac cwp_split :=
  match goal with
  | |- cwp (fun n => bind (@?m n) (@?k n)) ?Q ?s =>
      apply (cwp_bind m k Q s); cbv beta
  end.

(** One statement that does not depend on the fuel. *)
Ltac cwp_step := cwp_split; apply cwp_const; wp_prim; cbv beta.

Ltac cwp_store :=
  cwp_split; apply cwp_const; apply wp_store; intros ? ? ? ?; cbv beta.

Ltac cwp_wait H :=
  cwp_split;
  first [ apply cwp_wait_set; [exact H|] | apply cwp_wait_clear; [exact H|] ];
  intros ? ? ? ?; cbv beta.

(** Rewrite the final trace back to the one of the initial state. *)
Ltac unwind_trace :=
  repeat match goal with
         | F : frame _ _ _ |- _ => destruct F as (? & _ & _)
         end;
  repeat match goal with
         | T : trace ?x = _ |- context [trace ?x] => rewrite T; clear T
         end;
  repeat rewrite <- app_assoc; simpl.

Lemma land_not32_same a m : Z.land (Z.land a (not32 m)) m = 0.
Proof.
  unfold not32, uint32. change (2 ^ 32) with (2 ^ 32).
  apply Z.bits_inj'. intros n Hn.
  rewrite !Z.land_spec, Z.bits_0.
  destruct (Z.ltb_spec n 32).
  - rewrite Z.mod_pow2_bits_low by lia. rewrite Z.lnot_spec by lia.
    destruct (Z.testbit a n), (Z.testbit m n); reflexivity.
  - rewrite Z.mod_pow2_bits_high by lia.
    rewrite andb_false_r. reflexivity.
Qed.

(** C7: in a successful 1-byte read the first thing done after the start
    phase is to clear ACK in the control register; only then is the
    address flag cleared (status registers 1 and 2 read) and STOP set. *)
Theorem read_one_byte_nack_before_stop dev address n0 s r s1 :
  uint32 dev < I2C_NUMOF ->
  _start n0 dev address I2C_FLAG_READ s = Ret r s1 ->
  0 <= r ->
  answers dev SR1 (is_set I2C_SR1_RXNE) ->
  answers dev CR1 (is_clear I2C_CR1_STOP) ->
  exists fuel s' a x y b rest,
    i2c_read_bytes fuel dev address 1 s = Ret 1 s' /\
    trace s' = trace s1
                 ++ EvUpdate dev CR1 a (Z.land a (not32 I2C_CR1_ACK))
                 :: EvRead dev SR1 x
                 :: EvRead dev SR2 y
                 :: EvUpdate dev CR1 b (Z.lor b I2C_CR1_STOP)
                 :: rest /\
    Z.land (Z.land a (not32 I2C_CR1_ACK)) I2C_CR1_ACK = 0.
Proof.
  intros Hdev Hstart Hr Hrxne Hstop.
  assert (W : cwp (fun fuel => i2c_read_bytes fuel dev address 1)
                  (fun res s' => res = 1 /\
                     exists a x y b rest,
                       trace s' = trace s1
                                    ++ EvUpdate dev CR1 a (Z.land a (not32 I2C_CR1_ACK))
                                    :: EvRead dev SR1 x
                                    :: EvRead dev SR2 y
                                    :: EvUpdate dev CR1 b (Z.lor b I2C_CR1_STOP)
                                    :: rest) s).
  { unfold i2c_read_bytes.
    destruct (Z.leb_spec I2C_NUMOF (uint32 dev)); [lia|].
    change (1 =? 1) with true. cbv iota.
    cwp_split. apply (cwp_start _ _ _ _ _ _ _ _ Hstart).
    cwp_step.
    destruct (Z.ltb_spec r 0); [lia|].
    cwp_step. cwp_step.
    unfold _clear_addr.
    cwp_split. apply cwp_const. wp_step. wp_step. wp_prim.
    cwp_step. cwp_step.
    cwp_wait Hrxne.
    cwp_step. cwp_store.
    cwp_wait Hstop.
    cwp_step.
    apply cwp_const, wp_ret. split; [reflexivity|].
    unwind_trace. do 5 eexists. reflexivity. }
  apply cwp_run in W. destruct W as (fuel & res & s' & E & -> & a & x & y & b & rest & T).
  exists fuel, s', a, x, y, b, rest. split; [exact E|]. split; [exact T|].
  apply land_not32_same.
Qed.

Lemma clear_never_asserts i2c r m old x :
  asserts i2c r m (EvUpdate i2c r old (Z.land old x)) = false.
Proof.
  unfold asserts.
  replace (Z.land (Z.land (Z.land old x) (Z.lnot old)) m) with 0.
  - rewrite andb_false_r. reflexivity.
  - symmetry. apply Z.bits_inj'. intros n Hn.
    rewrite !Z.land_spec, Z.lnot_spec, Z.bits_0 by lia.
    destruct (Z.testbit old n); simpl;
      rewrite ?andb_false_r, ?andb_false_l; reflexivity.
Qed.

Lemma set_other_never_asserts i2c r m old k :
  Z.land k m = 0 ->
  asserts i2c r m (EvUpdate i2c r old (Z.lor old k)) = false.
Proof.
  intro H. unfold asserts.
  replace (Z.land (Z.land (Z.lor old k) (Z.lnot old)) m) with 0.
  - rewrite andb_false_r. reflexivity.
  - symmetry. apply Z.bits_inj'. intros n Hn.
    assert (Hb : Z.testbit (Z.land k m) n = false) by (rewrite H; apply Z.bits_0).
    rewrite Z.land_spec in Hb.
    rewrite !Z.land_spec, Z.lor_spec, Z.lnot_spec, Z.bits_0 by lia.
    destruct (Z.testbit old n), (Z.testbit k n), (Z.testbit m n);
      simpl in *; congruence.
Qed.

Lemma poll_never_asserts i2c r p j q m tr :
  poll_trace i2c r p tr -> Forall (fun e => asserts j q m e = false) tr.
Proof.
  intros (pre & v & -> & _ & Hpre). apply Forall_app. split.
  - eapply Forall_impl; [|exact Hpre]. intros e (u & -> & _). reflexivity.
  - constructor; [reflexivity | constructor].
Qed.

Lemma lor_land_same e m : Z.land (Z.lor e m) m = m.
Proof.
  apply Z.bits_inj'. intros n Hn. rewrite Z.land_spec, Z.lor_spec.
  destruct (Z.testbit e n), (Z.testbit m n); reflexivity.
Qed.

(** ** Filling the buffer *)

Lemma stores_app t1 t2 : stores (t1 ++ t2) = stores t1 ++ stores t2.
Proof. unfold stores. apply flat_map_app. Qed.

Lemma apply_stores_app l1 l2 m :
  apply_stores (l1 ++ l2) m = apply_stores l2 (apply_stores l1 m).
Proof. unfold apply_stores. apply fold_left_app. Qed.

Lemma dframe_refl s : dframe s s [].
Proof. unfold dframe. rewrite app_nil_r. auto. Qed.

Lemma dframe_trans s1 s2 s3 t1 t2 :
  dframe s1 s2 t1 -> dframe s2 s3 t2 -> dframe s1 s3 (t1 ++ t2).
Proof.
  unfold dframe. intros (T1 & D1) (T2 & D2).
  rewrite T2, T1, D2, D1, app_assoc, stores_app, apply_stores_app. auto.
Qed.

Lemma frame_dframe s s' tr : stores tr = [] -> frame s s' tr -> dframe s s' tr.
Proof. intros E (T & D & _). unfold dframe. rewrite E. auto. Qed.

Lemma poll_stores i2c r p tr : poll_trace i2c r p tr -> stores tr = [].
Proof.
  intros (pre & v & -> & _ & Hpre). rewrite stores_app. simpl. rewrite app_nil_r.
  induction Hpre as [|e l (u & -> & _) _ IH]; [reflexivity | exact IH].
Qed.

Lemma poll_reads_other i2c r q p tr :
  poll_trace i2c r p tr -> reg_eqb r q = false -> reads_of i2c q tr = [].
Proof.
  intros (pre & v & -> & _ & Hpre) Hq. rewrite reads_of_app. simpl.
  rewrite Hq, andb_false_r. simpl. rewrite app_nil_r.
  induction Hpre as [|e l (u & -> & _) _ IH]; [reflexivity|].
  simpl. rewrite Hq, andb_false_r. exact IH.
Qed.

Lemma poll_dframe i2c r p s s' tr :
  poll_trace i2c r p tr -> frame s s' tr -> dframe s s' tr.
Proof. intros P F. apply frame_dframe; [exact (poll_stores _ _ _ _ P) | exact F]. Qed.

Lemma wp_store_d i v (Q : unit -> State -> Prop) s :
  (forall s', dframe s s' [EvStore i (uint8 v)] -> Q tt s') ->
  wp (store i v) Q s.
Proof. intro H. unfold wp, store. apply H. split; reflexivity. Qed.

Lemma rd_returns i2c r s :
  exists v s', rd i2c r s = Ret v s' /\ frame s s' [EvRead i2c r v].
Proof.
  pose proof (wp_rd i2c r (fun v s' => frame s s' [EvRead i2c r v]) s
                (fun v s' _ F => F)) as W.
  apply wp_returns in W. exact W.
Qed.

Lemma zseq_S i k : zseq i (S k) = zseq i k ++ [i + Z.of_nat k].
Proof. unfold zseq. rewrite seq_S, map_app. reflexivity. Qed.

Lemma zseq_cons i k : zseq i (S k) = i :: zseq (i + 1) k.
Proof.
  unfold zseq. simpl. rewrite Z.add_0_r. f_equal.
  rewrite <- seq_shift, map_map. apply map_ext. intro j. lia.
Qed.

Lemma zseq_length i k : List.length (zseq i k) = k.
Proof. unfold zseq. rewrite length_map, length_seq. reflexivity. Qed.

Lemma combine_snoc {A B} (l : list A) (l' : list B) a b :
  List.length l = List.length l' ->
  combine (l ++ [a]) (l' ++ [b]) = combine l l' ++ [(a, b)].
Proof.
  revert l'. induction l as [|x l IH]; intros [|y l'] H; simpl in *;
    try discriminate; [reflexivity|].
  f_equal. apply IH. lia.
Qed.

Lemma read_stream_unfold fuel n i2c length i :
  read_stream fuel n i2c length i
  = if i <? int32 (length - 3) then
      match n with
      | O => hang
      | S n' =>
          wait_set fuel i2c SR1 I2C_SR1_RXNE ;;
          v <- rd i2c DR ;;
          store i v ;;
          read_stream fuel n' i2c length (i + 1)
      end
    else ret i.
Proof. destruct n; reflexivity. Qed.

(** The streaming loop of the N-byte read delivers one byte per round,
    at consecutive positions. *)
Lemma read_stream_spec dev length :
  answers dev SR1 (is_set I2C_SR1_RXNE) ->
  forall (k : nat) i s,
    Z.to_nat (int32 (length - 3) - i) = k ->
    exists (n0 : nat) s' tr,
      (forall fuel n, (n0 <= fuel)%nat -> (n0 <= n)%nat ->
                      read_stream fuel n dev length i s = Ret (i + Z.of_nat k) s') /\
      dframe s s' tr /\
      List.length (reads_of dev DR tr) = k /\
      stores tr = combine (zseq i k) (map uint8 (reads_of dev DR tr)).
Proof.
  intro Hrxne. induction k as [|k IH]; intros i s Hk.
  - exists 0%nat, s, []. split; [|split; [apply dframe_refl | split; reflexivity]].
    intros fuel n _ _. rewrite read_stream_unfold.
    destruct (Z.ltb_spec i (int32 (length - 3))); [lia|].
    rewrite Z.add_0_r. reflexivity.
  - destruct (Hrxne s) as (n1 & s1 & E1).
    destruct (poll_frame _ _ _ _ _ _ E1) as (tr1 & P1 & F1).
    destruct (rd_returns dev DR s1) as (v & s2 & E2 & F2).
    pose (s3 := emit (EvStore i (uint8 v))
                     (with_data (fun j => if j =? i then uint8 v else my_data s2 j) s2)).
    assert (D3 : dframe s2 s3 [EvStore i (uint8 v)]) by (split; reflexivity).
    destruct (IH (i + 1) s3) as (n2 & s' & tr2 & Erun & D4 & L4 & S4); [lia|].
    exists (S (Nat.max n1 n2)), s', (tr1 ++ [EvRead dev DR v] ++ [EvStore i (uint8 v)] ++ tr2).
    split; [|split; [|split]].
    + intros fuel n Hf Hn. destruct n as [|n]; [lia|].
      rewrite read_stream_unfold.
      destruct (Z.ltb_spec i (int32 (length - 3))); [|lia].
      unfold bind.
      unfold wait_set. fold (is_set I2C_SR1_RXNE).
      rewrite (mono_poll dev SR1 (is_set I2C_SR1_RXNE) n1 fuel s tt s1 E1) by lia.
      rewrite E2. unfold store. fold s3.
      rewrite Erun by lia. f_equal. lia.
    + apply (dframe_trans _ s1); [exact (poll_dframe _ _ _ _ _ _ P1 F1)|].
      apply (dframe_trans _ s2); [apply frame_dframe; [reflexivity | exact F2]|].
      apply (dframe_trans _ s3); [exact D3 | exact D4].
    + rewrite !reads_of_app, (poll_reads_other _ _ DR _ _ P1 eq_refl).
      simpl. rewrite Z.eqb_refl. simpl. rewrite L4. reflexivity.
    + rewrite zseq_cons, !stores_app, !reads_of_app, (poll_stores _ _ _ _ P1),
        (poll_reads_other _ _ DR _ _ P1 eq_refl), S4.
      cbn [app stores reads_of flat_map reg_eqb]. rewrite Z.eqb_refl.
      reflexivity.
Qed.

Lemma reads_of_cons i2c r e t :
  reads_of i2c r (e :: t) = reads_of i2c r [e] ++ reads_of i2c r t.
Proof. exact (reads_of_app i2c r [e] t). Qed.

Lemma stores_cons e t : stores (e :: t) = stores [e] ++ stores t.
Proof. exact (stores_app [e] t). Qed.

(** Cut the trace under [reads_of] and [stores] into single events. *)
Ltac split_trace :=
  repeat match goal with
         | |- context [reads_of ?i ?r (?e :: ?t)] =>
             lazymatch t with
             | nil => fail
             | _ => rewrite (reads_of_cons i r e t)
             end
         | |- context [stores (?e :: ?t)] =>
             lazymatch t with
             | nil => fail
             | _ => rewrite (stores_cons e t)
             end
         | |- context [reads_of _ _ (_ ++ _)] => rewrite reads_of_app
         | |- context [stores (_ ++ _)] => rewrite stores_app
         end.

Lemma cwp_read_stream dev length (Q : Z -> State -> Prop) s :
  answers dev SR1 (is_set I2C_SR1_RXNE) ->
  (forall s' tr,
      dframe s s' tr ->
      List.length (reads_of dev DR tr) = Z.to_nat (int32 (length - 3)) ->
      stores tr = combine (zseq 0 (Z.to_nat (int32 (length - 3))))
                          (map uint8 (reads_of dev DR tr)) ->
      Q (Z.of_nat (Z.to_nat (int32 (length - 3)))) s') ->
  cwp (fun n => read_stream n n dev length 0) Q s.
Proof.
  intros Hrxne H.
  destruct (read_stream_spec dev length Hrxne (Z.to_nat (int32 (length - 3))) 0 s)
    as (n0 & s' & tr & E & D & L & S); [f_equal; lia|].
  exists (Z.of_nat (Z.to_nat (int32 (length - 3)))), s'. split.
  - exists n0. intros n Hn. apply E; assumption.
  - exact (H s' tr D L S).
Qed.

Ltac cwp_store_d :=
  cwp_split; apply cwp_const; apply wp_store_d; intros ? ?; cbv beta.

Ltac to_dframes :=
  repeat match goal with
         | P : poll_trace _ _ _ ?t, F : frame _ _ ?t |- _ =>
             apply (poll_dframe _ _ _ _ _ _ P) in F
         | F : frame ?a ?b ?t |- _ => apply (frame_dframe a b t eq_refl) in F
         end.

Ltac dframe_chain :=
  repeat match goal with
         | D1 : dframe ?a ?b ?t1, D2 : dframe ?b ?c ?t2 |- _ =>
             pose proof (dframe_trans _ _ _ _ _ D1 D2); clear D1 D2
         end.

(** The read path taken for every length other than 1 and 2: [k] bytes are
    streamed, then the byte-transfer-complete flag is awaited and three
    more bytes are taken from the data register. *)
Lemma read_default_spec dev address length n0 s r s1 :
  uint32 dev < I2C_NUMOF ->
  _start n0 dev address I2C_FLAG_READ s = Ret r s1 ->
  0 <= r ->
  length <> 1 -> length <> 2 ->
  answers dev SR1 (is_set I2C_SR1_RXNE) ->
  answers dev SR1 (is_set I2C_SR1_BTF) ->
  answers dev CR1 (is_clear I2C_CR1_STOP) ->
  exists fuel s' pre btf post va vb vc,
    i2c_read_bytes fuel dev address length s = Ret length s' /\
    dframe s1 s' (pre ++ btf ++ post) /\
    poll_trace dev SR1 (is_set I2C_SR1_BTF) btf /\
    List.length (reads_of dev DR pre) = Z.to_nat (int32 (length - 3)) /\
    stores pre = combine (zseq 0 (Z.to_nat (int32 (length - 3))))
                         (map uint8 (reads_of dev DR pre)) /\
    reads_of dev DR post = [va; vb; vc] /\
    stores post = [(Z.of_nat (Z.to_nat (int32 (length - 3))), uint8 va);
                   (Z.of_nat (Z.to_nat (int32 (length - 3))) + 1, uint8 vb);
                   (Z.of_nat (Z.to_nat (int32 (length - 3))) + 2, uint8 vc)].
Proof.
  intros Hdev Hstart Hr Hl1 Hl2 Hrxne Hbtf Hstop.
  assert (W : cwp (fun fuel => i2c_read_bytes fuel dev address length)
                  (fun res s' => res = length /\
                     exists pre btf post va vb vc,
                       dframe s1 s' (pre ++ btf ++ post) /\
                       poll_trace dev SR1 (is_set I2C_SR1_BTF) btf /\
                       List.length (reads_of dev DR pre)
                       = Z.to_nat (int32 (length - 3)) /\
                       stores pre = combine (zseq 0 (Z.to_nat (int32 (length - 3))))
                                            (map uint8 (reads_of dev DR pre)) /\
                       reads_of dev DR post = [va; vb; vc] /\
                       stores post
                       = [(Z.of_nat (Z.to_nat (int32 (length - 3))), uint8 va);
                          (Z.of_nat (Z.to_nat (int32 (length - 3))) + 1, uint8 vb);
                          (Z.of_nat (Z.to_nat (int32 (length - 3))) + 2, uint8 vc)]) s).
  { unfold i2c_read_bytes.
    destruct (Z.leb_spec I2C_NUMOF (uint32 dev)); [lia|].
    destruct (Z.eqb_spec length 1); [contradiction|].
    destruct (Z.eqb_spec length 2); [contradiction|].
    cwp_split. apply (cwp_start _ _ _ _ _ _ _ _ Hstart).
    cwp_step.
    destruct (Z.ltb_spec r 0); [lia|].
    unfold _clear_addr.
    cwp_split. apply cwp_const. wp_step. wp_step. wp_prim.
    cwp_split. apply cwp_read_stream; [exact Hrxne|]. intros sk trk Dk Lk Sk.
    cwp_wait Hbtf.
    cwp_step. cwp_step. cwp_step. cwp_store_d. cwp_step. cwp_step.
    cwp_step. cwp_store_d.
    cwp_wait Hrxne.
    cwp_step. cwp_store_d.
    cwp_wait Hstop.
    cwp_step. cwp_step.
    apply cwp_const, wp_ret. split; [reflexivity|].
    match goal with
    | P0 : poll_trace _ SR1 (is_set I2C_SR1_RXNE) ?t0,
      P1 : poll_trace _ CR1 _ ?t1 |- _ =>
        pose proof (poll_reads_other _ _ DR _ _ P0 eq_refl) as R0;
        pose proof (poll_reads_other _ _ DR _ _ P1 eq_refl) as R1;
        pose proof (poll_stores _ _ _ _ P0) as S0;
        pose proof (poll_stores _ _ _ _ P1) as S1
    end.
    to_dframes. dframe_chain.
    match goal with
    | D : dframe s1 _ _ |- _ =>
        repeat rewrite <- app_assoc in D; simpl in D;
        match type of D with
        | dframe _ _ (?e1 :: ?e2 :: trk ++ ?b ++ ?post) =>
            exists (e1 :: e2 :: trk), b, post
        end
    end.
    do 3 eexists.
    split; [simpl; rewrite <- ?app_assoc; eassumption|].
    split; [assumption|].
    split.
    { split_trace. cbn [reads_of flat_map app reg_eqb].
      rewrite !andb_false_r. exact Lk. }
    split.
    { split_trace. cbn [reads_of stores flat_map app reg_eqb].
      rewrite !andb_false_r. exact Sk. }
    split.
    - split_trace. rewrite R0, R1.
      cbn [reads_of flat_map app reg_eqb]. rewrite Z.eqb_refl.
      cbn [app andb]. reflexivity.
    - split_trace. rewrite S0, S1. reflexivity. }
  apply cwp_run in W.
  destruct W as (fuel & res & s' & E & -> & pre & btf & post & va & vb & vc & W).
  exists fuel, s', pre, btf, post, va, vb, vc. auto.
Qed.

(** ** The start phase leaves the buffer alone *)

Lemma wpr_mono {A} (m : M A) (Q Q' : A -> State -> Prop) H s :
  wpr m Q H s -> (forall a s', Q a s' -> Q' a s') -> wpr m Q' H s.
Proof. unfold wpr. destruct (m s); auto. Qed.

Definition keeps_data (s : State) {A} (_ : A) (s' : State) : Prop :=
  my_data s' = my_data s.

Lemma frame_data s s' tr : frame s s' tr -> my_data s' = my_data s.
Proof. intros (_ & D & _). exact D. Qed.

Lemma poll_keeps_data i2c r p n s :
  wpr (poll n i2c r p) (keeps_data s) (fun _ => True) s.
Proof.
  unfold wpr. destruct (poll n i2c r p s) as [[] s'|] eqn:E; [|exact I].
  destruct (poll_frame _ _ _ _ _ _ E) as (tr & _ & F). exact (frame_data _ _ _ F).
Qed.

Lemma wait_ready_keeps_data i2c t0 fuel : forall s,
  wpr (wait_ready fuel i2c t0) (keeps_data s) (fun _ => True) s.
Proof.
  induction fuel as [|f IH]; intro s; [exact I|].
  simpl. apply wpr_bind, wp_wpr, wp_rd. intros v s1 _ F1.
  destruct (Z.land v I2C_SR2_BUSY =? 0).
  - apply wp_wpr, wp_ret. exact (frame_data _ _ _ F1).
  - apply wpr_bind, wp_wpr, wp_now. intros t s2 _ F2.
    apply wpr_bind.
    assert (K : forall s3, my_data s3 = my_data s2 ->
                           wpr (wait_ready f i2c t0) (keeps_data s) (fun _ => True) s3).
    { intros s3 D3. apply (wpr_mono _ _ _ _ _ (IH s3)).
      intros a s' D. unfold keeps_data in *.
      rewrite D, D3, (frame_data _ _ _ F2), (frame_data _ _ _ F1). reflexivity. }
    destruct (100000 <? uint32 (t - t0)).
    + apply wp_wpr, wp_i2c_reset. intros ? ? ? ? ? ? ? s3 _ F3.
      apply K. exact (frame_data _ _ _ F3).
    + apply wp_wpr, wp_ret. apply K. reflexivity.
Qed.

Lemma wait_addr_keeps_data i2c fuel : forall s,
  wpr (wait_addr fuel i2c) (keeps_data s) (fun _ => True) s.
Proof.
  induction fuel as [|f IH]; intro s; [exact I|].
  simpl. apply wpr_bind, wp_wpr, wp_rd. intros v s1 _ F1.
  destruct (Z.land v I2C_SR1_ADDR =? 0).
  - apply wpr_bind, wp_wpr, wp_get_bus_error. intros s2 F2.
    destruct (i2c_bus_error s2 =? 0).
    + apply (wpr_mono _ _ _ _ _ (IH s2)). intros a s' D. unfold keeps_data in *.
      rewrite D, (frame_data _ _ _ F2), (frame_data _ _ _ F1). reflexivity.
    + apply wpr_bind, wp_wpr, wp_i2c_reset. intros ? ? ? ? ? ? ? s3 _ F3.
      apply wp_wpr, wp_ret. unfold keeps_data.
      rewrite (frame_data _ _ _ F3), (frame_data _ _ _ F2), (frame_data _ _ _ F1).
      reflexivity.
  - apply wp_wpr, wp_ret. exact (frame_data _ _ _ F1).
Qed.

Lemma start_keeps_data i2c address rw_flag fuel s r s1 :
  _start fuel i2c address rw_flag s = Ret r s1 -> my_data s1 = my_data s.
Proof.
  intro E.
  assert (W : wpr (_start fuel i2c address rw_flag) (keeps_data s) (fun _ => True) s).
  { unfold _start, start_send.
    apply wpr_bind, wpr_bind, wp_wpr, wp_now. intros t0 s2 _ F2.
    apply wpr_bind.
    apply (wpr_mono _ _ _ _ _ (wait_ready_keeps_data i2c t0 fuel s2)).
    intros u3 s3 D3.
    apply wpr_bind, wp_wpr, wp_set_bits. intros a s4 _ F4.
    apply wpr_bind.
    apply (wpr_mono _ _ _ _ _ (poll_keeps_data i2c SR1 _ fuel s4)).
    intros u5 s5 D5.
    apply wpr_bind, wp_wpr, wp_set_bus_error. intros s6 _ D6 _.
    apply wp_wpr, wp_wr. intros s7 F7.
    apply (wpr_mono _ _ _ _ _ (wait_addr_keeps_data i2c fuel s7)).
    intros r8 s8 D8. unfold keeps_data in *.
    rewrite D8, (frame_data _ _ _ F7), D6, D5, (frame_data _ _ _ F4), D3,
      (frame_data _ _ _ F2). reflexivity. }
  unfold wpr in W. rewrite E in W. exact W.
Qed.

(** ** Bytes in the buffer *)

Lemma apply_stores_snoc l i b m j :
  apply_stores (l ++ [(i, b)]) m j = if j =? i then b else apply_stores l m j.
Proof. rewrite apply_stores_app. reflexivity. Qed.

Lemma apply_stores_zseq (bs : list Z) (m : Z -> Z) (j : Z) :
  apply_stores (combine (zseq 0 (List.length bs)) bs) m j
  = if (0 <=? j) && (j <? Z.of_nat (List.length bs))
    then nth (Z.to_nat j) bs 0 else m j.
Proof.
  induction bs as [|b bs IH] using rev_ind.
  - cbn [List.length zseq seq map combine apply_stores fold_left].
    destruct (Z.leb_spec 0 j), (Z.ltb_spec j (Z.of_nat 0)); cbn [andb];
      try reflexivity; lia.
  - rewrite length_app. cbn [List.length]. rewrite Nat.add_1_r, zseq_S, Z.add_0_l.
    rewrite combine_snoc by (rewrite zseq_length; reflexivity).
    rewrite apply_stores_snoc, IH.
    set (n := List.length bs).
    destruct (Z.eqb_spec j (Z.of_nat n)) as [->|Hne];
      destruct (Z.leb_spec 0 (Z.of_nat n)); try lia.
    + destruct (Z.ltb_spec (Z.of_nat n) (Z.of_nat (S n))); [|lia].
      cbn [andb]. rewrite Nat2Z.id. unfold n. rewrite nth_middle. reflexivity.
    + destruct (Z.leb_spec 0 j), (Z.ltb_spec j (Z.of_nat n)),
        (Z.ltb_spec j (Z.of_nat (S n))); cbn [andb]; try reflexivity; try lia.
      rewrite app_nth1 by (unfold n in *; lia). reflexivity.
Qed.

Lemma stores_complete (rp : list Z) (va vb vc : Z) :
  combine (zseq 0 (List.length rp)) (map uint8 rp)
    ++ [(Z.of_nat (List.length rp), uint8 va);
        (Z.of_nat (List.length rp) + 1, uint8 vb);
        (Z.of_nat (List.length rp) + 2, uint8 vc)]
  = combine (zseq 0 (List.length rp + 3)) (map uint8 (rp ++ [va; vb; vc])).
Proof.
  replace (List.length rp + 3)%nat with (S (S (S (List.length rp)))) by lia.
  rewrite !zseq_S, map_app. simpl map.
  change [uint8 va; uint8 vb; uint8 vc]
    with ([uint8 va] ++ [uint8 vb] ++ [uint8 vc]).
  rewrite !app_assoc.
  rewrite !combine_snoc;
    rewrite ?length_app, ?zseq_length, ?length_map; simpl; try lia.
  rewrite <- !app_assoc. simpl.
  repeat f_equal; lia.
Qed.

(** C5: a read of [N >= 3] bytes whose start phase succeeds and whose
    peer answers every wait returns [N]; the [N] readings of the data
    register land in the buffer at positions 0..N-1 in the order they
    were read, nothing else in the buffer changes, and the last three
    readings are made after the byte-transfer-complete flag was seen. *)
Theorem read_n_bytes_in_order dev address N n0 s r s1 :
  uint32 dev < I2C_NUMOF ->
  3 <= N < 2 ^ 31 ->
  _start n0 dev address I2C_FLAG_READ s = Ret r s1 ->
  0 <= r ->
  answers dev SR1 (is_set I2C_SR1_RXNE) ->
  answers dev SR1 (is_set I2C_SR1_BTF) ->
  answers dev CR1 (is_clear I2C_CR1_STOP) ->
  exists fuel s' pre btf post,
    i2c_read_bytes fuel dev address N s = Ret N s' /\
    trace s' = trace s1 ++ pre ++ btf ++ post /\
    poll_trace dev SR1 (is_set I2C_SR1_BTF) btf /\
    List.length (reads_of dev DR pre) = Z.to_nat (N - 3) /\
    List.length (reads_of dev DR post) = 3%nat /\
    List.length (reads_of dev DR (pre ++ btf ++ post)) = Z.to_nat N /\
    stores (pre ++ btf ++ post)
    = combine (zseq 0 (Z.to_nat N))
              (map uint8 (reads_of dev DR (pre ++ btf ++ post))) /\
    (forall j, 0 <= j < N ->
               my_data s' j
               = uint8 (nth (Z.to_nat j) (reads_of dev DR (pre ++ btf ++ post)) 0)) /\
    (forall j, ~ 0 <= j < N -> my_data s' j = my_data s j).
Proof.
  intros Hdev HN Hstart Hr Hrxne Hbtf Hstop.
  destruct (read_default_spec dev address N n0 s r s1)
    as (fuel & s' & pre & btf & post & va & vb & vc
        & E & (T & D) & P & Lpre & Spre & Rpost & Spost);
    try assumption; try lia.
  rewrite int32_small in * by lia.
  pose proof (poll_reads_other _ _ DR _ _ P eq_refl) as Rbtf.
  pose proof (poll_stores _ _ _ _ P) as Sbtf.
  assert (Rall : reads_of dev DR (pre ++ btf ++ post)
                 = reads_of dev DR pre ++ [va; vb; vc]).
  { rewrite !reads_of_app, Rbtf, Rpost. reflexivity. }
  assert (Lall : List.length (reads_of dev DR (pre ++ btf ++ post)) = Z.to_nat N).
  { rewrite Rall, length_app, Lpre. simpl. lia. }
  assert (Sall : stores (pre ++ btf ++ post)
                 = combine (zseq 0 (Z.to_nat N))
                           (map uint8 (reads_of dev DR (pre ++ btf ++ post)))).
  { rewrite !stores_app, Sbtf, Spre, Spost, Rall. simpl app.
    rewrite <- Lpre, stores_complete. f_equal. f_equal. lia. }
  exists fuel, s', pre, btf, post.
  split; [exact E|]. split; [exact T|]. split; [exact P|].
  split; [exact Lpre|]. split; [rewrite Rpost; reflexivity|].
  split; [exact Lall|]. split; [exact Sall|].
  assert (Dj : forall j,
             my_data s' j
             = if (0 <=? j) && (j <? N)
               then uint8 (nth (Z.to_nat j) (reads_of dev DR (pre ++ btf ++ post)) 0)
               else my_data s j).
  { intro j. rewrite D, Sall, (start_keeps_data _ _ _ _ _ _ _ Hstart).
    rewrite <- Lall, <- (length_map uint8), apply_stores_zseq.
    rewrite length_map, Lall, Z2Nat.id by lia.
    destruct ((0 <=? j) && (j <? N)) eqn:C; [|reflexivity].
    change 0 with (uint8 0) at 1. apply map_nth. }
  split; intros j Hj; rewrite Dj.
  - destruct (Z.leb_spec 0 j), (Z.ltb_spec j N); try lia. reflexivity.
  - destruct (Z.leb_spec 0 j), (Z.ltb_spec j N); try lia; reflexivity.
Qed.

(** C9: with a length that is neither 1 nor 2 and is smaller than 3 the
    read takes the N-byte path all the same: it waits for the
    byte-transfer-complete flag, takes three bytes from the data register,
    stores them at positions 0, 1 and 2 of the buffer and returns the
    length it was given. *)
Theorem read_short_length_stores_three dev address length n0 s r s1 :
  uint32 dev < I2C_NUMOF ->
  length <> 1 -> length <> 2 ->
  - 2 ^ 31 + 3 <= length <= 3 ->
  _start n0 dev address I2C_FLAG_READ s = Ret r s1 ->
  0 <= r ->
  answers dev SR1 (is_set I2C_SR1_RXNE) ->
  answers dev SR1 (is_set I2C_SR1_BTF) ->
  answers dev CR1 (is_clear I2C_CR1_STOP) ->
  exists fuel s' pre btf post va vb vc,
    i2c_read_bytes fuel dev address length s = Ret length s' /\
    trace s' = trace s1 ++ pre ++ btf ++ post /\
    poll_trace dev SR1 (is_set I2C_SR1_BTF) btf /\
    reads_of dev DR (pre ++ btf) = [] /\
    reads_of dev DR post = [va; vb; vc] /\
    stores (pre ++ btf ++ post) = [(0, uint8 va); (1, uint8 vb); (2, uint8 vc)] /\
    my_data s' 0 = uint8 va /\
    my_data s' 1 = uint8 vb /\
    my_data s' 2 = uint8 vc /\
    (forall j, ~ 0 <= j < 3 -> my_data s' j = my_data s j).
Proof.
  intros Hdev Hl1 Hl2 Hlen Hstart Hr Hrxne Hbtf Hstop.
  destruct (read_default_spec dev address length n0 s r s1)
    as (fuel & s' & pre & btf & post & va & vb & vc
        & E & (T & D) & P & Lpre & Spre & Rpost & Spost);
    try assumption.
  rewrite int32_small in * by lia.
  replace (Z.to_nat (length - 3)) with 0%nat in * by lia.
  pose proof (poll_reads_other _ _ DR _ _ P eq_refl) as Rbtf.
  pose proof (poll_stores _ _ _ _ P) as Sbtf.
  apply length_zero_iff_nil in Lpre.
  assert (Sall : stores (pre ++ btf ++ post)
                 = [(0, uint8 va); (1, uint8 vb); (2, uint8 vc)]).
  { rewrite !stores_app, Sbtf, Spre, Spost. reflexivity. }
  exists fuel, s', pre, btf, post, va, vb, vc.
  split; [exact E|]. split; [exact T|]. split; [exact P|].
  split; [rewrite reads_of_app, Lpre, Rbtf; reflexivity|].
  split; [exact Rpost|]. split; [exact Sall|].
  rewrite D, Sall, (start_keeps_data _ _ _ _ _ _ _ Hstart).
  unfold apply_stores. cbn [fold_left fst snd].
  repeat split.
  intros j Hj.
  destruct (Z.eqb_spec j 2); [lia|].
  destruct (Z.eqb_spec j 1); [lia|].
  destruct (Z.eqb_spec j 0); [lia|]. reflexivity.
Qed.

End Proofs.

(** * Further properties of the driver *)

Section More.

Context {conf : PeriphConf} {HW : Hardware}.

Local Open Scope drv_scope.

(** The proof steps of the model, as used for the transactions above. *)

Ltac wp_prim :=
  first
    [ apply wp_rd; intros ? ? ? ?
    | apply wp_wr; intros ? ?
    | apply wp_set_bits; intros ? ? ? ?
    | apply wp_clear_bits; intros ? ? ? ?
    | apply wp_now; intros ? ? ? ?
    | apply wp_get_bus_error; intros ? ?
    | apply wp_set_bus_result; intros ? ?
    | apply wp_irq_disable; intros ? ? ? ?
    | apply wp_irq_restore; intros ? ?
    | apply wp_ext; intros ? ?
    | apply wp_ret ].

Ltac wp_step := apply wp_bind; wp_prim.

Ltac frame_chain :=
  repeat match goal with
         | F1 : frame ?a ?b ?t1, F2 : frame ?b ?c ?t2 |- _ =>
             pose proof (frame_trans _ _ _ _ _ F1 F2); clear F1 F2
         end.

Ltac cwp_split :=
  match goal with
  | |- cwp (fun n => bind (@?m n) (@?k n)) ?Q ?s =>
      apply (cwp_bind m k Q s); cbv beta
  end.

Ltac cwp_step := cwp_split; apply cwp_const; wp_prim; cbv beta.

Ltac cwp_store :=
  cwp_split; apply cwp_const; apply wp_store; intros ? ? ? ?; cbv beta.

Ltac cwp_wait H :=
  cwp_split;
  first [ apply cwp_wait_set; [exact H|] | apply cwp_wait_clear; [exact H|] ];
  intros ? ? ? ?; cbv beta.

Ltac unwind_trace :=
  repeat match goal with
         | F : frame _ _ _ |- _ => destruct F as (? & _ & _)
         end;
  repeat match goal with
         | T : trace ?x = _ |- context [trace ?x] => rewrite T; clear T
         end;
  repeat rewrite <- app_assoc; simpl.

Ltac split_trace :=
  repeat match goal with
         | |- context [reads_of ?i ?r (?e :: ?t)] =>
             lazymatch t with
             | nil => fail
             | _ => rewrite (reads_of_cons i r e t)
             end
         | |- context [stores (?e :: ?t)] =>
             lazymatch t with
             | nil => fail
             | _ => rewrite (stores_cons e t)
             end
         | |- context [reads_of _ _ (_ ++ _)] => rewrite reads_of_app
         | |- context [stores (_ ++ _)] => rewrite stores_app
         end.

Ltac cwp_store_d :=
  cwp_split; apply cwp_const; apply wp_store_d; intros ? ?; cbv beta.

Ltac to_dframes :=
  repeat match goal with
         | P : poll_trace _ _ _ ?t, F : frame _ _ ?t |- _ =>
             apply (poll_dframe _ _ _ _ _ _ P) in F
         | F : frame ?a ?b ?t |- _ => apply (frame_dframe a b t eq_refl) in F
         end.

Ltac dframe_chain :=
  repeat match goal with
         | D1 : dframe ?a ?b ?t1, D2 : dframe ?b ?c ?t2 |- _ =>
             pose proof (dframe_trans _ _ _ _ _ D1 D2); clear D1 D2
         end.

(** ** Invalid bus index *)

(** X1: every entry point that takes a bus index rejects an index that is
    not below [I2C_NUMOF] with -1 (the power functions with no effect)
    before it touches the machine: the state is returned as it was. *)
Theorem invalid_bus_is_rejected dev fuel speed address reg byte data length s :
  I2C_NUMOF <= uint32 dev ->
  i2c_init_master dev speed s = Ret (-1) s /\
  i2c_read_bytes fuel dev address length s = Ret (-1) s /\
  i2c_read_byte fuel dev address s = Ret (-1) s /\
  i2c_read_regs fuel dev address reg length s = Ret (-1) s /\
  i2c_read_reg fuel dev address reg s = Ret (-1) s /\
  i2c_write_bytes fuel dev address data length s = Ret (-1) s /\
  i2c_write_byte fuel dev address byte s = Ret (-1) s /\
  i2c_write_regs fuel dev address reg data length s = Ret (-1) s /\
  i2c_write_reg fuel dev address reg byte s = Ret (-1) s /\
  i2c_poweron dev s = Ret tt s /\
  i2c_poweroff fuel dev s = Ret tt s.
Proof.
  intro H.
  unfold i2c_init_master, i2c_read_byte, i2c_read_reg, i2c_read_regs, i2c_read_bytes,
    i2c_write_byte, i2c_write_reg, i2c_write_regs, i2c_write_bytes,
    i2c_poweron, i2c_poweroff.
  destruct (Z.leb_spec I2C_NUMOF (uint32 dev)); [|lia].
  destruct (Z.ltb_spec (uint32 dev) I2C_NUMOF); [lia|].
  repeat split; reflexivity.
Qed.

(** ** Outcomes of the initializer *)

(** X2: with a speed class the switch does not list the initializer
    returns -2, but only after it has run its prologue: the clock gate is
    on, the controller has been disabled, the interrupt line and the pins
    are configured.  The timing register is not written. *)
Theorem init_master_bad_speed dev speed s :
  uint32 dev < I2C_NUMOF ->
  speed_times speed = None ->
  exists a s',
    i2c_init_master dev speed s = Ret (-2) s' /\
    trace s' = trace s
                 ++ [EvExt (periph_clk_en dev);
                     EvUpdate dev CR1 a (Z.land a (not32 I2C_CR1_PE));
                     EvExt (NVIC_SetPriority dev);
                     EvExt (NVIC_EnableIRQ dev);
                     EvExt (gpio_init_scl dev);
                     EvExt (gpio_init_af_scl dev);
                     EvExt (gpio_init_sda dev);
                     EvExt (gpio_init_af_sda dev)] /\
    my_data s' = my_data s.
Proof.
  intros Hdev Hsp.
  assert (W : wp (i2c_init_master dev speed)
                (fun r s' => r = -2 /\ exists a,
                     frame s s' [EvExt (periph_clk_en dev);
                                 EvUpdate dev CR1 a (Z.land a (not32 I2C_CR1_PE));
                                 EvExt (NVIC_SetPriority dev);
                                 EvExt (NVIC_EnableIRQ dev);
                                 EvExt (gpio_init_scl dev);
                                 EvExt (gpio_init_af_scl dev);
                                 EvExt (gpio_init_sda dev);
                                 EvExt (gpio_init_af_sda dev)]) s).
  { unfold i2c_init_master.
    destruct (Z.leb_spec I2C_NUMOF (uint32 dev)); [lia|].
    apply wp_init_prologue; [assumption|]. intros a s1 F1.
    rewrite Hsp. apply wp_ret. split; [reflexivity|]. exists a. exact F1. }
  apply wp_returns in W. destruct W as (r & s' & E & -> & a & T & D & _).
  exists a, s'. auto.
Qed.

Lemma presc_loop_spec i2c_clk times : forall fuel presc timing,
  1 <= presc <= 15 ->
  16 - presc <= Z.of_nat fuel ->
  (presc_loop fuel i2c_clk times presc timing = (16, timing) /\
   forall q, presc <= q <= 15 -> out_of_range (ticks i2c_clk q times) = true) \/
  (exists p,
      presc <= p <= 15 /\
      presc_loop fuel i2c_clk times presc timing
      = (p, timing_value p (ticks i2c_clk p times)) /\
      out_of_range (ticks i2c_clk p times) = false /\
      forall q, presc <= q < p -> out_of_range (ticks i2c_clk q times) = true).
Proof.
  induction fuel as [|f IH]; intros presc timing Hp Hf; [lia|].
  cbn [presc_loop].
  destruct (out_of_range (ticks i2c_clk presc times)) eqn:B.
  - destruct (Z.ltb_spec (presc + 1) 16).
    + destruct (IH (presc + 1) timing) as [(E & All)|(p & Hpp & E & Ok & Min)];
        try lia.
      * left. split; [exact E|]. intros q Hq.
        destruct (Z.eq_dec q presc) as [->|]; [exact B | apply All; lia].
      * right. exists p. repeat split; try assumption; try lia.
        intros q Hq.
        destruct (Z.eq_dec q presc) as [->|]; [exact B | apply Min; lia].
    + left. split; [f_equal; lia|]. intros q Hq.
      replace q with presc by lia. exact B.
  - right. exists presc. repeat split; try assumption; try lia.
Qed.

(** X3: the initializer returns 0 exactly when it programs the timing
    register.  A return of 0 comes with one write to the timing register,
    of the value packed for a prescaler in 1..15 that passes the range
    test and below which every prescaler fails it; every other return
    (-1, -2 or 2) comes with no write to the timing register at all. *)
Theorem init_master_outcome dev speed s :
  exists r s' tr,
    i2c_init_master dev speed s = Ret r s' /\
    trace s' = trace s ++ tr /\
    ((r = 0 /\
      exists times p,
        speed_times speed = Some times /\ 1 <= p <= 15 /\
        out_of_range (ticks (uint32 I2C_APBCLK) p times) = false /\
        (forall q, 1 <= q < p ->
                   out_of_range (ticks (uint32 I2C_APBCLK) q times) = true) /\
        writes_to dev TIMINGR tr
        = [timing_value p (ticks (uint32 I2C_APBCLK) p times)]) \/
     ((r = -1 \/ r = -2 \/ r = 2) /\ writes_to dev TIMINGR tr = [])).
Proof.
  assert (W : wp (i2c_init_master dev speed)
                (fun r s' => exists tr,
                     trace s' = trace s ++ tr /\
                     ((r = 0 /\
                       exists times p,
                         speed_times speed = Some times /\ 1 <= p <= 15 /\
                         out_of_range (ticks (uint32 I2C_APBCLK) p times) = false /\
                         (forall q, 1 <= q < p ->
                            out_of_range (ticks (uint32 I2C_APBCLK) q times) = true) /\
                         writes_to dev TIMINGR tr
                         = [timing_value p (ticks (uint32 I2C_APBCLK) p times)]) \/
                      ((r = -1 \/ r = -2 \/ r = 2) /\
                       writes_to dev TIMINGR tr = []))) s).
  { unfold i2c_init_master.
    destruct (Z.leb_spec I2C_NUMOF (uint32 dev)).
    - apply wp_ret. exists []. rewrite app_nil_r. auto 6.
    - apply wp_init_prologue; [assumption|]. intros a s1 (T1 & _).
      destruct (speed_times speed) as [times|] eqn:Hsp.
      + destruct (presc_loop_spec (uint32 I2C_APBCLK) times 16 1 0)
          as [(E & All)|(p & Hp & E & Ok & Min)]; try (simpl; lia).
        * rewrite E. simpl. apply wp_ret. eexists. split; [exact T1|].
          right. split; [auto|reflexivity].
        * rewrite E. destruct (Z.leb_spec 16 p); [lia|].
          apply wp_bind, wp_i2c_init. intros b c d e s2 (T2 & _). apply wp_ret.
          eexists. split; [rewrite T2, T1, <- app_assoc; reflexivity|].
          left. split; [reflexivity|]. exists times, p.
          repeat split; try assumption; try lia.
          rewrite writes_to_app. unfold init_trace. simpl.
          rewrite Z.eqb_refl. reflexivity.
      + apply wp_ret. eexists. split; [exact T1|].
        right. split; [auto|reflexivity]. }
  apply wp_returns in W. destruct W as (r & s' & E & tr & T & W).
  exists r, s', tr. auto.
Qed.

(** ** Layout of the timing value *)

(** X4: for a candidate that passes the range test the five fields of
    the timing value do not overlap, and each can be read back: the
    prescaler minus one in bits 28..31, the setup count minus one in bits
    20..23, the hold count in bits 16..19, the high count minus one in
    bits 8..15 and the low count minus one in bits 0..7. *)
Theorem timing_value_fields presc sclh scll sdadel scldel :
  1 <= presc <= 15 ->
  0 <= sclh < 2 ^ 32 -> 0 <= scll < 2 ^ 32 ->
  0 <= sdadel < 2 ^ 32 -> 0 <= scldel < 2 ^ 32 ->
  out_of_range (sclh, scll, sdadel, scldel) = false ->
  let timing := timing_value presc (sclh, scll, sdadel, scldel) in
  Z.shiftr timing 28 = presc - 1 /\
  Z.land (Z.shiftr timing 20) 15 = scldel - 1 /\
  Z.land (Z.shiftr timing 16) 15 = sdadel /\
  Z.land (Z.shiftr timing 8) 255 = sclh - 1 /\
  Z.land timing 255 = scll - 1.
Proof.
  intros Hp Hh Hl Hd Hs Hok.
  unfold out_of_range in Hok.
  apply orb_false_iff in Hok. destruct Hok as [Hok Hs'].
  apply orb_false_iff in Hok. destruct Hok as [Hok Hd'].
  apply orb_false_iff in Hok. destruct Hok as [Hh' Hl'].
  apply Z.ltb_ge in Hh', Hl', Hd', Hs'.
  assert (Bh : 1 <= sclh <= 256).
  { destruct (Z.eq_dec sclh 0) as [->|];
      [change (uint32 (0 - 1)) with 4294967295 in Hh'; lia|].
    unfold uint32 in Hh'. rewrite Z.mod_small in Hh' by lia. lia. }
  assert (Bl : 1 <= scll <= 256).
  { destruct (Z.eq_dec scll 0) as [->|];
      [change (uint32 (0 - 1)) with 4294967295 in Hl'; lia|].
    unfold uint32 in Hl'. rewrite Z.mod_small in Hl' by lia. lia. }
  assert (Bs : 1 <= scldel <= 16).
  { destruct (Z.eq_dec scldel 0) as [->|];
      [change (uint32 (0 - 1)) with 4294967295 in Hs'; lia|].
    unfold uint32 in Hs'. rewrite Z.mod_small in Hs' by lia. lia. }
  assert (Bd : 0 <= sdadel <= 15) by lia.
  clear Hh' Hl' Hd' Hs' Hh Hl Hd Hs.
  assert (V : timing_value presc (sclh, scll, sdadel, scldel)
              = (presc - 1) * 2 ^ 28 + (scldel - 1) * 2 ^ 20 + sdadel * 2 ^ 16
                + (sclh - 1) * 2 ^ 8 + (scll - 1)).
  { unfold timing_value. rewrite !Z.shiftl_mul_pow2 by lia.
    rewrite (lor_aligned ((presc - 1) * 2 ^ 28) _ 28); try lia;
      [|apply Z_mod_mult].
    rewrite (lor_aligned _ (sdadel * 2 ^ 16) 20); try lia;
      [|replace ((presc - 1) * 2 ^ 28 + (scldel - 1) * 2 ^ 20)
          with (((presc - 1) * 2 ^ 8 + (scldel - 1)) * 2 ^ 20) by ring;
        apply Z_mod_mult].
    rewrite (lor_aligned _ ((sclh - 1) * 2 ^ 8) 16); try lia;
      [|replace ((presc - 1) * 2 ^ 28 + (scldel - 1) * 2 ^ 20 + sdadel * 2 ^ 16)
          with (((presc - 1) * 2 ^ 12 + (scldel - 1) * 2 ^ 4 + sdadel) * 2 ^ 16)
          by ring;
        apply Z_mod_mult].
    rewrite (lor_aligned _ (scll - 1) 8); try lia;
      [|replace ((presc - 1) * 2 ^ 28 + (scldel - 1) * 2 ^ 20 + sdadel * 2 ^ 16
                 + (sclh - 1) * 2 ^ 8)
          with (((presc - 1) * 2 ^ 20 + (scldel - 1) * 2 ^ 12 + sdadel * 2 ^ 8
                 + (sclh - 1)) * 2 ^ 8) by ring;
        apply Z_mod_mult].
    apply uint32_small. lia. }
  cbv zeta. rewrite V. clear V.
  change 15 with (Z.ones 4). change 255 with (Z.ones 8).
  rewrite !Z.land_ones, !Z.shiftr_div_pow2 by lia.
  repeat split.
  - symmetry. apply (Z.div_unique _ _ _
      ((scldel - 1) * 2 ^ 20 + sdadel * 2 ^ 16 + (sclh - 1) * 2 ^ 8 + (scll - 1)));
      lia.
  - replace (((presc - 1) * 2 ^ 28 + (scldel - 1) * 2 ^ 20 + sdadel * 2 ^ 16
              + (sclh - 1) * 2 ^ 8 + (scll - 1)) / 2 ^ 20)
      with ((presc - 1) * 2 ^ 8 + (scldel - 1)).
    + symmetry. apply (Z.mod_unique _ _ ((presc - 1) * 2 ^ 4)); lia.
    + apply (Z.div_unique _ _ _ (sdadel * 2 ^ 16 + (sclh - 1) * 2 ^ 8 + (scll - 1)));
        lia.
  - replace (((presc - 1) * 2 ^ 28 + (scldel - 1) * 2 ^ 20 + sdadel * 2 ^ 16
              + (sclh - 1) * 2 ^ 8 + (scll - 1)) / 2 ^ 16)
      with ((presc - 1) * 2 ^ 12 + (scldel - 1) * 2 ^ 4 + sdadel).
    + symmetry.
      apply (Z.mod_unique _ _ ((presc - 1) * 2 ^ 8 + (scldel - 1))); lia.
    + apply (Z.div_unique _ _ _ ((sclh - 1) * 2 ^ 8 + (scll - 1))); lia.
  - replace (((presc - 1) * 2 ^ 28 + (scldel - 1) * 2 ^ 20 + sdadel * 2 ^ 16
              + (sclh - 1) * 2 ^ 8 + (scll - 1)) / 2 ^ 8)
      with ((presc - 1) * 2 ^ 20 + (scldel - 1) * 2 ^ 12 + sdadel * 2 ^ 8
            + (sclh - 1)).
    + symmetry.
      apply (Z.mod_unique _ _ ((presc - 1) * 2 ^ 12 + (scldel - 1) * 2 ^ 4 + sdadel));
        lia.
    + apply (Z.div_unique _ _ _ (scll - 1)); lia.
  - symmetry.
    apply (Z.mod_unique _ _ ((presc - 1) * 2 ^ 20 + (scldel - 1) * 2 ^ 12
                             + sdadel * 2 ^ 8 + (sclh - 1))); lia.
Qed.

(** ** Which prescaled clocks are accepted *)

Lemma count_minus_one_ok X ns B :
  0 < ns -> 0 <= X < 2 ^ 31 -> 0 <= B < 2 ^ 31 ->
  (B <? uint32 (X / ns - 1)) = false <-> ns <= X < (B + 2) * ns.
Proof.
  intros Hns HX HB.
  pose proof (Z.div_mod X ns ltac:(lia)) as E.
  pose proof (Z.mod_pos_bound X ns Hns) as R.
  assert (Q : 0 <= X / ns <= X).
  { split; [apply Z.div_pos; lia|]. apply Z.div_le_upper_bound; nia. }
  rewrite Z.ltb_ge. unfold uint32.
  destruct (Z.eq_dec (X / ns) 0) as [Z0|NZ].
  - rewrite Z0. change ((0 - 1) mod 2 ^ 32) with 4294967295.
    split; [lia|]. intros [H1 H2]. rewrite Z0 in E. lia.
  - rewrite Z.mod_small by lia. split.
    + intro H. split; nia.
    + intros [H1 H2]. nia.
Qed.

Lemma count_ok X ns B :
  0 < ns -> 0 <= X -> 0 <= B ->
  (B <? X / ns) = false <-> X < (B + 1) * ns.
Proof.
  intros Hns HX HB.
  pose proof (Z.div_mod X ns ltac:(lia)) as E.
  pose proof (Z.mod_pos_bound X ns Hns) as R.
  rewrite Z.ltb_ge. split; intro H; nia.
Qed.

Lemma nonpositive_period_rejected ns h l d t :
  ns <= 0 -> 0 < h < 2 ^ 31 ->
  out_of_range (h / ns, l / ns, d / ns, t / ns) = true.
Proof.
  intros Hns Hh. unfold out_of_range.
  replace (255 <? uint32 (h / ns - 1)) with true; [reflexivity|].
  symmetry. apply Z.ltb_lt. unfold uint32.
  destruct (Z.eq_dec ns 0) as [->|NZ].
  - rewrite Z.div_0_r. reflexivity.
  - pose proof (Z.div_mod h ns NZ) as E.
    pose proof (Z.mod_neg_bound h ns ltac:(lia)) as R.
    assert (Q : - h <= h / ns <= -1) by nia.
    replace ((h / ns - 1) mod 2 ^ 32) with (h / ns - 1 + 2 ^ 32); [lia|].
    apply (Z.mod_unique _ _ (-1)); lia.
Qed.

(** X5: a candidate prescaler is accepted exactly when the period of
    the prescaled clock, in whole nanoseconds, lies in a window: 74 to
    1250 ns at normal speed, 30 to 500 ns at fast speed. *)
Theorem accepted_window i2c_clk presc :
  let ns_presc := NSEC_PER_SEC / (i2c_clk / presc) in
  (out_of_range (ticks i2c_clk presc (4000, 4700, 500, 1250)) = false
   <-> 74 <= ns_presc <= 1250) /\
  (out_of_range (ticks i2c_clk presc (600, 1300, 375, 500)) = false
   <-> 30 <= ns_presc <= 500).
Proof.
  cbv zeta. unfold ticks.
  set (ns := NSEC_PER_SEC / (i2c_clk / presc)).
  destruct (Z_le_gt_dec ns 0) as [Hneg|Hpos].
  - rewrite !nonpositive_period_rejected by lia.
    split; (split; [discriminate | lia]).
  - unfold out_of_range. rewrite !orb_false_iff.
    rewrite !count_minus_one_ok, !count_ok by lia.
    split; lia.
Qed.

(** ** Writes *)

Lemma write_loop_unfold fuel n i2c data length i :
  write_loop fuel n i2c data length i
  = if i <? length then
      match n with
      | O => hang
      | S n' =>
          wr i2c TXDR (data i) ;;
          wait_set fuel i2c ISR I2C_ISR_TXE ;;
          write_loop fuel n' i2c data length (i + 1)
      end
    else ret tt.
Proof. destruct n; reflexivity. Qed.

Lemma wr_returns i2c r v s :
  exists s', wr i2c r v s = Ret tt s' /\ frame s s' [EvWrite i2c r v].
Proof.
  pose proof (wp_wr i2c r v (fun _ s' => frame s s' [EvWrite i2c r v]) s
                (fun s' F => F)) as W.
  apply wp_returns in W. destruct W as ([] & s' & E & F). eauto.
Qed.

Lemma poll_writes i2c r p j q tr :
  poll_trace i2c r p tr -> writes_to j q tr = [].
Proof.
  intros (pre & v & -> & _ & Hpre). rewrite writes_to_app. simpl. rewrite app_nil_r.
  induction Hpre as [|e l (u & -> & _) _ IH]; [reflexivity | exact IH].
Qed.

(** The transmit loop sends [data[i]], [data[i+1]], ... up to
    [data[length-1]], one write of the transmit register each. *)
Lemma write_loop_spec dev data length :
  answers dev ISR (is_set I2C_ISR_TXE) ->
  forall (k : nat) i s,
    Z.to_nat (length - i) = k ->
    exists (n0 : nat) s' tr,
      (forall fuel n, (n0 <= fuel)%nat -> (n0 <= n)%nat ->
                      write_loop fuel n dev data length i s = Ret tt s') /\
      frame s s' tr /\
      writes_to dev TXDR tr = map data (zseq i k).
Proof.
  intro Htxe. induction k as [|k IH]; intros i s Hk.
  - exists 0%nat, s, []. split; [|split; [apply frame_refl | reflexivity]].
    intros fuel n _ _. rewrite write_loop_unfold.
    destruct (Z.ltb_spec i length); [lia | reflexivity].
  - destruct (wr_returns dev TXDR (data i) s) as (s1 & E1 & F1).
    destruct (Htxe s1) as (n2 & s2 & E2).
    destruct (poll_frame _ _ _ _ _ _ E2) as (tr2 & P2 & F2).
    destruct (IH (i + 1) s2) as (n3 & s' & tr3 & Erun & F3 & W3); [lia|].
    exists (S (Nat.max n2 n3)), s', ([EvWrite dev TXDR (data i)] ++ tr2 ++ tr3).
    split; [|split].
    + intros fuel n Hf Hn. destruct n as [|n]; [lia|].
      rewrite write_loop_unfold.
      destruct (Z.ltb_spec i length); [|lia].
      unfold bind. rewrite E1.
      unfold wait_set. fold (is_set I2C_ISR_TXE).
      rewrite (mono_poll dev ISR (is_set I2C_ISR_TXE) n2 fuel s1 tt s2 E2) by lia.
      apply Erun; lia.
    + exact (frame_trans _ _ _ _ _ F1 (frame_trans _ _ _ _ _ F2 F3)).
    + rewrite zseq_cons, !writes_to_app, (poll_writes _ _ _ dev TXDR _ P2), W3.
      cbn [writes_to flat_map app reg_eqb map]. rewrite Z.eqb_refl. reflexivity.
Qed.

Lemma cwp_write dev data length (Q : unit -> State -> Prop) s :
  answers dev ISR (is_set I2C_ISR_TXE) ->
  (forall s' tr,
      frame s s' tr ->
      writes_to dev TXDR tr = map data (zseq 0 (Z.to_nat length)) ->
      Q tt s') ->
  cwp (fun n => _write n dev data length) Q s.
Proof.
  intros Htxe H.
  destruct (write_loop_spec dev data length Htxe (Z.to_nat length) 0 s)
    as (n0 & s' & tr & E & F & W); [f_equal; lia|].
  exists tt, s'. split.
  - exists n0. intros n Hn. unfold _write. apply E; assumption.
  - exact (H s' tr F W).
Qed.

Lemma cwp_stop dev (Q : unit -> State -> Prop) s :
  answers dev ISR (is_set I2C_ISR_TC) ->
  (forall s' tc a,
      poll_trace dev ISR (is_set I2C_ISR_TC) tc ->
      frame s s' (tc ++ [EvUpdate dev CR2 a (Z.lor a I2C_CR2_STOP)]) ->
      Q tt s') ->
  cwp (fun n => _stop n dev) Q s.
Proof.
  intros Htc H. unfold _stop.
  cwp_wait Htc. apply cwp_const. wp_prim.
  frame_chain. eapply H; eassumption.
Qed.

(** X6: a write whose start phase succeeds on a device that answers
    the transmit-empty and transfer-complete waits returns the length it
    was given.  After the address flag has been cleared it puts
    [data[0]], ..., [data[length-1]] into the transmit register, in that
    order and nothing else (nothing at all when the length is zero or
    negative), waits for transfer complete and only then sets STOP in
    control register 2; the read buffer is not touched. *)
Theorem write_bytes_in_order dev address data length n0 s r s1 :
  uint32 dev < I2C_NUMOF ->
  _start n0 dev address I2C_FLAG_WRITE s = Ret r s1 ->
  0 <= r ->
  answers dev ISR (is_set I2C_ISR_TXE) ->
  answers dev ISR (is_set I2C_ISR_TC) ->
  exists fuel s' x y sent tc a,
    i2c_write_bytes fuel dev address data length s = Ret length s' /\
    trace s' = trace s1
                 ++ EvRead dev SR1 x :: EvRead dev SR2 y
                 :: sent ++ tc ++ [EvUpdate dev CR2 a (Z.lor a I2C_CR2_STOP)] /\
    writes_to dev TXDR sent = map data (zseq 0 (Z.to_nat length)) /\
    poll_trace dev ISR (is_set I2C_ISR_TC) tc /\
    my_data s' = my_data s.
Proof.
  intros Hdev Hstart Hr Htxe Htc.
  assert (W : cwp (fun fuel => i2c_write_bytes fuel dev address data length)
                  (fun res s' => res = length /\
                     exists x y sent tc a,
                       frame s1 s' (EvRead dev SR1 x :: EvRead dev SR2 y
                                    :: sent ++ tc
                                    ++ [EvUpdate dev CR2 a (Z.lor a I2C_CR2_STOP)]) /\
                       writes_to dev TXDR sent = map data (zseq 0 (Z.to_nat length)) /\
                       poll_trace dev ISR (is_set I2C_ISR_TC) tc) s).
  { unfold i2c_write_bytes.
    destruct (Z.leb_spec I2C_NUMOF (uint32 dev)); [lia|].
    cwp_split. apply (cwp_start _ _ _ _ _ _ _ _ Hstart).
    cwp_step.
    destruct (Z.ltb_spec r 0); [lia|].
    unfold _clear_addr.
    cwp_split. apply cwp_const. wp_step. wp_step. wp_prim.
    cwp_split. apply cwp_write; [exact Htxe|]. intros sw sent Fw Ww. cbv beta.
    cwp_split. apply cwp_stop; [exact Htc|]. intros st tc a Ptc Ft. cbv beta.
    apply cwp_const, wp_ret. split; [reflexivity|].
    frame_chain.
    match goal with F : frame s1 _ _ |- _ =>
      repeat rewrite <- app_assoc in F; simpl in F end.
    do 5 eexists. split; [eassumption|]. split; assumption. }
  apply cwp_run in W.
  destruct W as (fuel & res & s' & E & -> & x & y & sent & tc & a & (T & D & _) & Ww & Ptc).
  exists fuel, s', x, y, sent, tc, a.
  repeat split; try assumption.
  rewrite D. exact (start_keeps_data _ _ _ _ _ _ _ Hstart).
Qed.

(** X7: a register write sends the register number first and the data
    bytes after it, in order, within one transaction: one start phase, one
    STOP, set after the transfer-complete flag was seen. *)
Theorem write_regs_register_first dev address reg data length n0 s r s1 :
  uint32 dev < I2C_NUMOF ->
  _start n0 dev address I2C_FLAG_WRITE s = Ret r s1 ->
  0 <= r ->
  answers dev ISR (is_set I2C_ISR_TXE) ->
  answers dev ISR (is_set I2C_ISR_TC) ->
  exists fuel s' x y sent tc a,
    i2c_write_regs fuel dev address reg data length s = Ret length s' /\
    trace s' = trace s1
                 ++ EvRead dev SR1 x :: EvRead dev SR2 y
                 :: sent ++ tc ++ [EvUpdate dev CR2 a (Z.lor a I2C_CR2_STOP)] /\
    writes_to dev TXDR sent = reg :: map data (zseq 0 (Z.to_nat length)) /\
    poll_trace dev ISR (is_set I2C_ISR_TC) tc /\
    my_data s' = my_data s.
Proof.
  intros Hdev Hstart Hr Htxe Htc.
  assert (W : cwp (fun fuel => i2c_write_regs fuel dev address reg data length)
                  (fun res s' => res = length /\
                     exists x y sent tc a,
                       frame s1 s' (EvRead dev SR1 x :: EvRead dev SR2 y
                                    :: sent ++ tc
                                    ++ [EvUpdate dev CR2 a (Z.lor a I2C_CR2_STOP)]) /\
                       writes_to dev TXDR sent
                       = reg :: map data (zseq 0 (Z.to_nat length)) /\
                       poll_trace dev ISR (is_set I2C_ISR_TC) tc) s).
  { unfold i2c_write_regs.
    destruct (Z.leb_spec I2C_NUMOF (uint32 dev)); [lia|].
    cwp_split. apply (cwp_start _ _ _ _ _ _ _ _ Hstart).
    cwp_step.
    destruct (Z.ltb_spec r 0); [lia|].
    unfold _clear_addr.
    cwp_split. apply cwp_const. wp_step. wp_step. wp_prim.
    cwp_split. apply cwp_write; [exact Htxe|]. intros sr sent1 Fr Wr. cbv beta.
    cwp_split. apply cwp_write; [exact Htxe|]. intros sw sent2 Fw Ww. cbv beta.
    cwp_split. apply cwp_stop; [exact Htc|]. intros st tc a Ptc Ft. cbv beta.
    apply cwp_const, wp_ret. split; [reflexivity|].
    frame_chain.
    match goal with F : frame s1 _ _ |- _ =>
      repeat rewrite <- app_assoc in F; simpl in F end.
    eexists. eexists. exists (sent1 ++ sent2). eexists. eexists.
    split; [rewrite <- app_assoc; eassumption|].
    split; [|assumption].
    rewrite writes_to_app, Wr, Ww. reflexivity. }
  apply cwp_run in W.
  destruct W as (fuel & res & s' & E & -> & x & y & sent & tc & a & (T & D & _) & Ww & Ptc).
  exists fuel, s', x, y, sent, tc, a.
  repeat split; try assumption.
  rewrite D. exact (start_keeps_data _ _ _ _ _ _ _ Hstart).
Qed.

(** X8: when the start phase of a register access (or of a single-byte
    write) fails, the call returns -1 at once: the state is the one the
    start phase left, with -1 in [i2c_bus_result]; no register number or
    data byte is sent, no read follows and the buffer is untouched. *)
Theorem reg_access_start_fail dev address reg byte data length fuel s r s1 :
  uint32 dev < I2C_NUMOF ->
  _start fuel dev address I2C_FLAG_WRITE s = Ret r s1 ->
  r < 0 ->
  i2c_read_regs fuel dev address reg length s = Ret (-1) (with_bus_result (-1) s1) /\
  i2c_read_reg fuel dev address reg s = Ret (-1) (with_bus_result (-1) s1) /\
  i2c_write_regs fuel dev address reg data length s
  = Ret (-1) (with_bus_result (-1) s1) /\
  i2c_write_reg fuel dev address reg byte s = Ret (-1) (with_bus_result (-1) s1) /\
  i2c_write_byte fuel dev address byte s = Ret (-1) (with_bus_result (-1) s1) /\
  my_data (with_bus_result (-1) s1) = my_data s.
Proof.
  intros Hdev E Hr.
  destruct (start_returns _ _ _ _ _ _ _ E) as [->|(-> & _)]; [lia|].
  unfold i2c_read_reg, i2c_write_reg, i2c_write_byte,
    i2c_read_regs, i2c_write_regs, i2c_write_bytes.
  destruct (Z.leb_spec I2C_NUMOF (uint32 dev)); [lia|].
  unfold bind. rewrite E. simpl.
  repeat split. exact (start_keeps_data _ _ _ _ _ _ _ E).
Qed.

(** X9: a register read is a write of the register number followed by
    an ordinary read.  When the first start phase succeeds and the
    transfer-complete wait ends, the register number is put into the data
    register, STOP is set in control register 2, and from the state then
    reached the call behaves as [i2c_read_bytes] does, result included. *)
Theorem read_regs_is_write_then_read dev address reg length n0 s r s1 :
  uint32 dev < I2C_NUMOF ->
  _start n0 dev address I2C_FLAG_WRITE s = Ret r s1 ->
  0 <= r ->
  answers dev ISR (is_set I2C_ISR_TC) ->
  exists (n1 : nat) s2 x y tc a,
    trace s2 = trace s1
                 ++ EvRead dev SR1 x :: EvRead dev SR2 y :: EvWrite dev DR reg
                 :: tc ++ [EvUpdate dev CR2 a (Z.lor a I2C_CR2_STOP)] /\
    poll_trace dev ISR (is_set I2C_ISR_TC) tc /\
    my_data s2 = my_data s /\
    forall fuel, (n1 <= fuel)%nat ->
      i2c_read_regs fuel dev address reg length s
      = i2c_read_bytes fuel dev address length s2.
Proof.
  intros Hdev Hstart Hr Htc.
  assert (W : cwp (fun fuel =>
                     r' <- _start fuel dev address I2C_FLAG_WRITE ;;
                     set_bus_result r' ;;
                     _clear_addr dev ;; wr dev DR reg ;; _stop fuel dev)
                  (fun _ s2 => exists x y tc a,
                       frame s1 s2 (EvRead dev SR1 x :: EvRead dev SR2 y
                                    :: EvWrite dev DR reg
                                    :: tc ++ [EvUpdate dev CR2 a
                                                (Z.lor a I2C_CR2_STOP)]) /\
                       poll_trace dev ISR (is_set I2C_ISR_TC) tc) s).
  { cwp_split. apply (cwp_start _ _ _ _ _ _ _ _ Hstart).
    cwp_step.
    unfold _clear_addr.
    cwp_split. apply cwp_const. wp_step. wp_step. wp_prim.
    cwp_step.
    apply cwp_stop; [exact Htc|]. intros st tc a Ptc Ft.
    frame_chain.
    match goal with F : frame s1 _ _ |- _ =>
      repeat rewrite <- app_assoc in F; simpl in F end.
    do 4 eexists. split; eassumption. }
  destruct W as ([] & s2 & (n1 & C) & x & y & tc & a & (T & D & _) & Ptc).
  exists (Nat.max n0 n1), s2, x, y, tc, a.
  split; [exact T|]. split; [exact Ptc|].
  split; [rewrite D; exact (start_keeps_data _ _ _ _ _ _ _ Hstart)|].
  intros fuel Hf.
  specialize (C fuel ltac:(lia)).
  pose proof (mono_start dev address I2C_FLAG_WRITE n0 fuel s r s1 Hstart ltac:(lia))
    as Es.
  unfold i2c_read_regs.
  destruct (Z.leb_spec I2C_NUMOF (uint32 dev)); [lia|].
  unfold bind in C |- *. rewrite Es in C |- *.
  unfold set_bus_result, lift in C |- *.
  destruct (Z.ltb_spec r 0); [lia|].
  destruct (_clear_addr dev (with_bus_result r s1)) as [u sa|sa]; [|discriminate].
  destruct (wr dev DR reg sa) as [u' sb|sb]; [|discriminate].
  rewrite C. reflexivity.
Qed.

(** ** Short reads *)

(** X10: a successful 1-byte read takes one byte from the data register,
    after a read of status register 1 that shows receive-not-empty, and
    stores it at position 0 of the buffer; nothing else in the buffer
    changes and 1 is returned. *)
Theorem read_one_byte_delivers dev address n0 s r s1 :
  uint32 dev < I2C_NUMOF ->
  _start n0 dev address I2C_FLAG_READ s = Ret r s1 ->
  0 <= r ->
  answers dev SR1 (is_set I2C_SR1_RXNE) ->
  answers dev CR1 (is_clear I2C_CR1_STOP) ->
  exists fuel s' tr v,
    i2c_read_bytes fuel dev address 1 s = Ret 1 s' /\
    trace s' = trace s1 ++ tr /\
    reads_of dev DR tr = [v] /\
    stores tr = [(0, uint8 v)] /\
    my_data s' 0 = uint8 v /\
    (forall j, j <> 0 -> my_data s' j = my_data s j).
Proof.
  intros Hdev Hstart Hr Hrxne Hstop.
  assert (W : cwp (fun fuel => i2c_read_bytes fuel dev address 1)
                  (fun res s' => res = 1 /\
                     exists tr v,
                       dframe s1 s' tr /\
                       reads_of dev DR tr = [v] /\
                       stores tr = [(0, uint8 v)]) s).
  { unfold i2c_read_bytes.
    destruct (Z.leb_spec I2C_NUMOF (uint32 dev)); [lia|].
    change (1 =? 1) with true. cbv iota.
    cwp_split. apply (cwp_start _ _ _ _ _ _ _ _ Hstart).
    cwp_step.
    destruct (Z.ltb_spec r 0); [lia|].
    cwp_step. cwp_step.
    unfold _clear_addr.
    cwp_split. apply cwp_const. wp_step. wp_step. wp_prim.
    cwp_step. cwp_step.
    cwp_wait Hrxne.
    cwp_step. cwp_store_d.
    cwp_wait Hstop.
    cwp_step.
    apply cwp_const, wp_ret. split; [reflexivity|].
    match goal with
    | P0 : poll_trace _ SR1 _ ?t0, P1 : poll_trace _ CR1 _ ?t1 |- _ =>
        pose proof (poll_reads_other _ _ DR _ _ P0 eq_refl) as R0;
        pose proof (poll_reads_other _ _ DR _ _ P1 eq_refl) as R1;
        pose proof (poll_stores _ _ _ _ P0) as S0;
        pose proof (poll_stores _ _ _ _ P1) as S1
    end.
    to_dframes. dframe_chain.
    match goal with
    | D : dframe s1 _ ?t |- _ =>
        repeat rewrite <- app_assoc in D; simpl in D
    end.
    eexists. eexists. split; [eassumption|]. split.
    - split_trace. rewrite R0, R1.
      cbn [reads_of flat_map app reg_eqb]. rewrite ?andb_false_r, ?Z.eqb_refl.
      cbn [app andb]. reflexivity.
    - split_trace. rewrite S0, S1. reflexivity. }
  apply cwp_run in W.
  destruct W as (fuel & res & s' & E & -> & tr & v & (T & D) & Rd & St).
  exists fuel, s', tr, v.
  split; [exact E|]. split; [exact T|]. split; [exact Rd|]. split; [exact St|].
  rewrite D, St, (start_keeps_data _ _ _ _ _ _ _ Hstart).
  unfold apply_stores. cbn [fold_left fst snd]. split; [reflexivity|].
  intros j Hj. destruct (Z.eqb_spec j 0); [contradiction | reflexivity].
Qed.

(** X11: a successful 2-byte read takes two bytes from the data
    register, both after the byte-transfer-complete flag was seen, and
    stores them at positions 0 and 1 in the order they were read; nothing
    else in the buffer changes and 2 is returned. *)
Theorem read_two_bytes_deliver dev address n0 s r s1 :
  uint32 dev < I2C_NUMOF ->
  _start n0 dev address I2C_FLAG_READ s = Ret r s1 ->
  0 <= r ->
  answers dev SR1 (is_set I2C_SR1_BTF) ->
  answers dev CR1 (is_clear I2C_CR1_STOP) ->
  exists fuel s' pre btf post va vb,
    i2c_read_bytes fuel dev address 2 s = Ret 2 s' /\
    trace s' = trace s1 ++ pre ++ btf ++ post /\
    poll_trace dev SR1 (is_set I2C_SR1_BTF) btf /\
    reads_of dev DR (pre ++ btf) = [] /\
    reads_of dev DR post = [va; vb] /\
    stores (pre ++ btf ++ post) = [(0, uint8 va); (1, uint8 vb)] /\
    my_data s' 0 = uint8 va /\
    my_data s' 1 = uint8 vb /\
    (forall j, j <> 0 -> j <> 1 -> my_data s' j = my_data s j).
Proof.
  intros Hdev Hstart Hr Hbtf Hstop.
  assert (W : cwp (fun fuel => i2c_read_bytes fuel dev address 2)
                  (fun res s' => res = 2 /\
                     exists pre btf post va vb,
                       dframe s1 s' (pre ++ btf ++ post) /\
                       poll_trace dev SR1 (is_set I2C_SR1_BTF) btf /\
                       reads_of dev DR pre = [] /\ stores pre = [] /\
                       reads_of dev DR post = [va; vb] /\
                       stores post = [(0, uint8 va); (1, uint8 vb)]) s).
  { unfold i2c_read_bytes.
    destruct (Z.leb_spec I2C_NUMOF (uint32 dev)); [lia|].
    change (2 =? 1) with false. change (2 =? 2) with true. cbv iota.
    cwp_split. apply (cwp_start _ _ _ _ _ _ _ _ Hstart).
    cwp_step.
    destruct (Z.ltb_spec r 0); [lia|].
    cwp_step. cwp_step.
    unfold _clear_addr.
    cwp_split. apply cwp_const. wp_step. wp_step. wp_prim.
    cwp_step. cwp_step.
    cwp_wait Hbtf.
    cwp_step. cwp_step. cwp_step. cwp_store_d. cwp_step. cwp_step. cwp_store_d.
    cwp_wait Hstop.
    cwp_step. cwp_step.
    apply cwp_const, wp_ret. split; [reflexivity|].
    match goal with
    | P1 : poll_trace _ CR1 _ ?t1 |- _ =>
        pose proof (poll_reads_other _ _ DR _ _ P1 eq_refl) as R1;
        pose proof (poll_stores _ _ _ _ P1) as S1
    end.
    match goal with
    | P0 : poll_trace _ SR1 _ ?t0 |- _ => rename P0 into Pb
    end.
    to_dframes. dframe_chain.
    match goal with
    | D : dframe s1 _ _ |- _ =>
        repeat rewrite <- app_assoc in D; simpl in D;
        match type of D with
        | dframe _ _ (?e1 :: ?e2 :: ?e3 :: ?e4 :: ?b ++ ?post) =>
            exists [e1; e2; e3; e4], b, post
        end
    end.
    do 2 eexists.
    split; [simpl; eassumption|].
    split; [exact Pb|].
    split; [cbn [reads_of flat_map app reg_eqb]; rewrite ?andb_false_r; reflexivity|].
    split; [reflexivity|].
    split.
    - split_trace. rewrite R1.
      cbn [reads_of flat_map app reg_eqb]. rewrite ?andb_false_r, ?Z.eqb_refl.
      cbn [app andb]. reflexivity.
    - split_trace. rewrite S1. reflexivity. }
  apply cwp_run in W.
  destruct W as (fuel & res & s' & E & -> & pre & btf & post & va & vb
                 & (T & D) & Pb & Rpre & Spre & Rpost & Spost).
  pose proof (poll_reads_other _ _ DR _ _ Pb eq_refl) as Rb.
  pose proof (poll_stores _ _ _ _ Pb) as Sb.
  assert (Sall : stores (pre ++ btf ++ post) = [(0, uint8 va); (1, uint8 vb)]).
  { rewrite !stores_app, Spre, Sb, Spost. reflexivity. }
  exists fuel, s', pre, btf, post, va, vb.
  split; [exact E|]. split; [exact T|]. split; [exact Pb|].
  split; [rewrite reads_of_app, Rpre, Rb; reflexivity|].
  split; [exact Rpost|]. split; [exact Sall|].
  rewrite D, Sall, (start_keeps_data _ _ _ _ _ _ _ Hstart).
  unfold apply_stores. cbn [fold_left fst snd]. repeat split.
  intros j H0 H1.
  destruct (Z.eqb_spec j 1); [contradiction|].
  destruct (Z.eqb_spec j 0); [contradiction | reflexivity].
Qed.

(** ** A start phase the handler cannot disturb *)

Lemma irq_point_calm s : calm s -> irq_point s = s.
Proof.
  unfold calm, irq_point. intros [H|H]; [rewrite H; reflexivity|].
  rewrite H. destruct (irq_enabled s); reflexivity.
Qed.

Lemma calm_with_hw h s : calm s -> calm (with_hw h s).
Proof. unfold calm. simpl. auto. Qed.

Lemma calm_emit e s : calm s -> calm (emit e s).
Proof. unfold calm. simpl. auto. Qed.

Lemma wp_rd_calm i2c r (Q : Z -> State -> Prop) s :
  calm s ->
  (forall v s', calm s' -> i2c_bus_error s' = i2c_bus_error s -> Q v s') ->
  wp (rd i2c r) Q s.
Proof.
  intros C H. unfold wp, rd, raw_read. rewrite (irq_point_calm s C).
  destruct (hw_read i2c r (st_hw s)) as [v h].
  apply H; [apply calm_emit, calm_with_hw, C | reflexivity].
Qed.

Lemma wp_wr_calm i2c r v (Q : unit -> State -> Prop) s :
  calm s ->
  (forall s', calm s' -> i2c_bus_error s' = i2c_bus_error s -> Q tt s') ->
  wp (wr i2c r v) Q s.
Proof.
  intros C H. unfold wp, wr, raw_write. rewrite (irq_point_calm s C).
  apply H; [apply calm_emit, calm_with_hw, C | reflexivity].
Qed.

Lemma wp_update_calm i2c r f (Q : unit -> State -> Prop) s :
  calm s ->
  (forall s', calm s' -> i2c_bus_error s' = i2c_bus_error s -> Q tt s') ->
  wp (update i2c r f) Q s.
Proof.
  intros C H. unfold wp, update, raw_read, raw_write.
  rewrite (irq_point_calm s C).
  destruct (hw_read i2c r (st_hw s)) as [v h].
  rewrite (irq_point_calm _ (calm_with_hw h s C)).
  apply H; [apply calm_emit, calm_with_hw, calm_with_hw, C | reflexivity].
Qed.

Lemma wp_now_calm (Q : Z -> State -> Prop) s :
  calm s ->
  (forall t s', calm s' -> i2c_bus_error s' = i2c_bus_error s -> Q t s') ->
  wp xtimer_now_usec Q s.
Proof.
  intros C H. unfold wp, xtimer_now_usec. rewrite (irq_point_calm s C).
  destruct (hw_now (st_hw s)) as [t h].
  apply H; [apply calm_emit, calm_with_hw, C | reflexivity].
Qed.

Lemma wp_reset_calm i2c (Q : unit -> State -> Prop) s :
  calm s ->
  (forall s', calm s' -> i2c_bus_error s' = i2c_bus_error s -> Q tt s') ->
  wp (_i2c_reset i2c) Q s.
Proof.
  intros C H. unfold _i2c_reset, _i2c_init, set_bits, clear_bits.
  apply wp_bind, wp_lift.
  apply wp_bind, wp_rd_calm; [apply calm_emit, C|]. intros v s1 C1 E1.
  apply wp_bind, wp_update_calm; [exact C1|]. intros s2 C2 E2.
  apply wp_bind, wp_update_calm; [exact C2|]. intros s3 C3 E3.
  apply wp_bind, wp_update_calm; [exact C3|]. intros s4 C4 E4.
  apply wp_bind, wp_update_calm; [exact C4|]. intros s5 C5 E5.
  apply wp_bind, wp_wr_calm; [exact C5|]. intros s6 C6 E6.
  apply wp_bind, wp_update_calm; [exact C6|]. intros s7 C7 E7.
  apply wp_bind, wp_wr_calm; [exact C7|]. intros s8 C8 E8.
  apply wp_update_calm; [exact C8|]. intros s9 C9 E9.
  apply H; [exact C9|].
  rewrite E9, E8, E7, E6, E5, E4, E3, E2, E1. reflexivity.
Qed.

Lemma poll_calm i2c r p : forall n s,
  calm s ->
  wpr (poll n i2c r p)
      (fun _ s' => calm s' /\ i2c_bus_error s' = i2c_bus_error s) (fun _ => True) s.
Proof.
  induction n as [|n IH]; intros s C; [exact I|].
  simpl. apply wpr_bind, wp_wpr, wp_rd_calm; [exact C|]. intros v s1 C1 E1.
  destruct (p v).
  - apply wp_wpr, wp_ret. auto.
  - apply (wpr_mono _ _ _ _ _ (IH s1 C1)). intros a s' [C' E']. split; [exact C'|].
    rewrite E', E1. reflexivity.
Qed.

Lemma wait_ready_calm i2c t0 : forall fuel s,
  calm s ->
  wpr (wait_ready fuel i2c t0) (fun _ s' => calm s') (fun _ => True) s.
Proof.
  induction fuel as [|f IH]; intros s C; [exact I|].
  simpl. apply wpr_bind, wp_wpr, wp_rd_calm; [exact C|]. intros v s1 C1 _.
  destruct (Z.land v I2C_SR2_BUSY =? 0).
  - apply wp_wpr, wp_ret. exact C1.
  - apply wpr_bind, wp_wpr, wp_now_calm; [exact C1|]. intros t s2 C2 _.
    apply wpr_bind.
    destruct (100000 <? uint32 (t - t0)).
    + apply wp_wpr, wp_reset_calm; [exact C2|]. intros s3 C3 _. apply IH, C3.
    + apply wp_wpr, wp_ret. apply IH, C2.
Qed.

Lemma wait_addr_calm i2c : forall fuel s,
  calm s -> i2c_bus_error s = 0 ->
  wpr (wait_addr fuel i2c)
      (fun r s' => r = 0 /\ i2c_bus_error s' = 0) (fun _ => True) s.
Proof.
  induction fuel as [|f IH]; intros s C E; [exact I|].
  simpl. apply wpr_bind, wp_wpr, wp_rd_calm; [exact C|]. intros v s1 C1 E1.
  destruct (Z.land v I2C_SR1_ADDR =? 0).
  - apply wpr_bind, wp_wpr. unfold wp, get_bus_error.
    rewrite (irq_point_calm s1 C1), E1, E. simpl.
    apply IH; [exact C1 | rewrite E1; exact E].
  - apply wp_wpr, wp_ret. split; [reflexivity | rewrite E1; exact E].
Qed.

(** X12: when the error handler cannot run during a start phase, because
    the caller masked interrupts or because the error line stays silent,
    the start phase never reports a failure: if it returns, it returns 0
    and the fault variable is 0, whatever code an earlier transaction had
    left there.  (An unacknowledged address then keeps it polling.) *)
Theorem start_without_handler_never_fails i2c address rw_flag fuel s r s' :
  calm s ->
  _start fuel i2c address rw_flag s = Ret r s' ->
  r = 0 /\ i2c_bus_error s' = 0.
Proof.
  intros C E.
  assert (W : wpr (_start fuel i2c address rw_flag)
                  (fun r s' => r = 0 /\ i2c_bus_error s' = 0) (fun _ => True) s).
  { unfold _start, start_send.
    apply wpr_bind, wpr_bind, wp_wpr, wp_now_calm; [exact C|]. intros t0 s1 C1 _.
    apply wpr_bind.
    apply (wpr_mono _ _ _ _ _ (wait_ready_calm i2c t0 fuel s1 C1)). intros u2 s2 C2.
    apply wpr_bind, wp_wpr. unfold set_bits.
    apply wp_update_calm; [exact C2|]. intros s3 C3 _.
    apply wpr_bind. unfold wait_set.
    apply (wpr_mono _ _ _ _ _ (poll_calm i2c SR1 _ fuel s3 C3)). intros u4 s4 [C4 _].
    apply wpr_bind, wp_wpr. unfold wp, set_bus_error.
    rewrite (irq_point_calm s4 C4).
    assert (C5 : calm (with_bus_error 0 s4)) by (unfold calm in *; simpl; exact C4).
    apply wp_wpr, wp_wr_calm; [exact C5|]. intros s6 C6 E6.
    apply wait_addr_calm; [exact C6 | rewrite E6; reflexivity]. }
  unfold wpr in W. rewrite E in W. exact W.
Qed.

(** ** The error handler *)

Lemma on_flag_skip status m body (x : State) :
  Z.land status m = 0 -> on_flag status m body x = x.
Proof. intro H. unfold on_flag. rewrite H. reflexivity. Qed.

Lemma on_flag_record_hw status m c (x : State) :
  st_hw (on_flag status m (record_fault c) x) = st_hw x.
Proof. unfold on_flag. destruct (Z.land status m =? 0); reflexivity. Qed.

(** X13: what one run of the error handler does to the fault variable.
    It assigns the code of each fault whose bit is set in the status word
    it read, in the order OVR, NACKF, ARLO, BERR, PECERR, TIMEOUT, ALERT,
    so the last one present is the one that remains; with no fault bit
    set the variable keeps its value; the handler never brings it back to
    0.  It writes to the controller only to acknowledge NACKF or ARLO:
    with both clear, the device has seen the one status read and nothing
    else. *)
Theorem handler_last_write_wins i2c s :
  let status := fst (raw_read i2c ISR s) in
  fault_log (_i2c_irq i2c s) = fault_log s ++ map fault_code (faults_in status) /\
  i2c_bus_error (_i2c_irq i2c s)
  = last (map fault_code (faults_in status)) (i2c_bus_error s) /\
  (faults_in status = [] -> i2c_bus_error (_i2c_irq i2c s) = i2c_bus_error s) /\
  (i2c_bus_error (_i2c_irq i2c s) = 0 -> i2c_bus_error s = 0) /\
  (Z.land status I2C_ISR_NACKF = 0 -> Z.land status I2C_ISR_ARLO = 0 ->
   st_hw (_i2c_irq i2c s) = snd (hw_read i2c ISR (st_hw s))).
Proof.
  cbv zeta. destruct (irq_handler_log i2c s) as [L E].
  split; [exact L|]. split; [exact E|]. split; [|split].
  - intro H. rewrite E, H. reflexivity.
  - rewrite E. destruct (faults_in (fst (raw_read i2c ISR s))) as [|k l] eqn:F.
    + simpl. auto.
    + intro H. pose proof (last_codes_range (k :: l) (i2c_bus_error s)) as R.
      rewrite H in R. assert (k :: l <> []) by discriminate. specialize (R H0). lia.
  - unfold _i2c_irq, raw_read.
    destruct (hw_read i2c ISR (st_hw s)) as [v h]. simpl fst. simpl snd.
    intros Hn Ha. cbv zeta.
    rewrite (on_flag_skip _ I2C_ISR_NACKF _ _ Hn), (on_flag_skip _ I2C_ISR_ARLO _ _ Ha).
    rewrite !on_flag_record_hw. reflexivity.
Qed.

(** ** Power *)

(** X14: powering a bus off waits, by reading status register 2, until
    the busy flag reads clear, and only then gates the peripheral clock
    off; it accesses nothing else. *)
Theorem poweroff_waits_for_idle dev s :
  uint32 dev < I2C_NUMOF ->
  answers dev SR2 (is_clear I2C_SR2_BUSY) ->
  exists fuel s' tr,
    i2c_poweroff fuel dev s = Ret tt s' /\
    trace s' = trace s ++ tr ++ [EvExt (periph_clk_dis dev)] /\
    poll_trace dev SR2 (is_clear I2C_SR2_BUSY) tr.
Proof.
  intros Hdev Hbusy.
  assert (W : cwp (fun fuel => i2c_poweroff fuel dev)
                  (fun _ s' => exists tr,
                       trace s' = trace s ++ tr ++ [EvExt (periph_clk_dis dev)] /\
                       poll_trace dev SR2 (is_clear I2C_SR2_BUSY) tr) s).
  { unfold i2c_poweroff.
    destruct (Z.ltb_spec (uint32 dev) I2C_NUMOF); [|lia].
    cwp_wait Hbusy. apply cwp_const. wp_prim.
    eexists. split; [|eassumption].
    unwind_trace. reflexivity. }
  apply cwp_run in W. destruct W as (fuel & [] & s' & E & tr & T & P).
  exists fuel, s', tr. auto.
Qed.

Lemma poll_stuck i2c r p :
  (forall h, p (uint32 (fst (hw_read i2c r h))) = false) ->
  forall n s,
    wpr (poll n i2c r p) (fun _ _ => False)
        (fun s' => exists tr, trace s' = trace s ++ tr /\
                              Forall (fun e => exists v, e = EvRead i2c r v) tr) s.
Proof.
  intros Hp. induction n as [|n IH]; intro s.
  - simpl. exists []. rewrite app_nil_r. auto.
  - simpl. apply wpr_bind, wp_wpr, wp_rd_hw. intros v s1 (h & ->) (T1 & _).
    rewrite Hp.
    specialize (IH s1). unfold wpr in *.
    destruct (poll n i2c r p s1) as [|s2]; [exact IH|].
    destruct IH as (tr & T & F).
    exists (EvRead i2c r (uint32 (fst (hw_read i2c r h))) :: tr). split.
    + rewrite T, T1, <- app_assoc. reflexivity.
    + constructor; [eauto | exact F].
Qed.

(** X15: on a bus whose busy flag never clears, powering off never
    completes: however many polls are allowed, the call has not returned,
    it has only read status register 2, and the peripheral clock is still
    on. *)
Theorem poweroff_on_busy_bus_never_returns dev fuel s :
  uint32 dev < I2C_NUMOF ->
  (forall h, Z.land (uint32 (fst (hw_read dev SR2 h))) I2C_SR2_BUSY <> 0) ->
  exists s' tr,
    i2c_poweroff fuel dev s = Hang s' /\
    trace s' = trace s ++ tr /\
    Forall (fun e => exists v, e = EvRead dev SR2 v) tr.
Proof.
  intros Hdev Hbusy.
  assert (W : wpr (i2c_poweroff fuel dev) (fun _ _ => False)
                  (fun s' => exists tr, trace s' = trace s ++ tr /\
                       Forall (fun e => exists v, e = EvRead dev SR2 v) tr) s).
  { unfold i2c_poweroff.
    destruct (Z.ltb_spec (uint32 dev) I2C_NUMOF); [|lia].
    apply wpr_bind. unfold wait_clear.
    pose proof (poll_stuck dev SR2 (fun v => Z.land v I2C_SR2_BUSY =? 0)) as P.
    assert (Hp : forall h, (Z.land (uint32 (fst (hw_read dev SR2 h))) I2C_SR2_BUSY =? 0)
                           = false).
    { intro h. apply Z.eqb_neq, Hbusy. }
    specialize (P Hp fuel s). unfold wpr in *.
    destruct (poll fuel dev SR2 _ s); [elim P | exact P]. }
  apply wpr_hangs in W. destruct W as (s' & E & tr & T & F).
  exists s', tr. auto.
Qed.

(** ** Configuration sequence *)

Lemma not32_bit m n :
  0 <= n < 32 -> Z.testbit (not32 m) n = negb (Z.testbit m n).
Proof.
  intro Hn. unfold not32, uint32.
  rewrite Z.mod_pow2_bits_low by lia. apply Z.lnot_spec. lia.
Qed.

(** X16: the statement that configures the analog filter ORs the
    control register with the complement of [ANFOFF].  The value it
    writes, before the timing register is written, has a one in each of
    the 32 bit positions outside [ANFOFF], whatever the register held. *)
Theorem init_sets_all_but_anfoff i2c timing s :
  exists a b c d s',
    _i2c_init i2c timing s = Ret tt s' /\
    trace s' = trace s ++ init_trace i2c timing a b c d /\
    forall n, 0 <= n < 32 ->
              Z.testbit I2C_CR1_ANFOFF n = false ->
              Z.testbit (Z.lor b (not32 I2C_CR1_ANFOFF)) n = true.
Proof.
  assert (W : wp (_i2c_init i2c timing)
                (fun _ s' => exists a b c d,
                     trace s' = trace s ++ init_trace i2c timing a b c d) s).
  { apply wp_i2c_init. intros a b c d s' (T & _). exists a, b, c, d. exact T. }
  apply wp_returns in W. destruct W as ([] & s' & E & a & b & c & d & T).
  exists a, b, c, d, s'. split; [exact E|]. split; [exact T|].
  intros n Hn Hbit. rewrite Z.lor_spec, not32_bit, Hbit by exact Hn.
  apply orb_true_r.
Qed.

(** ** The tail of an N-byte read *)

Lemma poll_untouched i2c r p j q tr :
  poll_trace i2c r p tr -> reg_eqb r q = false ->
  Forall (fun e => touches j q e = false) tr.
Proof.
  intros (pre & v & -> & _ & Hpre) Hq. apply Forall_app. split.
  - eapply Forall_impl; [|exact Hpre]. intros e (u & -> & _).
    simpl. rewrite Hq. apply andb_false_r.
  - constructor; [|constructor]. simpl. rewrite Hq. apply andb_false_r.
Qed.

Lemma poll_wpr i2c r p n s :
  wpr (poll n i2c r p)
      (fun _ s' => exists tr, poll_trace i2c r p tr /\ frame s s' tr)
      (fun _ => True) s.
Proof.
  unfold wpr. destruct (poll n i2c r p s) as [[] s'|] eqn:E; [|exact I].
  exact (poll_frame _ _ _ _ _ _ E).
Qed.

(** The streaming loop reads status register 1 and the data register and
    stores into the buffer; it does not touch the control register. *)
Lemma read_stream_untouched dev length fuel : forall n i s,
  wpr (read_stream fuel n dev length i)
      (fun _ s' => exists tr, trace s' = trace s ++ tr /\
                              Forall (fun e => touches dev CR1 e = false) tr)
      (fun _ => True) s.
Proof.
  induction n as [|n IH]; intros i s; rewrite read_stream_unfold;
    destruct (i <? int32 (length - 3)).
  - exact I.
  - apply wp_wpr, wp_ret. exists []. rewrite app_nil_r. auto.
  - apply wpr_bind. unfold wait_set.
    apply (wpr_mono _ _ _ _ _ (poll_wpr dev SR1 _ fuel s)).
    intros u s1 (tr1 & P1 & (T1 & _)).
    apply wpr_bind, wp_wpr, wp_rd. intros v s2 _ (T2 & _).
    apply wpr_bind, wp_wpr, wp_store. intros s3 T3 _ _.
    apply (wpr_mono _ _ _ _ _ (IH (i + 1) s3)).
    intros i' s' (tr & T & F).
    exists (tr1 ++ [EvRead dev DR v] ++ [EvStore i (uint8 v)] ++ tr). split.
    + rewrite T, T3, T2, T1. repeat rewrite <- app_assoc. reflexivity.
    + apply Forall_app. split; [exact (poll_untouched _ _ _ dev CR1 _ P1 eq_refl)|].
      constructor; [simpl; apply andb_false_r|].
      constructor; [reflexivity | exact F].
  - apply wp_wpr, wp_ret. exists []. rewrite app_nil_r. auto.
Qed.

Lemma cwp_read_stream_untouched dev length (Q : Z -> State -> Prop) s :
  answers dev SR1 (is_set I2C_SR1_RXNE) ->
  (forall s' tr,
      trace s' = trace s ++ tr ->
      Forall (fun e => touches dev CR1 e = false) tr ->
      Q (Z.of_nat (Z.to_nat (int32 (length - 3)))) s') ->
  cwp (fun n => read_stream n n dev length 0) Q s.
Proof.
  intros Hrxne H.
  destruct (read_stream_spec dev length Hrxne (Z.to_nat (int32 (length - 3))) 0 s)
    as (n0 & s' & tr & E & _ & _ & _); [f_equal; lia|].
  exists (Z.of_nat (Z.to_nat (int32 (length - 3)))), s'. split.
  - exists n0. intros n Hn. apply E; assumption.
  - pose proof (read_stream_untouched dev length n0 n0 0 s) as W.
    unfold wpr in W. rewrite (E n0 n0) in W by lia.
    destruct W as (tr' & T & F). exact (H s' tr' T F).
Qed.

(** X17: in the read path taken for every length other than 1 and 2,
    the control register is not accessed between the end of the start
    phase and the moment the byte-transfer-complete flag is seen.  What
    follows is, in this order: ACK cleared, a byte taken from the data
    register, STOP set, a second byte taken, the receive-not-empty wait,
    the last byte taken, the wait for STOP to read clear, POS cleared and
    ACK set. *)
Theorem read_default_tail_sequence dev address length n0 s r s1 :
  uint32 dev < I2C_NUMOF ->
  _start n0 dev address I2C_FLAG_READ s = Ret r s1 ->
  0 <= r ->
  length <> 1 -> length <> 2 ->
  answers dev SR1 (is_set I2C_SR1_RXNE) ->
  answers dev SR1 (is_set I2C_SR1_BTF) ->
  answers dev CR1 (is_clear I2C_CR1_STOP) ->
  exists fuel s' pre btf a va i b vb rxne vc stop c d,
    i2c_read_bytes fuel dev address length s = Ret length s' /\
    trace s' = trace s1 ++ pre ++ btf
                 ++ EvUpdate dev CR1 a (Z.land a (not32 I2C_CR1_ACK))
                 :: EvRead dev DR va :: EvStore i (uint8 va)
                 :: EvUpdate dev CR1 b (Z.lor b I2C_CR1_STOP)
                 :: EvRead dev DR vb :: EvStore (i + 1) (uint8 vb)
                 :: rxne
                 ++ EvRead dev DR vc :: EvStore (i + 2) (uint8 vc)
                 :: stop
                 ++ [EvUpdate dev CR1 c (Z.land c (not32 I2C_CR1_POS));
                     EvUpdate dev CR1 d (Z.lor d I2C_CR1_ACK)] /\
    Forall (fun e => touches dev CR1 e = false) (pre ++ btf) /\
    poll_trace dev SR1 (is_set I2C_SR1_BTF) btf /\
    poll_trace dev SR1 (is_set I2C_SR1_RXNE) rxne /\
    poll_trace dev CR1 (is_clear I2C_CR1_STOP) stop.
Proof.
  intros Hdev Hstart Hr Hl1 Hl2 Hrxne Hbtf Hstop.
  assert (W : cwp (fun fuel => i2c_read_bytes fuel dev address length)
                  (fun res s' => res = length /\
                     exists pre btf a va i b vb rxne vc stop c d,
                       trace s' = trace s1 ++ pre ++ btf
                         ++ EvUpdate dev CR1 a (Z.land a (not32 I2C_CR1_ACK))
                         :: EvRead dev DR va :: EvStore i (uint8 va)
                         :: EvUpdate dev CR1 b (Z.lor b I2C_CR1_STOP)
                         :: EvRead dev DR vb :: EvStore (i + 1) (uint8 vb)
                         :: rxne
                         ++ EvRead dev DR vc :: EvStore (i + 2) (uint8 vc)
                         :: stop
                         ++ [EvUpdate dev CR1 c (Z.land c (not32 I2C_CR1_POS));
                             EvUpdate dev CR1 d (Z.lor d I2C_CR1_ACK)] /\
                       Forall (fun e => touches dev CR1 e = false) (pre ++ btf) /\
                       poll_trace dev SR1 (is_set I2C_SR1_BTF) btf /\
                       poll_trace dev SR1 (is_set I2C_SR1_RXNE) rxne /\
                       poll_trace dev CR1 (is_clear I2C_CR1_STOP) stop) s).
  { unfold i2c_read_bytes.
    destruct (Z.leb_spec I2C_NUMOF (uint32 dev)); [lia|].
    destruct (Z.eqb_spec length 1); [contradiction|].
    destruct (Z.eqb_spec length 2); [contradiction|].
    cwp_split. apply (cwp_start _ _ _ _ _ _ _ _ Hstart).
    cwp_step.
    destruct (Z.ltb_spec r 0); [lia|].
    unfold _clear_addr.
    cwp_split. apply cwp_const. wp_step. wp_step. wp_prim.
    cwp_split. apply cwp_read_stream_untouched; [exact Hrxne|].
    intros sk trk Tk Fk. cbv beta.
    cwp_split. apply cwp_wait_set; [exact Hbtf|]. intros tb sb Pb Fb. cbv beta.
    cwp_step. cwp_step. cwp_step. cwp_store. cwp_step. cwp_step.
    cwp_step. cwp_store.
    cwp_split. apply cwp_wait_set; [exact Hrxne|]. intros tx sx Px Fx. cbv beta.
    cwp_step. cwp_store.
    cwp_split. apply cwp_wait_clear; [exact Hstop|]. intros tp sp Pp Fp. cbv beta.
    cwp_step. cwp_step.
    apply cwp_const, wp_ret. split; [reflexivity|].
    pose proof (poll_untouched _ _ _ dev CR1 _ Pb eq_refl) as Ub.
    unwind_trace.
    match goal with
    | |- context [trace s1 ++ ?e1 :: ?e2 :: trk ++ tb ++ _] =>
        exists (e1 :: e2 :: trk), tb
    end.
    do 5 eexists. exists tx. eexists. exists tp. do 2 eexists.
    split; [simpl; rewrite <- ?app_assoc; reflexivity|].
    split; [|auto].
    simpl. constructor; [simpl; apply andb_false_r|].
    constructor; [simpl; apply andb_false_r|].
    apply Forall_app. auto. }
  apply cwp_run in W.
  destruct W as (fuel & res & s' & E & -> & pre & btf & a & va & i & b & vb & rxne
                 & vc & stop & c & d & W).
  exists fuel, s', pre, btf, a, va, i, b, vb, rxne, vc, stop, c, d. auto.
Qed.

(** ** When the bus is reset *)

Lemma poll_no_reset i2c r p t0 tr :
  poll_trace i2c r p tr -> resets tr = 0%nat /\ late_polls t0 tr = 0%nat.
Proof.
  intros (pre & v & -> & _ & Hpre). rewrite resets_app, late_polls_app.
  assert (H : resets pre = 0%nat /\ late_polls t0 pre = 0%nat).
  { induction Hpre as [|e l (u & -> & _) _ IH]; [split; reflexivity | exact IH]. }
  destruct H as [-> ->]. split; reflexivity.
Qed.

Lemma wait_ready_resets i2c time_now fuel : forall s,
  wpr (wait_ready fuel i2c time_now)
      (fun _ s' => exists tr, trace s' = trace s ++ tr /\
                              resets tr = late_polls time_now tr)
      (fun _ => True) s.
Proof.
  induction fuel as [|f IH]; intro s; [exact I|].
  simpl. apply wpr_bind, wp_wpr, wp_rd. intros v s1 _ (T1 & _).
  destruct (Z.land v I2C_SR2_BUSY =? 0).
  - apply wp_wpr, wp_ret. exists [EvRead i2c SR2 v]. split; [exact T1 | reflexivity].
  - apply wpr_bind, wp_wpr, wp_now. intros t s2 _ (T2 & _).
    apply wpr_bind.
    destruct (100000 <? uint32 (t - time_now)) eqn:Late.
    + apply wp_wpr, wp_i2c_reset. intros v0 a b c d e g s3 _ (T3 & _).
      apply (wpr_mono _ _ _ _ _ (IH s3)). intros u s' (tr & T & R).
      eexists. split.
      * rewrite T, T3, T2, T1. repeat rewrite <- app_assoc. reflexivity.
      * simpl app. unfold late_polls, resets in *. simpl. rewrite Late. simpl.
        rewrite R. reflexivity.
    + apply wp_wpr, wp_ret.
      apply (wpr_mono _ _ _ _ _ (IH s2)). intros u s' (tr & T & R).
      eexists. split.
      * rewrite T, T2, T1. repeat rewrite <- app_assoc. reflexivity.
      * simpl app. unfold late_polls, resets in *. simpl. rewrite Late. exact R.
Qed.

(** X18: up to the moment the address byte is sent, [_start] resets the
    bus only from its busy wait, once for each timer reading that is more
    than 100 ms after the first one [t0]; a bus found free within 100 ms
    is not reset. *)
Theorem start_send_resets_on_late_polls i2c address rw_flag fuel s s' :
  start_send fuel i2c address rw_flag s = Ret tt s' ->
  exists t0 tr,
    trace s' = trace s ++ EvNow t0 :: tr /\
    resets tr = late_polls t0 tr /\
    (late_polls t0 tr = 0%nat -> resets (EvNow t0 :: tr) = 0%nat).
Proof.
  intro E.
  assert (W : wpr (start_send fuel i2c address rw_flag)
                  (fun _ s' => exists t0 tr,
                       trace s' = trace s ++ EvNow t0 :: tr /\
                       resets tr = late_polls t0 tr)
                  (fun _ => True) s).
  { unfold start_send.
    apply wpr_bind, wp_wpr, wp_now. intros t0 s1 _ (T1 & _).
    apply wpr_bind.
    apply (wpr_mono _ _ _ _ _ (wait_ready_resets i2c t0 fuel s1)).
    intros u2 s2 (tr2 & T2 & R2).
    apply wpr_bind, wp_wpr, wp_set_bits. intros a s3 _ (T3 & _).
    apply wpr_bind. unfold wait_set.
    apply (wpr_mono _ _ _ _ _ (poll_wpr i2c SR1 _ fuel s3)).
    intros u4 s4 (tr4 & P4 & (T4 & _)).
    apply wpr_bind, wp_wpr, wp_set_bus_error. intros s5 T5 _ _.
    apply wp_wpr, wp_wr. intros s6 (T6 & _).
    destruct (poll_no_reset _ _ _ t0 _ P4) as [R4 L4].
    exists t0. eexists. split.
    - rewrite T6, T5, T4, T3, T2, T1. repeat rewrite <- app_assoc. reflexivity.
    - rewrite !resets_app, !late_polls_app, R2, R4, L4. reflexivity. }
  unfold wpr in W. rewrite E in W. destruct W as (t0 & tr & T & R).
  exists t0, tr. split; [exact T|]. split; [exact R|].
  intro H. change (resets (EvNow t0 :: tr)) with (resets tr). rewrite R. exact H.
Qed.

(** The address wait, however it ends. *)
Lemma wait_addr_outcome i2c fuel : forall s,
  wpr (wait_addr fuel i2c)
      (fun r s' =>
         exists tr, trace s' = trace s ++ tr /\
           ((r = 0 /\ resets tr = 0%nat /\
             exists pre v, tr = pre ++ [EvRead i2c SR1 v] /\
                           Z.land v I2C_SR1_ADDR <> 0) \/
            (r = -1 /\ resets tr = 1%nat /\
             exists pre v a b c d e f,
               tr = pre ++ reset_trace i2c v a b c d e f)))
      (fun _ => True) s.
Proof.
  induction fuel as [|f IH]; intro s; [exact I|].
  simpl. apply wpr_bind, wp_wpr, wp_rd. intros v s1 _ (T1 & _).
  destruct (Z.eqb_spec (Z.land v I2C_SR1_ADDR) 0) as [Z0|NZ].
  - apply wpr_bind, wp_wpr, wp_get_bus_error. intros s2 (T2 & _).
    rewrite app_nil_r in T2.
    destruct (i2c_bus_error s2 =? 0).
    + apply (wpr_mono _ _ _ _ _ (IH s2)). intros r s' (tr & T & H).
      exists (EvRead i2c SR1 v :: tr). split.
      * rewrite T, T2, T1, <- app_assoc. reflexivity.
      * destruct H as [(-> & R & pre & u & -> & Hu)|(-> & R & pre & u & a & b & c & d & e & g & ->)].
        -- left. split; [reflexivity|]. split; [exact R|].
           exists (EvRead i2c SR1 v :: pre), u. auto.
        -- right. split; [reflexivity|]. split; [exact R|].
           exists (EvRead i2c SR1 v :: pre), u, a, b, c, d, e, g. reflexivity.
    + apply wpr_bind, wp_wpr, wp_i2c_reset. intros u a b c d e g s3 _ (T3 & _).
      apply wp_wpr, wp_ret.
      exists (EvRead i2c SR1 v :: reset_trace i2c u a b c d e g). split.
      * rewrite T3, T2, T1, <- app_assoc. reflexivity.
      * right. split; [reflexivity|]. split; [reflexivity|].
        exists [EvRead i2c SR1 v], u, a, b, c, d, e, g. reflexivity.
  - apply wp_wpr, wp_ret. exists [EvRead i2c SR1 v]. split; [exact T1|].
    left. split; [reflexivity|]. split; [reflexivity|].
    exists [], v. auto.
Qed.

(** X19: how the address wait of [_start] ends.  With 0 the bus has
    not been reset during the wait, and the last access is the read of
    status register 1 that showed the address flag; with -1 the bus has
    been reset exactly once, and the reset sequence is the last thing
    done.  There is no other outcome. *)
Theorem address_wait_outcome i2c fuel s r s' :
  wait_addr fuel i2c s = Ret r s' ->
  exists tr,
    trace s' = trace s ++ tr /\
    ((r = 0 /\ resets tr = 0%nat /\
      exists pre v, tr = pre ++ [EvRead i2c SR1 v] /\ Z.land v I2C_SR1_ADDR <> 0) \/
     (r = -1 /\ resets tr = 1%nat /\
      exists pre v a b c d e f, tr = pre ++ reset_trace i2c v a b c d e f)).
Proof.
  intro E. pose proof (wait_addr_outcome i2c fuel s) as W.
  unfold wpr in W. rewrite E in W. exact W.
Qed.

(** ** The 2-byte read from call to return *)

Lemma passive_never_asserts j q m e : passive e = true -> asserts j q m e = false.
Proof. destruct e; simpl; intro H; try discriminate; reflexivity. Qed.

Lemma resets_cons_passive e tr : passive e = true -> resets (e :: tr) = resets tr.
Proof. destruct e; simpl; intro H; try discriminate; reflexivity. Qed.

(** A busy wait that does not reset the bus only reads. *)
Lemma wait_ready_passive i2c time_now fuel : forall s,
  wpr (wait_ready fuel i2c time_now)
      (fun _ s' => exists tr, trace s' = trace s ++ tr /\
                     (resets tr = 0%nat -> Forall (fun e => passive e = true) tr))
      (fun _ => True) s.
Proof.
  induction fuel as [|f IH]; intro s; [exact I|].
  simpl. apply wpr_bind, wp_wpr, wp_rd. intros v s1 _ (T1 & _).
  destruct (Z.land v I2C_SR2_BUSY =? 0).
  - apply wp_wpr, wp_ret. exists [EvRead i2c SR2 v]. split; [exact T1|].
    intros _. repeat constructor.
  - apply wpr_bind, wp_wpr, wp_now. intros t s2 _ (T2 & _).
    apply wpr_bind.
    destruct (100000 <? uint32 (t - time_now)).
    + apply wp_wpr, wp_i2c_reset. intros u a b c d e g s3 _ (T3 & _).
      apply (wpr_mono _ _ _ _ _ (IH s3)). intros _ s' (tr & T & _).
      exists (EvRead i2c SR2 v :: EvNow t :: reset_trace i2c u a b c d e g ++ tr).
      split.
      * rewrite T, T3, T2, T1. repeat rewrite <- app_assoc. reflexivity.
      * intro R. exfalso.
        change (resets (reset_trace i2c u a b c d e g ++ tr) = 0%nat) in R.
        rewrite resets_app, resets_reset_trace in R. discriminate R.
    + apply wp_wpr, wp_ret.
      apply (wpr_mono _ _ _ _ _ (IH s2)). intros _ s' (tr & T & Hq).
      exists (EvRead i2c SR2 v :: EvNow t :: tr). split.
      * rewrite T, T2, T1. repeat rewrite <- app_assoc. reflexivity.
      * intro R. constructor; [reflexivity|]. constructor; [reflexivity|].
        apply Hq. exact R.
Qed.

(** So does an address wait that ends with the address flag. *)
Lemma wait_addr_passive i2c fuel : forall s,
  wpr (wait_addr fuel i2c)
      (fun r s' => exists tr, trace s' = trace s ++ tr /\
                     (r = 0 -> Forall (fun e => passive e = true) tr))
      (fun _ => True) s.
Proof.
  induction fuel as [|f IH]; intro s; [exact I|].
  simpl. apply wpr_bind, wp_wpr, wp_rd. intros v s1 _ (T1 & _).
  destruct (Z.land v I2C_SR1_ADDR =? 0).
  - apply wpr_bind, wp_wpr, wp_get_bus_error. intros s2 (T2 & _).
    rewrite app_nil_r in T2.
    destruct (i2c_bus_error s2 =? 0).
    + apply (wpr_mono _ _ _ _ _ (IH s2)). intros r s' (tr & T & Hq).
      exists (EvRead i2c SR1 v :: tr). split.
      * rewrite T, T2, T1, <- app_assoc. reflexivity.
      * intro R. constructor; [reflexivity | exact (Hq R)].
    + apply wpr_bind, wp_wpr, wp_i2c_reset. intros u a b c d e g s3 _ (T3 & _).
      apply wp_wpr, wp_ret.
      exists (EvRead i2c SR1 v :: reset_trace i2c u a b c d e g). split.
      * rewrite T3, T2, T1, <- app_assoc. reflexivity.
      * intro R. discriminate R.
  - apply wp_wpr, wp_ret. exists [EvRead i2c SR1 v]. split; [exact T1|].
    intros _. repeat constructor.
Qed.

(** A start phase that succeeds without a reset turns on no bit of the
    control register but START. *)
Lemma start_quiet i2c address rw_flag fuel s r s1 m :
  _start fuel i2c address rw_flag s = Ret r s1 ->
  0 <= r ->
  resets (trace s1) = resets (trace s) ->
  Z.land I2C_CR1_START m = 0 ->
  exists tr, trace s1 = trace s ++ tr /\
             Forall (fun e => asserts i2c CR1 m e = false) tr.
Proof.
  intros E Hr Hres Hm.
  assert (W : wpr (_start fuel i2c address rw_flag)
                  (fun r s' => exists tr,
                       trace s' = trace s ++ tr /\
                       (r = 0 -> resets tr = 0%nat ->
                        Forall (fun e => asserts i2c CR1 m e = false) tr))
                  (fun _ => True) s).
  { unfold _start, start_send.
    apply wpr_bind, wpr_bind, wp_wpr, wp_now. intros t0 s2 _ (T1 & _).
    apply wpr_bind.
    apply (wpr_mono _ _ _ _ _ (wait_ready_passive i2c t0 fuel s2)).
    intros u2 s3 (tr2 & T2 & Q2).
    apply wpr_bind, wp_wpr, wp_set_bits. intros a s4 _ (T3 & _).
    apply wpr_bind. unfold wait_set.
    apply (wpr_mono _ _ _ _ _ (poll_wpr i2c SR1 _ fuel s4)).
    intros u4 s5 (tr4 & P4 & (T4 & _)).
    apply wpr_bind, wp_wpr, wp_set_bus_error. intros s6 T5 _ _.
    apply wp_wpr, wp_wr. intros s7 (T6 & _).
    apply (wpr_mono _ _ _ _ _ (wait_addr_passive i2c fuel s7)).
    intros r' s8 (tr7 & T7 & Q7).
    exists (EvNow t0 :: tr2 ++ EvUpdate i2c CR1 a (Z.lor a I2C_CR1_START)
                  :: tr4 ++ EvWrite i2c DR (Z.lor (Z.shiftl address 1) rw_flag) :: tr7).
    split.
    - rewrite T7, T6, T5, T4, T3, T2, T1. repeat rewrite <- app_assoc. reflexivity.
    - intros R0 R.
      change (resets (tr2 ++ EvUpdate i2c CR1 a (Z.lor a I2C_CR1_START)
                          :: tr4 ++ EvWrite i2c DR (Z.lor (Z.shiftl address 1) rw_flag)
                          :: tr7) = 0%nat) in R.
      rewrite resets_app in R.
      assert (R2 : resets tr2 = 0%nat) by lia.
      constructor; [reflexivity|].
      apply Forall_app. split.
      + eapply Forall_impl; [|exact (Q2 R2)].
        intros e He. apply passive_never_asserts. exact He.
      + constructor; [apply set_other_never_asserts; exact Hm|].
        apply Forall_app. split.
        * exact (poll_never_asserts _ _ _ i2c CR1 m _ P4).
        * constructor; [unfold asserts; cbn [reg_eqb]; rewrite andb_false_r; reflexivity|].
          eapply Forall_impl; [|exact (Q7 R0)].
          intros e He. apply passive_never_asserts. exact He. }
  unfold wpr in W. rewrite E in W. destruct W as (tr & T & Q).
  exists tr. split; [exact T|].
  destruct (start_returns _ _ _ _ _ _ _ E) as [->|(-> & _)]; [|lia].
  apply Q; [reflexivity|].
  rewrite T, resets_app in Hres. lia.
Qed.

Lemma land_uint32_l x m : Z.land (uint32 x) m = uint32 (Z.land x m).
Proof.
  unfold uint32. change (2 ^ 32) with (2 ^ 32).
  rewrite <- !Z.land_ones by lia.
  rewrite <- !Z.land_assoc. f_equal. apply Z.land_comm.
Qed.

(** The two updates that end a read, on a register that returns the
    cleared bits as written. *)
Lemma wp_clear_then_set i2c r m k (K : M Z) (Q : Z -> State -> Prop) s :
  retains i2c r m ->
  (forall d e s',
      frame s s' [EvUpdate i2c r d (Z.land d (not32 m)); EvUpdate i2c r e (Z.lor e k)] ->
      Z.land e m = 0 -> wp K Q s') ->
  wp (bind (clear_bits i2c r m) (fun _ => bind (set_bits i2c r k) (fun _ => K))) Q s.
Proof.
  intros Hk H. unfold wp, bind, clear_bits, set_bits, update.
  pose proof (raw_read_frame i2c r (irq_point s)) as [F1 _].
  destruct (raw_read i2c r (irq_point s)) as [d s1]. simpl in F1.
  pose proof (Hk (irq_point s1) (Z.land d (not32 m))
                 (EvUpdate i2c r d (Z.land d (not32 m)))) as Hread.
  pose proof (raw_read_frame i2c r
                (irq_point (emit (EvUpdate i2c r d (Z.land d (not32 m)))
                                 (raw_write i2c r (Z.land d (not32 m)) (irq_point s1)))))
    as [F2 _].
  destruct (raw_read i2c r
              (irq_point (emit (EvUpdate i2c r d (Z.land d (not32 m)))
                               (raw_write i2c r (Z.land d (not32 m)) (irq_point s1)))))
    as [e s2]. simpl in F2, Hread.
  apply (H d e).
  - apply (frame_trans s
             (emit (EvUpdate i2c r d (Z.land d (not32 m)))
                   (raw_write i2c r (Z.land d (not32 m)) (irq_point s1)))
             _ [EvUpdate i2c r d (Z.land d (not32 m))]
             [EvUpdate i2c r e (Z.lor e k)]).
    + change [EvUpdate i2c r d (Z.land d (not32 m))]
        with ([] ++ [] ++ [] ++ [] ++ [EvUpdate i2c r d (Z.land d (not32 m))]).
      eapply frame_trans; [apply irq_point_frame|].
      eapply frame_trans; [exact F1|].
      eapply frame_trans; [apply irq_point_frame|].
      eapply frame_trans; [apply with_hw_frame | apply emit_frame].
    + change [EvUpdate i2c r e (Z.lor e k)]
        with ([] ++ [] ++ [] ++ [] ++ [EvUpdate i2c r e (Z.lor e k)]).
      eapply frame_trans; [apply irq_point_frame|].
      eapply frame_trans; [exact F2|].
      eapply frame_trans; [apply irq_point_frame|].
      eapply frame_trans; [apply with_hw_frame | apply emit_frame].
  - rewrite Hread, land_uint32_l, land_not32_same. reflexivity.
Qed.

Lemma lor_keeps_clear e k m : Z.land e m = 0 -> Z.land k m = 0 -> Z.land (Z.lor e k) m = 0.
Proof. intros He Hk. rewrite Z.land_lor_distr_l, He, Hk. reflexivity. Qed.

(** X20: a successful 2-byte read whose start phase did not reset the
    bus.  From the call on, no access turns the STOP bit of the control
    register on before a read of status register 1 shows the
    byte-transfer-complete flag; the update that sets STOP is the access
    that follows this read.  The call ends with two updates of the control
    register, clearing POS and then setting ACK; on a controller whose
    control register returns POS as written, the value last written has
    POS clear and ACK set. *)
Theorem read_two_bytes_stop_follows_btf dev address n0 s r s1 :
  uint32 dev < I2C_NUMOF ->
  _start n0 dev address I2C_FLAG_READ s = Ret r s1 ->
  0 <= r ->
  resets (trace s1) = resets (trace s) ->
  Z.land I2C_CR1_START I2C_CR1_STOP = 0 ->
  Z.land (Z.lor I2C_CR1_POS I2C_CR1_ACK) I2C_CR1_STOP = 0 ->
  Z.land I2C_CR1_ACK I2C_CR1_POS = 0 ->
  answers dev SR1 (is_set I2C_SR1_BTF) ->
  answers dev CR1 (is_clear I2C_CR1_STOP) ->
  retains dev CR1 I2C_CR1_POS ->
  exists fuel s' pre v c mid d e,
    i2c_read_bytes fuel dev address 2 s = Ret 2 s' /\
    trace s' = trace s
                 ++ pre
                 ++ EvRead dev SR1 v
                 :: EvUpdate dev CR1 c (Z.lor c I2C_CR1_STOP)
                 :: mid
                 ++ [EvUpdate dev CR1 d (Z.land d (not32 I2C_CR1_POS));
                     EvUpdate dev CR1 e (Z.lor e I2C_CR1_ACK)] /\
    is_set I2C_SR1_BTF v = true /\
    Forall (fun ev => asserts dev CR1 I2C_CR1_STOP ev = false) pre /\
    Z.land (Z.lor e I2C_CR1_ACK) I2C_CR1_POS = 0 /\
    Z.land (Z.lor e I2C_CR1_ACK) I2C_CR1_ACK = I2C_CR1_ACK.
Proof.
  intros Hdev Hstart Hr Hres Hss Hmask Hap Hbtf Hstop Hkeep.
  assert (W : cwp (fun fuel => i2c_read_bytes fuel dev address 2)
                  (fun res s' => res = 2 /\
                     exists pre v c mid d e,
                       trace s' = trace s1
                                    ++ pre
                                    ++ EvRead dev SR1 v
                                    :: EvUpdate dev CR1 c (Z.lor c I2C_CR1_STOP)
                                    :: mid
                                    ++ [EvUpdate dev CR1 d (Z.land d (not32 I2C_CR1_POS));
                                        EvUpdate dev CR1 e (Z.lor e I2C_CR1_ACK)] /\
                       is_set I2C_SR1_BTF v = true /\
                       Forall (fun ev => asserts dev CR1 I2C_CR1_STOP ev = false) pre /\
                       Z.land e I2C_CR1_POS = 0) s).
  { unfold i2c_read_bytes.
    destruct (Z.leb_spec I2C_NUMOF (uint32 dev)); [lia|].
    change (2 =? 1) with false. change (2 =? 2) with true. cbv iota.
    cwp_split. apply (cwp_start _ _ _ _ _ _ _ _ Hstart).
    cwp_step.
    destruct (Z.ltb_spec r 0); [lia|].
    cwp_step. cwp_step.
    unfold _clear_addr.
    cwp_split. apply cwp_const. wp_step. wp_step. wp_prim.
    cwp_step. cwp_step.
    cwp_wait Hbtf.
    match goal with P : poll_trace _ _ _ _ |- _ =>
      pose proof (poll_never_asserts _ _ _ dev CR1 I2C_CR1_STOP _ P) as Hq;
      destruct P as (polls & vbtf & -> & Pv & _) end.
    apply Forall_app in Hq. destruct Hq as [Hq _].
    cwp_step. cwp_step. cwp_step. cwp_store. cwp_step. cwp_step. cwp_store.
    cwp_wait Hstop.
    apply cwp_const, wp_clear_then_set; [exact Hkeep|].
    intros d e sfin Fde Hpos.
    apply wp_ret. split; [reflexivity|].
    unwind_trace.
    match goal with
    | |- context [?e1 :: ?e2 :: ?e3 :: ?e4 :: polls
                    ++ _ :: _ :: ?m1 :: ?m2 :: ?m3 :: ?m4 :: ?t ++ _] =>
        exists (e1 :: e2 :: e3 :: e4 :: polls), vbtf; eexists;
        exists (m1 :: m2 :: m3 :: m4 :: t)
    end.
    exists d, e.
    split; [|split; [exact Pv|split; [|exact Hpos]]].
    - simpl. reflexivity.
    - repeat constructor; try exact Hq.
      + apply set_other_never_asserts. exact Hmask.
      + apply clear_never_asserts. }
  apply cwp_run in W.
  destruct W as (fuel & res & s' & E & -> & pre & v & c & mid & d & e & T & Pv & Hpre & Hpos).
  destruct (start_quiet _ _ _ _ _ _ _ I2C_CR1_STOP Hstart Hr Hres Hss)
    as (tr0 & T0 & Q0).
  exists fuel, s', (tr0 ++ pre), v, c, mid, d, e.
  split; [exact E|]. split.
  { rewrite T, T0. repeat rewrite <- app_assoc. reflexivity. }
  split; [exact Pv|]. split.
  { apply Forall_app. split; assumption. }
  split.
  - apply lor_keeps_clear; assumption.
  - apply lor_land_same.
Qed.

End More.

(** * The properties on concrete boards *)

Lemma init_master_accepts_smallest_witness :
  (exists s',
      @i2c_init_master board_80MHz regfile 0 I2C_SPEED_NORMAL
                       (regfile_state (fun _ _ => 0)) = Ret 0 s' /\
      spec_tick_counts 80000000 6 (4000, 4700, 500, 1250) = Some (53, 62, 6, 16) /\
      presc_loop 16 80000000 (4000, 4700, 500, 1250) 1 0 = (6, 0x50F6343D) /\
      writes_to 0 TIMINGR (trace s') = [0x50F6343D]) /\
  (exists s',
      @i2c_init_master board_8MHz regfile 0 I2C_SPEED_NORMAL
                       (regfile_state (fun _ _ => 0)) = Ret 0 s' /\
      spec_tick_counts 8000000 1 (4000, 4700, 500, 1250) = Some (32, 37, 4, 10) /\
      presc_loop 16 8000000 (4000, 4700, 500, 1250) 1 0 = (1, 0x00941F24) /\
      writes_to 0 TIMINGR (trace s') = [0x00941F24]).
Proof.
  split.
  - destruct (@init_master_accepts_smallest board_80MHz regfile 0 I2C_SPEED_NORMAL
                (4000, 4700, 500, 1250) 6 (regfile_state (fun _ _ => 0)))
      as (s' & timing & sclh & scll & sdadel & scldel & Et & _ & E & L & W & V & _).
    + reflexivity.
    + reflexivity.
    + lia.
    + reflexivity.
    + intros q Hq.
      assert (C : q = 1 \/ q = 2 \/ q = 3 \/ q = 4 \/ q = 5) by lia.
      repeat destruct C as [->|C]; try subst q; reflexivity.
    + vm_compute in Et. injection Et as <- <- <- <-.
      vm_compute in V. subst timing.
      exists s'. split; [exact E|]. split; [reflexivity|]. split; [exact L|]. exact W.
  - destruct (@init_master_accepts_smallest board_8MHz regfile 0 I2C_SPEED_NORMAL
                (4000, 4700, 500, 1250) 1 (regfile_state (fun _ _ => 0)))
      as (s' & timing & sclh & scll & sdadel & scldel & Et & _ & E & L & W & _ & P).
    + reflexivity.
    + reflexivity.
    + lia.
    + reflexivity.
    + intros q Hq. lia.
    + destruct (P eq_refl eq_refl) as [_ ->].
      exists s'. split; [exact E|]. split; [reflexivity|]. split; [exact L|]. exact W.
Defined.

Lemma init_master_exhausted_witness :
  exists s',
    @i2c_init_master board_100kHz regfile 0 I2C_SPEED_NORMAL
                     (regfile_state (fun _ _ => 0)) = Ret 2 s' /\
    writes_to 0 TIMINGR (trace s') = writes_to 0 TIMINGR [].
Proof.
  apply (@init_master_exhausted_returns_2 board_100kHz regfile 0 I2C_SPEED_NORMAL
           (4000, 4700, 500, 1250) (regfile_state (fun _ _ => 0))).
  - reflexivity.
  - reflexivity.
  - intros q Hq.
    assert (C : q = 1 \/ q = 2 \/ q = 3 \/ q = 4 \/ q = 5 \/ q = 6 \/ q = 7 \/ q = 8 \/
                q = 9 \/ q = 10 \/ q = 11 \/ q = 12 \/ q = 13 \/ q = 14 \/ q = 15) by lia.
    repeat destruct C as [->|C]; try subst q; reflexivity.
Defined.

(** C2: the reset does not bring the timing register back.  On a
    controller initialized at 8 MHz the timing register holds 0x00941F24
    and [CCR] was never written: after the reset the timing register is
    0.  Were [CCR] to mirror the timing value, its upper half would still
    be lost in the 16-bit local: 0x1F24 is written. *)
Theorem reset_loses_timing :
  initialized_regs 0 TIMINGR = 0x00941F24 /\
  st_hw (final_state (@_i2c_reset board_8MHz regfile 0
                        (regfile_state initialized_regs))) 0 TIMINGR = 0 /\
  st_hw (final_state (@_i2c_reset board_8MHz regfile 0
                        (regfile_state (fun _ r => match r with
                                                   | TIMINGR | CCR => 0x00941F24
                                                   | _ => 0
                                                   end)))) 0 TIMINGR = 0x1F24.
Proof. vm_compute. auto. Qed.

Lemma start_busy_never_returns_witness :
  exists s' t0 tr,
    @_start board_8MHz stuck_bus 5 0 0x1D 1 stuck_state = Hang s' /\
    trace s' = trace stuck_state ++ EvNow t0 :: tr /\
    resets tr = late_polls t0 tr.
Proof.
  apply (@start_busy_never_returns board_8MHz stuck_bus 0).
  intro h. vm_compute. discriminate.
Defined.

(** C1 fails as stated: on a bus that stays busy [_start] returns nothing,
    however long it runs, and within five polls it has reset the bus three
    times. *)
Lemma start_busy_counterexample :
  (forall fuel, exists s',
        @_start board_8MHz stuck_bus fuel 0 0x1D 1 stuck_state = Hang s') /\
  resets (trace (final_state (@_start board_8MHz stuck_bus 5 0 0x1D 1 stuck_state)))
  = 3%nat.
Proof.
  split.
  - intro fuel.
    destruct (@start_send_stuck board_8MHz stuck_bus 0
                (fun h => ltac:(vm_compute; discriminate)) 0x1D 1 fuel stuck_state)
      as (s' & _ & _ & E & _).
    exists s'. unfold _start, bind. rewrite E. reflexivity.
  - vm_compute. reflexivity.
Qed.

(** C8 fails as stated: the handler runs in the address wait with the
    status bit of a fault set, for each of the seven faults in turn, and
    records its code; the status read that follows shows the address flag,
    so that [_start] returns 0 and the bus is not reset. *)
Lemma fault_with_address_shown_counterexample :
  Forall (fun k =>
    let dev := racing (@fault_bit board_8MHz k) true 0 in
    exists sa s',
      @start_send board_8MHz dev 1 0 0x1D 1
                  (racing_state (@fault_bit board_8MHz k) true 0) = Ret tt sa /\
      fault_log sa = [] /\
      @_start board_8MHz dev 1 0 0x1D 1
              (racing_state (@fault_bit board_8MHz k) true 0) = Ret 0 s' /\
      fault_log s' = [fault_code k] /\
      i2c_bus_error s' = fault_code k /\
      resets (trace s') = 0%nat)
    [OVR; NACKF; ARLO; BERR; PECERR; TIMEOUT; ALERT].
Proof.
  repeat constructor; cbv zeta; eexists; eexists; vm_compute; repeat split; reflexivity.
Qed.

Lemma fault_during_address_wait_witness :
  (exists s' v a b c d e f,
     @_start board_8MHz (racing 0x0010 false 2) 3 0 0x1D 1 (racing_state 0x0010 false 2)
     = Ret (-1) s' /\
     trace s' = trace late_polled ++ @reset_trace board_8MHz 0 v a b c d e f /\
     -7 <= i2c_bus_error s' <= -1) /\
  (exists s',
     @_start board_8MHz (racing 0x0010 true 0) 3 0 0x1D 1 (racing_state 0x0010 true 0)
     = Ret 0 s' /\
     trace s' = trace early_sent ++ [EvRead 0 SR1 3] /\
     i2c_bus_error s' = -2).
Proof.
  split.
  - destruct (@fault_during_address_wait board_8MHz (racing 0x0010 false 2)
                NACKF 0 0 None late_polled eq_refl eq_refl (or_introl eq_refl))
      as [_ H].
    + vm_compute. discriminate.
    + destruct (H 3%nat 0x1D 1 (racing_state 0x0010 false 2) late_sent 1%nat
                  eq_refl ltac:(lia)) as [_ HB].
      apply (HB late_turn 1); reflexivity.
  - destruct (@fault_during_address_wait board_8MHz (racing 0x0010 true 0)
                NACKF 0 0 None early_sent eq_refl eq_refl (or_introl eq_refl))
      as [_ H].
    + vm_compute. discriminate.
    + destruct (H 3%nat 0x1D 1 (racing_state 0x0010 true 0) early_sent 0%nat
                  eq_refl ltac:(lia)) as [HA _].
      destruct (HA eq_refl) as [_ Hack].
      apply Hack. vm_compute. discriminate.
Defined.

Lemma start_fault_returns_minus_one_witness :
  (1 = @I2C_FLAG_READ board_8MHz ->
   forall length,
     @i2c_read_bytes board_8MHz (faulty 0x0010) 1 0 0x1D length (faulty_state 0x0010)
     = Ret (-1) (with_bus_result (-1) nack_failed_state)) /\
  (1 = @I2C_FLAG_WRITE board_8MHz ->
   forall data length,
     @i2c_write_bytes board_8MHz (faulty 0x0010) 1 0 0x1D data length
                      (faulty_state 0x0010)
     = Ret (-1) (with_bus_result (-1) nack_failed_state)) /\
  -7 <= i2c_bus_error (with_bus_result (-1) nack_failed_state) <= -1.
Proof.
  apply (@start_fault_returns_minus_one board_8MHz (faulty 0x0010) 0 0x1D 1 1%nat
           (faulty_state 0x0010) (-1) nack_failed_state).
  - reflexivity.
  - reflexivity.
  - lia.
Defined.

(** ** The answering peer *)

Lemma responder_rd i2c r tick nxt e res irq data tr fl :
  r <> DR ->
  @rd board_8MHz responder i2c r (@mkState responder (tick, nxt) e res irq data tr fl)
  = Ret (if tick then 0xFFFFFFFF else 0)
        (@mkState responder (negb tick, nxt) e res irq data
                  (tr ++ [EvRead i2c r (if tick then 0xFFFFFFFF else 0)]) fl).
Proof. intro Hr. destruct r, irq, tick; try contradiction; reflexivity. Qed.

Lemma responder_answers_set i2c r m :
  r <> DR -> Z.land 0xFFFFFFFF m <> 0 ->
  @answers board_8MHz responder i2c r (is_set m).
Proof.
  intros Hr Hm s.
  assert (P : is_set m 0xFFFFFFFF = true).
  { unfold is_set.
    destruct (Z.eqb_spec (Z.land 0xFFFFFFFF m) 0); [contradiction | reflexivity]. }
  assert (P0 : is_set m 0 = false).
  { unfold is_set. rewrite Z.land_0_l. reflexivity. }
  destruct s as [[tick nxt] e res irq data tr fl].
  destruct tick.
  - exists 1%nat. eexists. cbn [poll]. unfold bind.
    rewrite responder_rd by exact Hr. rewrite P. reflexivity.
  - exists 2%nat. eexists. cbn [poll]. unfold bind.
    rewrite responder_rd by exact Hr. rewrite P0.
    rewrite responder_rd by exact Hr. cbn [negb]. rewrite P. reflexivity.
Qed.

Lemma responder_answers_clear i2c r m :
  r <> DR -> @answers board_8MHz responder i2c r (is_clear m).
Proof.
  intros Hr s.
  assert (P0 : is_clear m 0 = true).
  { unfold is_clear. rewrite Z.land_0_l. reflexivity. }
  destruct s as [[tick nxt] e res irq data tr fl].
  destruct tick.
  - exists 2%nat. cbn [poll]. unfold bind.
    rewrite responder_rd by exact Hr.
    destruct (is_clear m 0xFFFFFFFF); [eexists; reflexivity|].
    rewrite responder_rd by exact Hr. cbn [negb]. rewrite P0.
    eexists; reflexivity.
  - exists 1%nat. eexists. cbn [poll]. unfold bind.
    rewrite responder_rd by exact Hr. rewrite P0. reflexivity.
Qed.

Lemma responder_rxne : @answers board_8MHz responder 0 SR1 (is_set (@I2C_SR1_RXNE board_8MHz)).
Proof. apply responder_answers_set; [discriminate | vm_compute; discriminate]. Qed.

Lemma responder_btf : @answers board_8MHz responder 0 SR1 (is_set (@I2C_SR1_BTF board_8MHz)).
Proof. apply responder_answers_set; [discriminate | vm_compute; discriminate]. Qed.

Lemma responder_stop : @answers board_8MHz responder 0 CR1 (is_clear (@I2C_CR1_STOP board_8MHz)).
Proof. apply responder_answers_clear. discriminate. Qed.

Lemma read_one_byte_nack_before_stop_witness :
  exists fuel s' a x y b rest,
    @i2c_read_bytes board_8MHz responder fuel 0 0x1D 1 responder_state = Ret 1 s' /\
    trace s' = trace responder_started
                 ++ EvUpdate 0 CR1 a (Z.land a (not32 (@I2C_CR1_ACK board_8MHz)))
                 :: EvRead 0 SR1 x
                 :: EvRead 0 SR2 y
                 :: EvUpdate 0 CR1 b (Z.lor b (@I2C_CR1_STOP board_8MHz))
                 :: rest /\
    Z.land (Z.land a (not32 (@I2C_CR1_ACK board_8MHz))) (@I2C_CR1_ACK board_8MHz) = 0.
Proof.
  apply (@read_one_byte_nack_before_stop board_8MHz responder 0 0x1D 2%nat
           responder_state 0 responder_started).
  - reflexivity.
  - reflexivity.
  - lia.
  - exact responder_rxne.
  - exact responder_stop.
Defined.


Lemma read_n_bytes_in_order_witness :
  exists fuel s' pre btf post,
    @i2c_read_bytes board_8MHz responder fuel 0 0x1D 6 responder_state = Ret 6 s' /\
    trace s' = trace responder_started ++ pre ++ btf ++ post /\
    poll_trace 0 SR1 (is_set (@I2C_SR1_BTF board_8MHz)) btf /\
    List.length (reads_of 0 DR pre) = Z.to_nat (6 - 3) /\
    List.length (reads_of 0 DR post) = 3%nat /\
    List.length (reads_of 0 DR (pre ++ btf ++ post)) = Z.to_nat 6 /\
    stores (pre ++ btf ++ post)
    = combine (zseq 0 (Z.to_nat 6))
              (map uint8 (reads_of 0 DR (pre ++ btf ++ post))) /\
    (forall j, 0 <= j < 6 ->
               my_data s' j
               = uint8 (nth (Z.to_nat j) (reads_of 0 DR (pre ++ btf ++ post)) 0)) /\
    (forall j, ~ 0 <= j < 6 -> my_data s' j = my_data responder_state j).
Proof.
  apply (@read_n_bytes_in_order board_8MHz responder 0 0x1D 6 2%nat
           responder_state 0 responder_started).
  - reflexivity.
  - lia.
  - reflexivity.
  - lia.
  - exact responder_rxne.
  - exact responder_btf.
  - exact responder_stop.
Defined.

Lemma read_short_length_stores_three_witness :
  exists fuel s' pre btf post va vb vc,
    @i2c_read_bytes board_8MHz responder fuel 0 0x1D 0 responder_state = Ret 0 s' /\
    trace s' = trace responder_started ++ pre ++ btf ++ post /\
    poll_trace 0 SR1 (is_set (@I2C_SR1_BTF board_8MHz)) btf /\
    reads_of 0 DR (pre ++ btf) = [] /\
    reads_of 0 DR post = [va; vb; vc] /\
    stores (pre ++ btf ++ post) = [(0, uint8 va); (1, uint8 vb); (2, uint8 vc)] /\
    my_data s' 0 = uint8 va /\
    my_data s' 1 = uint8 vb /\
    my_data s' 2 = uint8 vc /\
    (forall j, ~ 0 <= j < 3 -> my_data s' j = my_data responder_state j).
Proof.
  apply (@read_short_length_stores_three board_8MHz responder 0 0x1D 0 2%nat
           responder_state 0 responder_started).
  - reflexivity.
  - discriminate.
  - discriminate.
  - lia.
  - reflexivity.
  - lia.
  - exact responder_rxne.
  - exact responder_btf.
  - exact responder_stop.
Defined.

(** * The further properties on concrete boards *)

Lemma responder_txe : @answers board_8MHz responder 0 ISR (is_set (@I2C_ISR_TXE board_8MHz)).
Proof. apply responder_answers_set; [discriminate | vm_compute; discriminate]. Qed.

Lemma responder_tc : @answers board_8MHz responder 0 ISR (is_set (@I2C_ISR_TC board_8MHz)).
Proof. apply responder_answers_set; [discriminate | vm_compute; discriminate]. Qed.

Lemma responder_idle :
  @answers board_8MHz responder 0 SR2 (is_clear (@I2C_SR2_BUSY board_8MHz)).
Proof. apply responder_answers_clear. discriminate. Qed.

Lemma invalid_bus_is_rejected_witness :
  let s := regfile_state (fun _ _ => 0) in
  @i2c_init_master board_8MHz regfile 5 I2C_SPEED_NORMAL s = Ret (-1) s /\
  @i2c_read_bytes board_8MHz regfile 1 5 0x1D 3 s = Ret (-1) s /\
  @i2c_read_byte board_8MHz regfile 1 5 0x1D s = Ret (-1) s /\
  @i2c_read_regs board_8MHz regfile 1 5 0x1D 0x28 3 s = Ret (-1) s /\
  @i2c_read_reg board_8MHz regfile 1 5 0x1D 0x28 s = Ret (-1) s /\
  @i2c_write_bytes board_8MHz regfile 1 5 0x1D sample_data 3 s = Ret (-1) s /\
  @i2c_write_byte board_8MHz regfile 1 5 0x1D 0x55 s = Ret (-1) s /\
  @i2c_write_regs board_8MHz regfile 1 5 0x1D 0x28 sample_data 3 s = Ret (-1) s /\
  @i2c_write_reg board_8MHz regfile 1 5 0x1D 0x28 0x55 s = Ret (-1) s /\
  @i2c_poweron board_8MHz regfile 5 s = Ret tt s /\
  @i2c_poweroff board_8MHz regfile 1 5 s = Ret tt s.
Proof.
  apply (@invalid_bus_is_rejected board_8MHz regfile 5 1%nat I2C_SPEED_NORMAL
           0x1D 0x28 0x55 sample_data 3 (regfile_state (fun _ _ => 0))).
  vm_compute. discriminate.
Defined.

Lemma init_master_bad_speed_witness :
  exists a s',
    @i2c_init_master board_8MHz regfile 0 I2C_SPEED_other
                     (regfile_state (fun _ _ => 0)) = Ret (-2) s' /\
    trace s' = trace (regfile_state (fun _ _ => 0))
                 ++ [EvExt (periph_clk_en 0);
                     EvUpdate 0 CR1 a (Z.land a (not32 (@I2C_CR1_PE board_8MHz)));
                     EvExt (NVIC_SetPriority 0);
                     EvExt (NVIC_EnableIRQ 0);
                     EvExt (gpio_init_scl 0);
                     EvExt (gpio_init_af_scl 0);
                     EvExt (gpio_init_sda 0);
                     EvExt (gpio_init_af_sda 0)] /\
    my_data s' = my_data (regfile_state (fun _ _ => 0)).
Proof.
  apply (@init_master_bad_speed board_8MHz regfile 0 I2C_SPEED_other
           (regfile_state (fun _ _ => 0))).
  - reflexivity.
  - reflexivity.
Defined.

Lemma timing_value_fields_witness :
  let timing := timing_value 1 (32, 37, 4, 10) in
  Z.shiftr timing 28 = 1 - 1 /\
  Z.land (Z.shiftr timing 20) 15 = 10 - 1 /\
  Z.land (Z.shiftr timing 16) 15 = 4 /\
  Z.land (Z.shiftr timing 8) 255 = 32 - 1 /\
  Z.land timing 255 = 37 - 1.
Proof.
  apply (timing_value_fields 1 32 37 4 10); try lia. reflexivity.
Defined.

Lemma write_bytes_in_order_witness :
  exists fuel s' x y sent tc a,
    @i2c_write_bytes board_8MHz responder fuel 0 0x1D sample_data 3 responder_state
    = Ret 3 s' /\
    trace s' = trace responder_started_write
                 ++ EvRead 0 SR1 x :: EvRead 0 SR2 y
                 :: sent ++ tc
                 ++ [EvUpdate 0 CR2 a (Z.lor a (@I2C_CR2_STOP board_8MHz))] /\
    writes_to 0 TXDR sent = map sample_data (zseq 0 (Z.to_nat 3)) /\
    poll_trace 0 ISR (is_set (@I2C_ISR_TC board_8MHz)) tc /\
    my_data s' = my_data responder_state.
Proof.
  apply (@write_bytes_in_order board_8MHz responder 0 0x1D sample_data 3 2%nat
           responder_state 0 responder_started_write).
  - reflexivity.
  - reflexivity.
  - lia.
  - exact responder_txe.
  - exact responder_tc.
Defined.

Lemma write_regs_register_first_witness :
  exists fuel s' x y sent tc a,
    @i2c_write_regs board_8MHz responder fuel 0 0x1D 0x28 sample_data 3 responder_state
    = Ret 3 s' /\
    trace s' = trace responder_started_write
                 ++ EvRead 0 SR1 x :: EvRead 0 SR2 y
                 :: sent ++ tc
                 ++ [EvUpdate 0 CR2 a (Z.lor a (@I2C_CR2_STOP board_8MHz))] /\
    writes_to 0 TXDR sent = 0x28 :: map sample_data (zseq 0 (Z.to_nat 3)) /\
    poll_trace 0 ISR (is_set (@I2C_ISR_TC board_8MHz)) tc /\
    my_data s' = my_data responder_state.
Proof.
  apply (@write_regs_register_first board_8MHz responder 0 0x1D 0x28 sample_data 3
           2%nat responder_state 0 responder_started_write).
  - reflexivity.
  - reflexivity.
  - lia.
  - exact responder_txe.
  - exact responder_tc.
Defined.

Lemma reg_access_start_fail_witness :
  let s := faulty_state 0x0010 in
  let s1 := with_bus_result (-1) nack_failed_write in
  @i2c_read_regs board_8MHz (faulty 0x0010) 1 0 0x1D 0x28 3 s = Ret (-1) s1 /\
  @i2c_read_reg board_8MHz (faulty 0x0010) 1 0 0x1D 0x28 s = Ret (-1) s1 /\
  @i2c_write_regs board_8MHz (faulty 0x0010) 1 0 0x1D 0x28 sample_data 3 s
  = Ret (-1) s1 /\
  @i2c_write_reg board_8MHz (faulty 0x0010) 1 0 0x1D 0x28 0x55 s = Ret (-1) s1 /\
  @i2c_write_byte board_8MHz (faulty 0x0010) 1 0 0x1D 0x55 s = Ret (-1) s1 /\
  my_data s1 = my_data s.
Proof.
  apply (@reg_access_start_fail board_8MHz (faulty 0x0010) 0 0x1D 0x28 0x55
           sample_data 3 1%nat (faulty_state 0x0010) (-1) nack_failed_write).
  - reflexivity.
  - reflexivity.
  - lia.
Defined.

Lemma read_regs_is_write_then_read_witness :
  exists (n1 : nat) s2 x y tc a,
    trace s2 = trace responder_started_write
                 ++ EvRead 0 SR1 x :: EvRead 0 SR2 y :: EvWrite 0 DR 0x28
                 :: tc ++ [EvUpdate 0 CR2 a (Z.lor a (@I2C_CR2_STOP board_8MHz))] /\
    poll_trace 0 ISR (is_set (@I2C_ISR_TC board_8MHz)) tc /\
    my_data s2 = my_data responder_state /\
    forall fuel, (n1 <= fuel)%nat ->
      @i2c_read_regs board_8MHz responder fuel 0 0x1D 0x28 6 responder_state
      = @i2c_read_bytes board_8MHz responder fuel 0 0x1D 6 s2.
Proof.
  apply (@read_regs_is_write_then_read board_8MHz responder 0 0x1D 0x28 6 2%nat
           responder_state 0 responder_started_write).
  - reflexivity.
  - reflexivity.
  - lia.
  - exact responder_tc.
Defined.

Lemma read_one_byte_delivers_witness :
  exists fuel s' tr v,
    @i2c_read_bytes board_8MHz responder fuel 0 0x1D 1 responder_state = Ret 1 s' /\
    trace s' = trace responder_started ++ tr /\
    reads_of 0 DR tr = [v] /\
    stores tr = [(0, uint8 v)] /\
    my_data s' 0 = uint8 v /\
    (forall j, j <> 0 -> my_data s' j = my_data responder_state j).
Proof.
  apply (@read_one_byte_delivers board_8MHz responder 0 0x1D 2%nat
           responder_state 0 responder_started).
  - reflexivity.
  - reflexivity.
  - lia.
  - exact responder_rxne.
  - exact responder_stop.
Defined.

Lemma read_two_bytes_deliver_witness :
  exists fuel s' pre btf post va vb,
    @i2c_read_bytes board_8MHz responder fuel 0 0x1D 2 responder_state = Ret 2 s' /\
    trace s' = trace responder_started ++ pre ++ btf ++ post /\
    poll_trace 0 SR1 (is_set (@I2C_SR1_BTF board_8MHz)) btf /\
    reads_of 0 DR (pre ++ btf) = [] /\
    reads_of 0 DR post = [va; vb] /\
    stores (pre ++ btf ++ post) = [(0, uint8 va); (1, uint8 vb)] /\
    my_data s' 0 = uint8 va /\
    my_data s' 1 = uint8 vb /\
    (forall j, j <> 0 -> j <> 1 -> my_data s' j = my_data responder_state j).
Proof.
  apply (@read_two_bytes_deliver board_8MHz responder 0 0x1D 2%nat
           responder_state 0 responder_started).
  - reflexivity.
  - reflexivity.
  - lia.
  - exact responder_btf.
  - exact responder_stop.
Defined.

Lemma start_without_handler_never_fails_witness :
  0 = 0 /\ i2c_bus_error responder_started = 0.
Proof.
  apply (@start_without_handler_never_fails board_8MHz responder 0 0x1D 1 2%nat
           responder_state 0 responder_started).
  - right. intro h. reflexivity.
  - reflexivity.
Defined.

Lemma poweroff_waits_for_idle_witness :
  exists fuel s' tr,
    @i2c_poweroff board_8MHz responder fuel 0 responder_state = Ret tt s' /\
    trace s' = trace responder_state ++ tr ++ [EvExt (periph_clk_dis 0)] /\
    poll_trace 0 SR2 (is_clear (@I2C_SR2_BUSY board_8MHz)) tr.
Proof.
  apply (@poweroff_waits_for_idle board_8MHz responder 0 responder_state).
  - reflexivity.
  - exact responder_idle.
Defined.

Lemma poweroff_on_busy_bus_never_returns_witness :
  exists s' tr,
    @i2c_poweroff board_8MHz stuck_bus 7 0 stuck_state = Hang s' /\
    trace s' = trace stuck_state ++ tr /\
    Forall (fun e => exists v, e = EvRead 0 SR2 v) tr.
Proof.
  apply (@poweroff_on_busy_bus_never_returns board_8MHz stuck_bus 0 7%nat stuck_state).
  - reflexivity.
  - intro h. vm_compute. discriminate.
Defined.

Lemma read_default_tail_sequence_witness :
  exists fuel s' pre btf a va i b vb rxne vc stop c d,
    @i2c_read_bytes board_8MHz responder fuel 0 0x1D 6 responder_state = Ret 6 s' /\
    trace s' = trace responder_started ++ pre ++ btf
                 ++ EvUpdate 0 CR1 a (Z.land a (not32 (@I2C_CR1_ACK board_8MHz)))
                 :: EvRead 0 DR va :: EvStore i (uint8 va)
                 :: EvUpdate 0 CR1 b (Z.lor b (@I2C_CR1_STOP board_8MHz))
                 :: EvRead 0 DR vb :: EvStore (i + 1) (uint8 vb)
                 :: rxne
                 ++ EvRead 0 DR vc :: EvStore (i + 2) (uint8 vc)
                 :: stop
                 ++ [EvUpdate 0 CR1 c (Z.land c (not32 (@I2C_CR1_POS board_8MHz)));
                     EvUpdate 0 CR1 d (Z.lor d (@I2C_CR1_ACK board_8MHz))] /\
    Forall (fun e => touches 0 CR1 e = false) (pre ++ btf) /\
    poll_trace 0 SR1 (is_set (@I2C_SR1_BTF board_8MHz)) btf /\
    poll_trace 0 SR1 (is_set (@I2C_SR1_RXNE board_8MHz)) rxne /\
    poll_trace 0 CR1 (is_clear (@I2C_CR1_STOP board_8MHz)) stop.
Proof.
  apply (@read_default_tail_sequence board_8MHz responder 0 0x1D 6 2%nat
           responder_state 0 responder_started).
  - reflexivity.
  - reflexivity.
  - lia.
  - discriminate.
  - discriminate.
  - exact responder_rxne.
  - exact responder_btf.
  - exact responder_stop.
Defined.

Lemma start_send_resets_on_late_polls_witness :
  (resets (trace peer_sent_late) = 2%nat /\
   exists t0 tr,
     trace peer_sent_late = trace (peer_state 3) ++ EvNow t0 :: tr /\
     resets tr = late_polls t0 tr /\
     (late_polls t0 tr = 0%nat -> resets (EvNow t0 :: tr) = 0%nat)) /\
  (reads_of 0 SR2 (trace peer_sent_soon) = [0x0002; 0] /\
   exists t0 tr,
     trace peer_sent_soon = trace (peer_state 1) ++ EvNow t0 :: tr /\
     resets tr = late_polls t0 tr /\
     (late_polls t0 tr = 0%nat -> resets (EvNow t0 :: tr) = 0%nat)).
Proof.
  split; (split; [reflexivity|]).
  - apply (@start_send_resets_on_late_polls board_8MHz peer 0 0x1D 1 4%nat
             (peer_state 3) peer_sent_late).
    reflexivity.
  - apply (@start_send_resets_on_late_polls board_8MHz peer 0 0x1D 1 4%nat
             (peer_state 1) peer_sent_soon).
    reflexivity.
Defined.

Lemma address_wait_outcome_witness :
  exists tr,
    trace responder_started = trace responder_sent ++ tr /\
    ((0 = 0 /\ resets tr = 0%nat /\
      exists pre v, tr = pre ++ [EvRead 0 SR1 v]
                    /\ Z.land v (@I2C_SR1_ADDR board_8MHz) <> 0) \/
     (0 = -1 /\ resets tr = 1%nat /\
      exists pre v a b c d e f,
        tr = pre ++ @reset_trace board_8MHz 0 v a b c d e f)).
Proof.
  apply (@address_wait_outcome board_8MHz responder 0 2%nat
           responder_sent 0 responder_started).
  reflexivity.
Defined.

(** ** The peer with a control register *)

Lemma retentive_irq_point (s : @State retentive) :
  @irq_point board_8MHz retentive s = s.
Proof. unfold irq_point. destruct (irq_enabled s); reflexivity. Qed.

Lemma retentive_btf : @answers board_8MHz retentive 0 SR1 (is_set (@I2C_SR1_BTF board_8MHz)).
Proof.
  intro s. destruct s as [[cr1 [tick nxt]] e res irq data tr fl].
  destruct tick.
  - exists 1%nat. eexists. cbn [poll]. unfold bind, rd.
    rewrite retentive_irq_point. reflexivity.
  - exists 2%nat. eexists. cbn [poll]. unfold bind, rd.
    rewrite !retentive_irq_point. cbn. rewrite !retentive_irq_point. reflexivity.
Qed.

Lemma retentive_stop :
  @answers board_8MHz retentive 0 CR1 (is_clear (@I2C_CR1_STOP board_8MHz)).
Proof.
  intro s. destruct s as [[cr1 [tick nxt]] e res irq data tr fl].
  exists 2%nat. cbn [poll]. unfold bind, rd.
  rewrite retentive_irq_point.
  unfold raw_read. cbn [hw_read retentive st_hw fst snd with_hw].
  destruct (is_clear (@I2C_CR1_STOP board_8MHz) (uint32 cr1)); [eexists; reflexivity|].
  rewrite retentive_irq_point.
  cbn [hw_read retentive st_hw fst snd with_hw emit].
  replace (is_clear (@I2C_CR1_STOP board_8MHz) (uint32 (Z.land cr1 (Z.lnot 512))))
    with true; [eexists; reflexivity|].
  symmetry. unfold is_clear. apply Z.eqb_eq.
  rewrite land_uint32_l. replace (Z.land (Z.land cr1 (Z.lnot 512)) I2C_CR1_STOP) with 0;
    [reflexivity|].
  symmetry. apply Z.bits_inj'. intros n Hn.
  rewrite !Z.land_spec, Z.lnot_spec, Z.bits_0 by lia.
  change (@I2C_CR1_STOP board_8MHz) with 512.
  destruct (Z.testbit 512 n); rewrite ?andb_false_r; reflexivity.
Qed.

Lemma retentive_pos : @retains board_8MHz retentive 0 CR1 (@I2C_CR1_POS board_8MHz).
Proof.
  intros s v ev. rewrite retentive_irq_point. reflexivity.
Qed.

Lemma read_two_bytes_stop_follows_btf_witness :
  exists fuel s' pre v c mid d e,
    @i2c_read_bytes board_8MHz retentive fuel 0 0x1D 2 retentive_state = Ret 2 s' /\
    trace s' = trace retentive_state
                 ++ pre
                 ++ EvRead 0 SR1 v
                 :: EvUpdate 0 CR1 c (Z.lor c (@I2C_CR1_STOP board_8MHz))
                 :: mid
                 ++ [EvUpdate 0 CR1 d (Z.land d (not32 (@I2C_CR1_POS board_8MHz)));
                     EvUpdate 0 CR1 e (Z.lor e (@I2C_CR1_ACK board_8MHz))] /\
    is_set (@I2C_SR1_BTF board_8MHz) v = true /\
    Forall (fun ev => asserts 0 CR1 (@I2C_CR1_STOP board_8MHz) ev = false) pre /\
    Z.land (Z.lor e (@I2C_CR1_ACK board_8MHz)) (@I2C_CR1_POS board_8MHz) = 0 /\
    Z.land (Z.lor e (@I2C_CR1_ACK board_8MHz)) (@I2C_CR1_ACK board_8MHz)
    = @I2C_CR1_ACK board_8MHz.
Proof.
  apply (@read_two_bytes_stop_follows_btf board_8MHz retentive 0 0x1D 2%nat
           retentive_state 0 retentive_started).
  - reflexivity.
  - reflexivity.
  - lia.
  - reflexivity.
  - reflexivity.
  - reflexivity.
  - reflexivity.
  - exact retentive_btf.
  - exact retentive_stop.
  - exact retentive_pos.
Defined.
